(** * The MTG retrieval-augmented answering pipeline (src/rag_retrieval.py)

    A shallow embedding of class [MTGRAGPipeline]: the three-collection
    search with score filtering, the context formatter, answer generation
    and the batch driver, followed by the properties of the specification
    that concern them.

    Python values are modelled by their declared types: [str] as [string]
    (a sequence of bytes), [int] as [Z] or [nat], [float] as the kernel's
    binary64 [float], [Optional[T]] as [option T], [Dict[str, T]] as
    [gmap string T].  Statements run in the monad [Py], which threads the
    interpreter state (pipeline object, clock, log, trace of collaborator
    calls) and keeps it when an exception is raised.

    The setup script (src/mtg_weaviate.py), which creates the collections
    and imports the rulebook, the rulings and the cards, is embedded after
    the pipeline: its schema, its string operations and its three import
    loops over a batch that records the objects added and the lines
    printed. *)

From Stdlib Require Import ZArith NArith PrimFloat FloatOps SpecFloat Ascii.
From stdpp Require Import base option list strings gmap pretty.
From Stdlib Require Import FloatAxioms.

Local Open Scope Z_scope.

(** ** Exceptions and outcomes *)

(** A raised [Exception]: its class name and [str(e)]. *)
Record exn := Exn { exn_class : string; exn_str : string }.

Inductive result (A : Type) : Type :=
| Ok (a : A)
| Raise (e : exn).
Arguments Ok {A} a.
Arguments Raise {A} e.

Definition KeyError (key : string) : exn := Exn "KeyError" ("'" +:+ key +:+ "'").
Definition IndexError : exn := Exn "IndexError" "list index out of range".
Definition AttributeError (attr : string) : exn :=
  Exn "AttributeError" ("'NoneType' object has no attribute '" +:+ attr +:+ "'").
Definition TypeError (msg : string) : exn := Exn "TypeError" msg.

Definition is_raise {A} (r : result A) : Prop :=
  match r with Ok _ => False | Raise _ => True end.

(** [d[key]] on a dict. *)
Definition getitem {V} (d : gmap string V) (key : string) : result V :=
  match d !! key with
  | Some v => Ok v
  | None => Raise (KeyError key)
  end.

(** [d.get(key, dflt)] on a dict. *)
Definition dict_get {V} (d : gmap string V) (key : string) (dflt : V) : V :=
  default dflt (d !! key).

(** Truth value of a [str] and of a [list]. *)
Definition str_truthy (s : string) : bool :=
  match s with EmptyString => false | String _ _ => true end.
Definition list_truthy {A} (l : list A) : bool :=
  match l with [] => false | _ :: _ => true end.

(** ** Strings *)

Definition newline : string := String "010"%char "".

(** [sep.join(parts)]. *)
Definition str_join (sep : string) (parts : list string) : string :=
  String.concat sep parts.

(** [needle in hay]. *)
Definition occurs_in (needle hay : string) : Prop :=
  ∃ pre post, hay = pre +:+ needle +:+ post.

Fixpoint char_in (c : ascii) (s : string) : bool :=
  match s with
  | EmptyString => false
  | String c' s' => if Ascii.eqb c c' then true else char_in c s'
  end.

Fixpoint containsb (needle hay : string) : bool :=
  if String.prefix needle hay then true
  else match hay with
       | EmptyString => false
       | String _ hay' => containsb needle hay'
       end.

Definition is_digit (c : ascii) : bool :=
  match Ascii.is_nat c with Some _ => true | None => false end.

Fixpoint digits_only (s : string) : bool :=
  match s with
  | EmptyString => true
  | String c s' => is_digit c && digits_only s'
  end.

(** ** Number formatting *)

(** [str(i)] and [f"{i}"] for an [int] that counts. *)
Definition str_of_nat (n : nat) : string := pretty n.

(** [format(x, ".3f")] on a float: the exact binary value is rounded to
    thousandths, ties to even, and printed with the sign of the float,
    the integer part, a point and three digits; [nan] and the infinities
    print by name. [thousandths m e] is the rounding of [m * 2^e * 1000]. *)
Definition thousandths (m : positive) (e : Z) : N :=
  match e with
  | Zneg p =>
      let num := (Npos m * 1000)%N in
      let den := (2 ^ Npos p)%N in
      let q := (num / den)%N in
      let r := (num mod den)%N in
      if (den <? 2 * r)%N then (q + 1)%N
      else if (2 * r =? den)%N && N.odd q then (q + 1)%N
      else q
  | _ => (Npos m * 2 ^ Z.to_N e * 1000)%N
  end.

Definition fixed3 (negative : bool) (n : N) : string :=
  (if negative then "-" else "") +:+ pretty (n / 1000)%N +:+ "." +:+
  String (pretty_N_char (n / 100 mod 10))
    (String (pretty_N_char (n / 10 mod 10))
       (String (pretty_N_char (n mod 10)) "")).

Definition format_3f (x : float) : string :=
  match Prim2SF x with
  | S754_nan => "nan"
  | S754_infinity negative => if negative then "-inf" else "inf"
  | S754_zero negative => fixed3 negative 0
  | S754_finite negative m e => fixed3 negative (thousandths m e)
  end.

(** A float that is neither [nan] nor an infinity. *)
Definition is_finite_float (x : float) : bool :=
  match Prim2SF x with
  | S754_nan | S754_infinity _ => false
  | _ => true
  end.

(** The shape [f"{x:.3f}"] has on a finite number: optional sign, a
    non-empty run of digits, a point, exactly three digits. *)
Definition three_decimals (s : string) : Prop :=
  ∃ sign whole d1 d2 d3,
    s = sign +:+ whole +:+ "." +:+ String d1 (String d2 (String d3 "")) ∧
    (sign = "" ∨ sign = "-") ∧
    whole ≠ "" ∧ digits_only whole = true ∧
    is_digit d1 = true ∧ is_digit d2 = true ∧ is_digit d3 = true.

(** Values a score attribute can hold when it is formatted. *)
Inductive score_value :=
| ScoreNone
| ScoreInt (z : nat)
| ScoreFloat (x : float).

(** [f"{score:.3f}"]. *)
Definition format_score (v : score_value) : result string :=
  match v with
  | ScoreNone =>
      Raise (TypeError "unsupported format string passed to NoneType.__format__")
  | ScoreInt z => Ok (fixed3 false (N.of_nat z * 1000))
  | ScoreFloat x => Ok (format_3f x)
  end.

(** ** The collaborators' data *)

(** What the search collaborator returns: [obj.properties] is a dict of
    the TEXT properties of the hit, [obj.metadata] carries the optional
    [score] and [distance]; [obj.metadata] itself may be [None], an object
    that has no attribute [score]. *)
Record MetadataReturn := {
  score : option float;
  distance : option float
}.

Record WObject := {
  properties : gmap string string;
  metadata : option MetadataReturn
}.

Record QueryReturn := { objects : list WObject }.

(** [rules_collection.query.near_text(query=.., limit=.., ..)] is made on
    the handle that [client.collections.get(name)] returned. *)
Record WeaviateClient := {
  collections_get : string → result string;
  near_text : string → string → Z → result QueryReturn
}.

(** The request of [chat.completions.create] and its response, reduced to
    [choices[k].message.content]. *)
Record ChatRequest := {
  req_model : string;
  req_system : string;
  req_user : string;
  req_temperature : float;
  req_max_tokens : Z
}.

Record ChatCompletion := { choices : list string }.

Record OpenAIClient := {
  chat_completions_create : ChatRequest → result ChatCompletion
}.

(** ** The pipeline object and the interpreter state *)

Record MTGRAGPipeline := {
  client : WeaviateClient;
  openai_client : OpenAIClient;
  model : string;
  collections : gmap string string
}.

(** [MTGRAGPipeline.__init__]; [openai.OpenAI(api_key=..)] is the handle
    [openai]. *)
Definition MTGRAGPipeline_init (weaviate_client : WeaviateClient)
    (openai : OpenAIClient) (model : option string) : MTGRAGPipeline :=
  {| client := weaviate_client;
     openai_client := openai;
     model := default "gpt-4" model;
     collections :=
       {[ "rules" := "MTGOfficialRules";
          "cards" := "MTGCards";
          "rulings" := "MTGRulings" ]} |}.

Inductive log_level := INFO | ERROR.

Inductive external_call :=
| CallCollectionsGet (name : string)
| CallNearText (handle query : string) (limit : Z)
| CallChatCreate (request : ChatRequest).

(** What a statement can read and change: the pipeline object [self], the
    clock ([st_clock n] is the text of its [n]-th reading, [st_tick] counts
    the readings made), the lines of the logger and the calls made to the
    collaborators. A collaborator answers as a function of the arguments
    of the call. *)
Record State := mkState {
  st_self : MTGRAGPipeline;
  st_clock : nat → string;
  st_tick : nat;
  st_log : list (log_level * string);
  st_calls : list external_call
}.

(** A statement: from a state to an outcome and the state it leaves. *)
Definition Py (A : Type) : Type := State → result A * State.

Definition ret {A} (a : A) : Py A := λ st, (Ok a, st).
Definition raise {A} (e : exn) : Py A := λ st, (Raise e, st).
Definition bind {A B} (m : Py A) (k : A → Py B) : Py B :=
  λ st, match m st with
        | (Ok a, st') => k a st'
        | (Raise e, st') => (Raise e, st')
        end.

(** [try: body / except Exception as e: handler e]. *)
Definition try_except {A} (body : Py A) (handler : exn → Py A) : Py A :=
  λ st, match body st with
        | (Ok a, st') => (Ok a, st')
        | (Raise e, st') => handler e st'
        end.

(** An expression that may raise but touches no state. *)
Definition lift {A} (r : result A) : Py A := λ st, (r, st).

Declare Scope py_scope.
Delimit Scope py_scope with py.
Notation "x <- m ;; k" := (bind m (λ x, k))
  (at level 100, m at next level, right associativity) : py_scope.
Notation "m ;; k" := (bind m (λ _, k))
  (at level 100, k at level 200, right associativity) : py_scope.
Local Open Scope py_scope.

Definition res_bind {A B} (r : result A) (k : A → result B) : result B :=
  match r with
  | Ok a => k a
  | Raise e => Raise e
  end.

(** [self]. *)
Definition get_self : Py MTGRAGPipeline := λ st, (Ok (st_self st), st).

(** [logger.info(msg)], [logger.error(msg)]. *)
Definition logger (level : log_level) (msg : string) : Py unit :=
  λ st, (Ok tt,
         {| st_self := st_self st; st_clock := st_clock st; st_tick := st_tick st;
            st_log := st_log st ++ [(level, msg)]; st_calls := st_calls st |}).

(** [datetime.now().isoformat()]. *)
Definition datetime_now_isoformat : Py string :=
  λ st, (Ok (st_clock st (st_tick st)),
         {| st_self := st_self st; st_clock := st_clock st; st_tick := S (st_tick st);
            st_log := st_log st; st_calls := st_calls st |}).

(** A call to a collaborator: recorded, then answered or failed. *)
Definition external {A} (call : external_call) (answer : result A) : Py A :=
  λ st, (answer,
         {| st_self := st_self st; st_clock := st_clock st; st_tick := st_tick st;
            st_log := st_log st; st_calls := st_calls st ++ [call] |}).

(** [for i, x in enumerate(xs, start): acc = body(i, x, acc)]. *)
Fixpoint for_enumerate {A T} (start : nat) (xs : list A)
    (body : nat → A → T → Py T) (acc : T) : Py T :=
  match xs with
  | [] => ret acc
  | x :: xs' => acc' <- body start x acc ;; for_enumerate (S start) xs' body acc'
  end.

(** ** Search results *)

Inductive Collection := Rules | Cards | Rulings.

(** The key of a collection in [self.collections], in [limits] and in the
    results; the same word appears in the log lines. *)
Definition key (c : Collection) : string :=
  match c with
  | Rules => "rules"
  | Cards => "cards"
  | Rulings => "rulings"
  end.

(** The dict under ["search_metadata"]; a field is [None] when its key is
    missing. *)
Record SearchMetadata := {
  md_query : option string;
  md_timestamp : option string;
  md_limits : option (gmap string Z);
  md_min_score : option float
}.

Record SearchResults := {
  rules : list WObject;
  cards : list WObject;
  rulings : list WObject;
  search_metadata : option SearchMetadata
}.

Definition results_of (c : Collection) (sr : SearchResults) : list WObject :=
  match c with
  | Rules => rules sr
  | Cards => cards sr
  | Rulings => rulings sr
  end.

(** [results[key] = objs]. *)
Definition set_results (c : Collection) (objs : list WObject)
    (sr : SearchResults) : SearchResults :=
  match c with
  | Rules => {| rules := objs; cards := cards sr; rulings := rulings sr;
                search_metadata := search_metadata sr |}
  | Cards => {| rules := rules sr; cards := objs; rulings := rulings sr;
                search_metadata := search_metadata sr |}
  | Rulings => {| rules := rules sr; cards := cards sr; rulings := objs;
                  search_metadata := search_metadata sr |}
  end.

(** ** [search_all_collections] *)

Definition default_limits : gmap string Z :=
  {[ "rules" := 3; "cards" := 3; "rulings" := 3 ]}.

(** The float literal [0.7]. *)
Definition default_min_score : float := 0x1.6666666666666p-1.

(** [obj.metadata.score >= min_score]. *)
Definition score_ge (obj : WObject) (min_score : float) : result bool :=
  match metadata obj with
  | None => Raise (AttributeError "score")
  | Some md =>
      match score md with
      | None =>
          Raise (TypeError
            "'>=' not supported between instances of 'NoneType' and 'float'")
      | Some s => Ok (PrimFloat.leb min_score s)
      end
  end.

(** [[obj for obj in objs if obj.metadata.score >= min_score]]. *)
Fixpoint filter_by_score (objs : list WObject) (min_score : float)
    : result (list WObject) :=
  match objs with
  | [] => Ok []
  | obj :: objs' =>
      res_bind (score_ge obj min_score) (λ keep,
      res_bind (filter_by_score objs' min_score) (λ kept,
      Ok (if keep then obj :: kept else kept)))
  end.

(** One of the three [try]/[except] blocks of [search_all_collections];
    they differ in the collection only. *)
Definition search_collection (c : Collection) (query_text : string)
    (limits : gmap string Z) (min_score : float) (results : SearchResults)
    : Py SearchResults :=
  try_except
    (self <- get_self ;;
     name <- lift (getitem (collections self) (key c)) ;;
     handle <- external (CallCollectionsGet name)
                 (collections_get (client self) name) ;;
     limit <- lift (getitem limits (key c)) ;;
     response <- external (CallNearText handle query_text limit)
                   (near_text (client self) handle query_text limit) ;;
     filtered <- lift (filter_by_score (objects response) min_score) ;;
     let results := set_results c filtered results in
     logger INFO ("Found " +:+ str_of_nat (length filtered) +:+ " relevant " +:+
                  key c +:+ " (from " +:+
                  str_of_nat (length (objects response)) +:+ " total)") ;;
     ret results)
    (λ e,
     logger ERROR ("Error searching " +:+ key c +:+ ": " +:+ exn_str e) ;;
     ret (set_results c [] results)).

(** An omitted [limits] or [min_score] is [None]. *)
Definition search_all_collections (query_text : string)
    (limits : option (gmap string Z)) (min_score : option float)
    : Py SearchResults :=
  let min_score := default default_min_score min_score in
  let limits :=
    match limits with
    | None => default_limits
    | Some limits => limits
    end in
  timestamp <- datetime_now_isoformat ;;
  let results :=
    {| rules := []; cards := []; rulings := [];
       search_metadata :=
         Some {| md_query := Some query_text;
                 md_timestamp := Some timestamp;
                 md_limits := Some limits;
                 md_min_score := Some min_score |} |} in
  logger INFO ("Searching all collections for: '" +:+ query_text +:+ "'") ;;
  results <- search_collection Rules query_text limits min_score results ;;
  results <- search_collection Cards query_text limits min_score results ;;
  results <- search_collection Rulings query_text limits min_score results ;;
  ret results.

(** ** [format_context_for_llm] *)

(** [getattr(obj.metadata, 'score', 0)]. *)
Definition getattr_score (md : option MetadataReturn) : score_value :=
  match md with
  | None => ScoreInt 0
  | Some m =>
      match score m with
      | None => ScoreNone
      | Some x => ScoreFloat x
      end
  end.

(** The body of the loop over [search_results["rules"]]: the line it
    appends. *)
Definition rule_entry (i : nat) (obj : WObject) : result string :=
  let rule_text := dict_get (properties obj) "rule" "" in
  let score := getattr_score (metadata obj) in
  res_bind (format_score score) (λ shown,
  Ok (str_of_nat i +:+ ". [Score: " +:+ shown +:+ "] " +:+ rule_text)).

(** The body of the loop over [search_results["cards"]]. *)
Definition card_entry (i : nat) (obj : WObject) : result string :=
  let name := dict_get (properties obj) "name" "Unknown Card" in
  let text := dict_get (properties obj) "text" "" in
  let card_type := dict_get (properties obj) "type" "" in
  let manacost := dict_get (properties obj) "manacost" "" in
  let power := dict_get (properties obj) "power" "" in
  let toughness := dict_get (properties obj) "toughness" "" in
  let score := getattr_score (metadata obj) in
  res_bind (format_score score) (λ shown,
  let card_info := str_of_nat i +:+ ". [Score: " +:+ shown +:+ "] " +:+ name in
  let card_info :=
    if str_truthy manacost then card_info +:+ " " +:+ manacost else card_info in
  let card_info :=
    if str_truthy card_type then card_info +:+ " - " +:+ card_type
    else card_info in
  let card_info :=
    if str_truthy power && str_truthy toughness
    then card_info +:+ " (" +:+ power +:+ "/" +:+ toughness +:+ ")"
    else card_info in
  let card_info :=
    if str_truthy text then card_info +:+ newline +:+ "   Text: " +:+ text
    else card_info in
  Ok card_info).

(** The body of the loop over [search_results["rulings"]]. *)
Definition ruling_entry (i : nat) (obj : WObject) : result string :=
  let name := dict_get (properties obj) "name" "Unknown Card" in
  let ruling := dict_get (properties obj) "rulings" "" in
  let ruling_date := dict_get (properties obj) "ruling_date" "" in
  let source := dict_get (properties obj) "source" "" in
  let score := getattr_score (metadata obj) in
  res_bind (format_score score) (λ shown,
  let ruling_info := str_of_nat i +:+ ". [Score: " +:+ shown +:+ "] " +:+ name in
  let ruling_info :=
    if str_truthy ruling_date then ruling_info +:+ " (" +:+ ruling_date +:+ ")"
    else ruling_info in
  let ruling_info :=
    if str_truthy source then ruling_info +:+ " - Source: " +:+ source
    else ruling_info in
  let ruling_info := ruling_info +:+ newline +:+ "   Ruling: " +:+ ruling in
  Ok ruling_info).

Definition entry (c : Collection) : nat → WObject → result string :=
  match c with
  | Rules => rule_entry
  | Cards => card_entry
  | Rulings => ruling_entry
  end.

Definition header (c : Collection) : string :=
  match c with
  | Rules => "=== OFFICIAL RULES ==="
  | Cards => "=== RELEVANT CARDS ==="
  | Rulings => "=== OFFICIAL RULINGS ==="
  end.

(** [if search_results[key]:] with its header line, its loop and its
    closing empty line; [context_parts] is passed through. *)
Definition add_section (c : Collection) (search_results : SearchResults)
    (context_parts : list string) : Py (list string) :=
  if list_truthy (results_of c search_results) then
    let context_parts := context_parts ++ [header c] in
    context_parts <-
      for_enumerate 1 (results_of c search_results)
        (λ i obj context_parts,
           line <- lift (entry c i obj) ;;
           ret (context_parts ++ [line]))
        context_parts ;;
    ret (context_parts ++ [""])
  else ret context_parts.

(** The list [context_parts] as it stands before the final join. *)
Definition build_context_parts (search_results : SearchResults)
    : Py (list string) :=
  let context_parts := [] in
  let query :=
    match search_metadata search_results with
    | Some metadata => default "Unknown" (md_query metadata)
    | None => "Unknown"
    end in
  let timestamp :=
    match search_metadata search_results with
    | Some metadata => default "Unknown" (md_timestamp metadata)
    | None => "Unknown"
    end in
  let context_parts := context_parts ++ ["SEARCH QUERY: " +:+ query] in
  let context_parts := context_parts ++ ["SEARCH TIMESTAMP: " +:+ timestamp] in
  let context_parts := context_parts ++ [""] in
  context_parts <- add_section Rules search_results context_parts ;;
  context_parts <- add_section Cards search_results context_parts ;;
  context_parts <- add_section Rulings search_results context_parts ;;
  ret context_parts.

Definition format_context_for_llm (search_results : SearchResults) : Py string :=
  context_parts <- build_context_parts search_results ;;
  ret (str_join newline context_parts).

(** ** [generate_answer] *)

(** The triple-quoted [system_prompt], line by line. *)
Definition system_prompt : string :=
  str_join newline
    [ "You are an expert Magic: The Gathering judge with comprehensive knowledge of the game rules, cards, and official rulings. ";
      "";
      "Your responsibilities:";
      "1. Provide accurate, rule-based answers using the official context provided";
      "2. Cite specific rules, cards, or rulings when relevant";
      "3. Explain complex interactions clearly and step-by-step";
      "4. If the provided context doesn't fully answer the question, clearly state what information is missing";
      "5. Always prioritize official rules over card text when there are conflicts";
      "6. Use proper MTG terminology";
      "";
      "Answer format guidelines:";
      "- Start with a direct answer to the question";
      "- Provide detailed explanation with rule citations";
      "- Include relevant card interactions if applicable";
      "- End with any important caveats or edge cases" ].

(** The f-string [user_prompt], line by line. *)
Definition user_prompt (question context : string) : string :=
  str_join newline
    [ "Based on the following official Magic: The Gathering information, please answer this question:";
      "";
      "QUESTION: " +:+ question;
      "";
      "OFFICIAL CONTEXT:";
      context;
      "";
      "Please provide a comprehensive answer using the official information provided above." ].

(** The float literal [0.1]. *)
Definition default_temperature : float := 0x1.999999999999ap-4.

Definition max_tokens : Z := 1000.

(** The request [generate_answer] submits. *)
Definition chat_request (self : MTGRAGPipeline) (question context : string)
    (temperature : float) : ChatRequest :=
  {| req_model := model self;
     req_system := system_prompt;
     req_user := user_prompt question context;
     req_temperature := temperature;
     req_max_tokens := max_tokens |}.

(** An omitted [temperature] is [None]. *)
Definition generate_answer (question context : string)
    (temperature : option float) : Py string :=
  let temperature := default default_temperature temperature in
  try_except
    (self <- get_self ;;
     let request := chat_request self question context temperature in
     response <- external (CallChatCreate request)
                   (chat_completions_create (openai_client self) request) ;;
     lift (match choices response with
           | content :: _ => Ok content
           | [] => Raise IndexError
           end))
    (λ e,
     logger ERROR ("Error generating answer: " +:+ exn_str e) ;;
     ret ("I encountered an error while generating the answer: " +:+ exn_str e)).

(** ** [answer_question] *)

Record SourcesFound := {
  src_rules : nat;
  src_cards : nat;
  src_rulings : nat
}.

Record SearchParams := {
  sp_limits : option (gmap string Z);
  sp_min_score : float;
  sp_temperature : float
}.

Record DebugInfo := {
  dbg_search_results : SearchResults;
  dbg_formatted_context : string;
  dbg_search_params : SearchParams
}.

(** The dict a question is answered with; a field is [None] when its key
    is not set. *)
Record AnswerRecord := {
  ar_question : string;
  ar_answer : string;
  ar_timestamp : option string;
  ar_sources_found : option SourcesFound;
  ar_debug : option DebugInfo;
  ar_error : option bool
}.

(** [str(result['sources_found'])]. *)
Definition str_of_sources (s : SourcesFound) : string :=
  "{'rules': " +:+ str_of_nat (src_rules s) +:+
  ", 'cards': " +:+ str_of_nat (src_cards s) +:+
  ", 'rulings': " +:+ str_of_nat (src_rulings s) +:+ "}".

Definition answer_question (question : string)
    (limits : option (gmap string Z)) (min_score temperature : option float)
    (include_debug : option bool) : Py AnswerRecord :=
  let min_score := default default_min_score min_score in
  let temperature := default default_temperature temperature in
  let include_debug := default false include_debug in
  logger INFO ("Processing question: '" +:+ question +:+ "'") ;;
  search_results <- search_all_collections question limits (Some min_score) ;;
  context <- format_context_for_llm search_results ;;
  answer <- generate_answer question context (Some temperature) ;;
  timestamp <- datetime_now_isoformat ;;
  let sources_found :=
    {| src_rules := length (rules search_results);
       src_cards := length (cards search_results);
       src_rulings := length (rulings search_results) |} in
  let debug :=
    if include_debug then
      Some {| dbg_search_results := search_results;
              dbg_formatted_context := context;
              dbg_search_params :=
                {| sp_limits := limits;
                   sp_min_score := min_score;
                   sp_temperature := temperature |} |}
    else None in
  let result :=
    {| ar_question := question;
       ar_answer := answer;
       ar_timestamp := Some timestamp;
       ar_sources_found := Some sources_found;
       ar_debug := debug;
       ar_error := None |} in
  logger INFO ("Answer generated successfully. Sources: " +:+
               str_of_sources sources_found) ;;
  ret result.

(** ** [batch_answer_questions] *)

(** The keyword arguments forwarded to [answer_question]. *)
Record Kwargs := {
  kw_limits : option (gmap string Z);
  kw_min_score : option float;
  kw_temperature : option float;
  kw_include_debug : option bool
}.

Definition error_record (question : string) (e : exn) : AnswerRecord :=
  {| ar_question := question;
     ar_answer := "Error processing question: " +:+ exn_str e;
     ar_timestamp := None;
     ar_sources_found := None;
     ar_debug := None;
     ar_error := Some true |}.

(** One turn of the loop of [batch_answer_questions], for the [i]-th
    question of [total]. [answer_question_method] is what the attribute
    [self.answer_question] is bound to: it is looked up on the instance at
    each call. *)
Definition batch_turn
    (answer_question_method : string → Kwargs → Py AnswerRecord)
    (kwargs : Kwargs) (total : nat) (i : nat) (question : string)
    (results : list AnswerRecord) : Py (list AnswerRecord) :=
  logger INFO ("Processing question " +:+ str_of_nat i +:+ "/" +:+
               str_of_nat total) ;;
  try_except
    (result <- answer_question_method question kwargs ;;
     ret (results ++ [result]))
    (λ e,
     logger ERROR ("Error processing question " +:+ str_of_nat i +:+
                   ": " +:+ exn_str e) ;;
     ret (results ++ [error_record question e])).

Definition batch_answer_questions
    (answer_question_method : string → Kwargs → Py AnswerRecord)
    (questions : list string) (kwargs : Kwargs) : Py (list AnswerRecord) :=
  let results := [] in
  for_enumerate 1 questions
    (batch_turn answer_question_method kwargs (length questions)) results.

(** [self.answer_question(question, **kwargs)] on an instance whose
    method is the one of the class. *)
Definition call_answer_question (question : string) (kwargs : Kwargs)
    : Py AnswerRecord :=
  answer_question question (kw_limits kwargs) (kw_min_score kwargs)
    (kw_temperature kwargs) (kw_include_debug kwargs).

(** [batch_answer_questions] on such an instance. *)
Definition MTGRAGPipeline_batch_answer_questions (questions : list string)
    (kwargs : Kwargs) : Py (list AnswerRecord) :=
  batch_answer_questions call_answer_question questions kwargs.

(** * Vocabulary of the properties *)

(** ** Scores *)

(** A result whose score is a number that can be shown in decimals: its
    metadata hold a score that is a finite float; a result without
    metadata counts, its score being taken as 0. *)
Definition finite_score (obj : WObject) : Prop :=
  match metadata obj with
  | None => True
  | Some md => ∃ s, score md = Some s ∧ is_finite_float s = true
  end.

(** [n] is the whole number nearest to [1000 * m * 2^e], and the even one
    of the two when they are equally near: twice the gap between
    [1000 * m * 2^e] and [n], cleared of the denominator, is at most the
    denominator. *)
Definition nearest_thousandth (m : positive) (e : Z) (n : N) : Prop :=
  let num := 1000 * Z.pos m * 2 ^ Z.max 0 e in
  let den := 2 ^ Z.max 0 (- e) in
  let twice_gap := 2 * Z.abs (num - Z.of_N n * den) in
  twice_gap ≤ den ∧ (twice_gap = den → N.even n = true).

(** [shown] is the numeral of [n] thousandths: the sign, the whole part in
    decimal, a point and the three digits of the thousandths. *)
Definition shows_thousandths (negative : bool) (n : N) (shown : string) : Prop :=
  ∃ whole d1 d2 d3 : N,
    (d1 < 10 ∧ d2 < 10 ∧ d3 < 10)%N ∧
    n = (whole * 1000 + d1 * 100 + d2 * 10 + d3)%N ∧
    shown =
      (if negative then "-" else "") +:+ pretty whole +:+ "." +:+
      String (pretty_N_char d1) (String (pretty_N_char d2)
        (String (pretty_N_char d3) "")).

(** [shown] shows the score of the result to three decimal places: it is
    the numeral of the thousandth nearest to the score that the metadata
    of the result hold, with the sign of that score; for a result without
    metadata it is the numeral of 0. *)
Definition score_shown (obj : WObject) (shown : string) : Prop :=
  match metadata obj with
  | None => shows_thousandths false 0 shown
  | Some md =>
      ∃ s, score md = Some s ∧
        match Prim2SF s with
        | S754_zero negative => shows_thousandths negative 0 shown
        | S754_finite negative m e =>
            ∃ n, nearest_thousandth m e n ∧ shows_thousandths negative n shown
        | S754_nan | S754_infinity _ => False
        end
  end.

(** ** Statements that leave the state alone *)

(** [stateless m r]: in every state, [m] yields [r] and changes nothing. *)
Definition stateless {A} (m : Py A) (r : result A) : Prop :=
  ∀ st, m st = (r, st).

(** The lines of a numbered listing: [g i x] for the [i]-th element,
    counting from [start]; the first line that cannot be built is the
    outcome. *)
Fixpoint entries {A} (g : nat → A → result string) (start : nat) (xs : list A)
    : result (list string) :=
  match xs with
  | [] => Ok []
  | x :: xs' =>
      res_bind (g start x) (λ line,
      res_bind (entries g (S start) xs') (λ lines, Ok (line :: lines)))
  end.

(** ** The context, part by part *)

Definition query_shown (sr : SearchResults) : string :=
  match search_metadata sr with
  | Some metadata => default "Unknown" (md_query metadata)
  | None => "Unknown"
  end.

Definition timestamp_shown (sr : SearchResults) : string :=
  match search_metadata sr with
  | Some metadata => default "Unknown" (md_timestamp metadata)
  | None => "Unknown"
  end.

(** The metadata header: query, timestamp, an empty line. *)
Definition heading (sr : SearchResults) : list string :=
  [ "SEARCH QUERY: " +:+ query_shown sr;
    "SEARCH TIMESTAMP: " +:+ timestamp_shown sr;
    "" ].

(** A section: nothing for no lines, else the header of the collection,
    the lines and an empty line. *)
Definition section (c : Collection) (lines : list string) : list string :=
  match lines with
  | [] => []
  | _ :: _ => header c :: lines ++ [""]
  end.

Definition section_of (c : Collection) (sr : SearchResults) : result (list string) :=
  res_bind (entries (entry c) 1 (results_of c sr)) (λ lines, Ok (section c lines)).

(** The parts of the context: the heading, then the sections of the rules,
    of the cards and of the rulings. *)
Definition expected_parts (sr : SearchResults) : result (list string) :=
  res_bind (section_of Rules sr) (λ s1,
  res_bind (section_of Cards sr) (λ s2,
  res_bind (section_of Rulings sr) (λ s3,
  Ok (heading sr ++ s1 ++ s2 ++ s3)))).

Definition expected_context (sr : SearchResults) : result string :=
  res_bind (expected_parts sr) (λ parts, Ok (str_join newline parts)).

(** ** The entries, field by field *)

(** What a field that may be left out contributes: its lead, its value
    and its trail, or nothing when the value is empty or missing. *)
Definition optional_part (lead value trail : string) : string :=
  if str_truthy value then lead +:+ value +:+ trail else "".

Definition entry_head (i : nat) (shown : string) : string :=
  str_of_nat i +:+ ". [Score: " +:+ shown +:+ "] ".

Definition rule_part (p : gmap string string) : string :=
  dict_get p "rule" "".
Definition name_part (p : gmap string string) : string :=
  dict_get p "name" "Unknown Card".
Definition mana_part (p : gmap string string) : string :=
  optional_part " " (dict_get p "manacost" "") "".
Definition type_part (p : gmap string string) : string :=
  optional_part " - " (dict_get p "type" "") "".
Definition power_toughness_part (p : gmap string string) : string :=
  if str_truthy (dict_get p "power" "") && str_truthy (dict_get p "toughness" "")
  then " (" +:+ dict_get p "power" "" +:+ "/" +:+ dict_get p "toughness" "" +:+ ")"
  else "".
Definition text_part (p : gmap string string) : string :=
  optional_part (newline +:+ "   Text: ") (dict_get p "text" "") "".
Definition date_part (p : gmap string string) : string :=
  optional_part " (" (dict_get p "ruling_date" "") ")".
Definition source_part (p : gmap string string) : string :=
  optional_part " - Source: " (dict_get p "source" "") "".
Definition ruling_part (p : gmap string string) : string :=
  newline +:+ "   Ruling: " +:+ dict_get p "rulings" "".

(** What follows the number and the score in an entry. *)
Definition entry_body (c : Collection) (p : gmap string string) : string :=
  match c with
  | Rules => rule_part p
  | Cards =>
      name_part p +:+ mana_part p +:+ type_part p +:+
      power_toughness_part p +:+ text_part p
  | Rulings =>
      name_part p +:+ date_part p +:+ source_part p +:+ ruling_part p
  end.

(** ** The listing of a collection *)

(** [lines] lists [objs]: one line per object, in the same order, the
    [k]-th numbered [k + 1] and showing the score of the object with
    three decimals. *)
Definition listing (c : Collection) (objs : list WObject) (lines : list string)
    : Prop :=
  length lines = length objs ∧
  ∀ k obj, objs !! k = Some obj →
    ∃ shown,
      lines !! k = Some (entry_head (S k) shown +:+ entry_body c (properties obj)) ∧
      score_shown obj shown ∧
      three_decimals shown.

(** ** Section headers *)

(** Where a part of the context comes from. *)
Inductive part_origin (sr : SearchResults) (p : string) : Prop :=
| from_query : p = "SEARCH QUERY: " +:+ query_shown sr → part_origin sr p
| from_timestamp : p = "SEARCH TIMESTAMP: " +:+ timestamp_shown sr → part_origin sr p
| from_blank : p = "" → part_origin sr p
| from_header c : results_of c sr ≠ [] → p = header c → part_origin sr p
| from_entry c k obj :
    results_of c sr !! k = Some obj → entry c (S k) obj = Ok p → part_origin sr p.

(** ** The key of the mana cost *)

(** The same result with [cost] stored under the key [manaCost], the name
    the cards collection gives the property. *)
Definition with_manaCost (cost : string) (obj : WObject) : WObject :=
  {| properties := <["manaCost" := cost]> (properties obj);
     metadata := metadata obj |}.

Definition recost_cards (f : WObject → string) (sr : SearchResults)
    : SearchResults :=
  {| rules := rules sr;
     cards := (λ obj, with_manaCost (f obj) obj) <$> cards sr;
     rulings := rulings sr;
     search_metadata := search_metadata sr |}.

(** ** The search, collection by collection *)

(** What the search collaborator answers for a collection: the outcome of
    the calls in the [try] block, up to the response of [near_text]. *)
Definition search_reply (self : MTGRAGPipeline) (c : Collection)
    (query_text : string) (limits : gmap string Z) : result QueryReturn :=
  res_bind (getitem (collections self) (key c)) (λ name,
  res_bind (collections_get (client self) name) (λ handle,
  res_bind (getitem limits (key c)) (λ limit,
  near_text (client self) handle query_text limit))).

(** The candidates of a reply; a failed search returns none. *)
Definition candidates (reply : result QueryReturn) : list WObject :=
  match reply with
  | Ok response => objects response
  | Raise _ => []
  end.

(** The calls the block makes to the collaborator. *)
Definition search_calls (self : MTGRAGPipeline) (c : Collection)
    (query_text : string) (limits : gmap string Z) : list external_call :=
  match getitem (collections self) (key c) with
  | Raise _ => []
  | Ok name =>
      CallCollectionsGet name ::
      match collections_get (client self) name with
      | Raise _ => []
      | Ok handle =>
          match getitem limits (key c) with
          | Raise _ => []
          | Ok limit => [CallNearText handle query_text limit]
          end
      end
  end.

(** The list the block leaves under the key of the collection. *)
Definition retained (reply : result QueryReturn) (min_score : float)
    : list WObject :=
  match res_bind reply (λ response, filter_by_score (objects response) min_score) with
  | Ok kept => kept
  | Raise _ => []
  end.

(** The test of the filter on an object that has a score. *)
Definition meets_min_score (min_score : float) (obj : WObject) : bool :=
  match metadata obj with
  | Some md =>
      match score md with
      | Some s => PrimFloat.leb min_score s
      | None => false
      end
  | None => false
  end.

Definition has_score (obj : WObject) : Prop :=
  ∃ md s, metadata obj = Some md ∧ score md = Some s.

(** ** Runs of the search *)

(** The state after more ticks of the clock, more log lines and more
    collaborator calls; the pipeline object is the same. *)
Definition extend (st : State) (ticks : nat) (log : list (log_level * string))
    (calls : list external_call) : State :=
  {| st_self := st_self st;
     st_clock := st_clock st;
     st_tick := ticks + st_tick st;
     st_log := st_log st ++ log;
     st_calls := st_calls st ++ calls |}.

(** The limits and the threshold in force. *)
Definition limits_in_force (limits : option (gmap string Z)) : gmap string Z :=
  default default_limits limits.
Definition min_score_in_force (min_score : option float) : float :=
  default default_min_score min_score.

(** The results of a search, from the replies of the collaborator. *)
Definition searched (self : MTGRAGPipeline) (query_text timestamp : string)
    (limits : gmap string Z) (min_score : float) : SearchResults :=
  {| rules := retained (search_reply self Rules query_text limits) min_score;
     cards := retained (search_reply self Cards query_text limits) min_score;
     rulings := retained (search_reply self Rulings query_text limits) min_score;
     search_metadata :=
       Some {| md_query := Some query_text;
               md_timestamp := Some timestamp;
               md_limits := Some limits;
               md_min_score := Some min_score |} |}.

(** ** Runs of the generation and of the pipeline *)

Definition temperature_in_force (temperature : option float) : float :=
  default default_temperature temperature.

(** What [generate_answer] returns on a reply of the collaborator. *)
Definition generated (reply : result ChatCompletion) : string :=
  match reply with
  | Ok response =>
      match choices response with
      | content :: _ => content
      | [] =>
          "I encountered an error while generating the answer: " +:+
          exn_str IndexError
      end
  | Raise e => "I encountered an error while generating the answer: " +:+ exn_str e
  end.

(** ** The batch *)

(** The record the batch holds for a question: the one its call returned
    in the state of its turn, or the error record of the exception it
    raised there. *)
Definition batch_record
    (answer_question_method : string → Kwargs → Py AnswerRecord)
    (kwargs : Kwargs) (question : string) (record : AnswerRecord) : Prop :=
  ∃ st_call,
    match fst (answer_question_method question kwargs st_call) with
    | Ok result => record = result
    | Raise e => record = error_record question e
    end.

(** * Stub collaborators *)

(** A hit with the given properties and score. *)
Definition stub_object (props : gmap string string) (s : float) : WObject :=
  {| properties := props;
     metadata := Some {| score := Some s; distance := None |} |}.

Definition trample_rule : WObject :=
  stub_object {[ "rule" := "702.19. Trample" ]} 0x1.ccccccccccccdp-1.

Definition dreadmaw_card : WObject :=
  stub_object
    (<["name" := "Colossal Dreadmaw"]> (<["manaCost" := "4GG"]>
       (<["type" := "Creature"]> (<["power" := "6"]>
          (<["toughness" := "6"]> {[ "text" := "Trample" ]})))))
    0.5.

(** One rules hit at score 0.9, one cards hit at score 0.5, and a rulings
    collection whose search fails. *)
Definition stub_client : WeaviateClient :=
  {| collections_get := λ name, Ok name;
     near_text := λ handle query limit,
       if String.eqb handle "MTGOfficialRules" then Ok {| objects := [trample_rule] |}
       else if String.eqb handle "MTGCards" then Ok {| objects := [dreadmaw_card] |}
       else Raise (Exn "WeaviateQueryError" "query timed out") |}.

Definition stub_openai : OpenAIClient :=
  {| chat_completions_create := λ request,
       Ok {| choices := ["Excess damage is dealt to the player."] |} |}.

Definition failing_openai : OpenAIClient :=
  {| chat_completions_create := λ request,
       Raise (Exn "RateLimitError" "quota exceeded") |}.

(** A generation collaborator that fails on the requests about trample
    and answers the others. *)
Definition selective_openai : OpenAIClient :=
  {| chat_completions_create := λ request,
       if containsb "trample" (req_user request)
       then Raise (Exn "RateLimitError" "quota exceeded")
       else Ok {| choices := ["It can be blocked only by flying or reach."] |} |}.

Definition stub_state_with (openai : OpenAIClient) : State :=
  {| st_self := MTGRAGPipeline_init stub_client openai None;
     st_clock := λ n, "2024-01-01T00:00:0" +:+ str_of_nat n;
     st_tick := 0;
     st_log := [];
     st_calls := [] |}.

Definition stub_state : State := stub_state_with stub_openai.

Definition stub_limits : gmap string Z :=
  {[ "rules" := 2; "cards" := 1; "rulings" := 1 ]}.

Definition stub_metadata (query_text : string) : option SearchMetadata :=
  Some {| md_query := Some query_text;
          md_timestamp := Some "2024-01-01T00:00:00";
          md_limits := Some stub_limits;
          md_min_score := Some default_min_score |}.

(** The results of the search above at threshold 0.7. *)
Definition trample_results : SearchResults :=
  {| rules := [trample_rule]; cards := []; rulings := [];
     search_metadata := stub_metadata "How does trample work?" |}.

Definition trample_parts : list string :=
  [ "SEARCH QUERY: How does trample work?";
    "SEARCH TIMESTAMP: 2024-01-01T00:00:00";
    "";
    "=== OFFICIAL RULES ===";
    "1. [Score: 0.900] 702.19. Trample";
    "" ].

(** The header of an empty collection, as text of the query. *)
Definition header_query_results : SearchResults :=
  {| rules := []; cards := []; rulings := [];
     search_metadata := stub_metadata "=== OFFICIAL RULES ===" |}.

(** A ruling without properties. *)
Definition bare_ruling : WObject := stub_object ∅ 0x1.ccccccccccccdp-1.

Definition bare_ruling_results : SearchResults :=
  {| rules := []; cards := []; rulings := [bare_ruling];
     search_metadata := stub_metadata "protection" |}.

(** The rule of the example with other metadata: a score that is [None],
    one that is not a number, one that is infinite. *)
Definition unscored_rule : WObject :=
  {| properties := {[ "rule" := "702.19. Trample" ]};
     metadata := Some {| score := None; distance := None |} |}.

Definition nan_rule : WObject :=
  stub_object {[ "rule" := "702.19. Trample" ]} nan.

Definition infinite_rule : WObject :=
  stub_object {[ "rule" := "702.19. Trample" ]} infinity.

Definition one_rule_results (obj : WObject) : SearchResults :=
  {| rules := [obj]; cards := []; rulings := [];
     search_metadata := stub_metadata "How does trample work?" |}.

(** A stand-in for [answer_question] that fails on one question. *)
Definition flaky_answer_question (question : string) (kwargs : Kwargs)
    : Py AnswerRecord :=
  if String.eqb question "second" then raise (Exn "RuntimeError" "boom")
  else call_answer_question question kwargs.

Definition no_kwargs : Kwargs :=
  {| kw_limits := None; kw_min_score := None; kw_temperature := None;
     kw_include_debug := None |}.

(** * Vocabulary of the further properties *)

(** ** The log and the calls of a search *)

(** The line a block of the search logs: the count of what it found, or
    the exception that ended it. *)
Definition search_log_line (self : MTGRAGPipeline) (c : Collection)
    (query_text : string) (limits : gmap string Z) (min_score : float)
    : log_level * string :=
  match search_reply self c query_text limits with
  | Ok response =>
      match filter_by_score (objects response) min_score with
      | Ok kept =>
          (INFO, "Found " +:+ str_of_nat (length kept) +:+ " relevant " +:+
                 key c +:+ " (from " +:+
                 str_of_nat (length (objects response)) +:+ " total)")
      | Raise e => (ERROR, "Error searching " +:+ key c +:+ ": " +:+ exn_str e)
      end
  | Raise e => (ERROR, "Error searching " +:+ key c +:+ ": " +:+ exn_str e)
  end.

(** The lines and the calls of a whole search. *)
Definition search_log (self : MTGRAGPipeline) (query_text : string)
    (limits : gmap string Z) (min_score : float) : list (log_level * string) :=
  [ (INFO, "Searching all collections for: '" +:+ query_text +:+ "'");
    search_log_line self Rules query_text limits min_score;
    search_log_line self Cards query_text limits min_score;
    search_log_line self Rulings query_text limits min_score ].

Definition all_search_calls (self : MTGRAGPipeline) (query_text : string)
    (limits : gmap string Z) : list external_call :=
  search_calls self Rules query_text limits ++
  search_calls self Cards query_text limits ++
  search_calls self Rulings query_text limits.

(** ** Edges of the formatter *)

(** The one exception the formatter can raise. *)
Definition score_format_error : exn :=
  TypeError "unsupported format string passed to NoneType.__format__".

(** A result whose score cannot be shown: it has metadata, and the score
    in it is [None]. *)
Definition score_is_none (obj : WObject) : Prop :=
  ∃ md, metadata obj = Some md ∧ score md = None.

(** ** The properties the formatter reads *)

(** The keys the entry of a collection looks up. *)
Definition read_keys (c : Collection) : list string :=
  match c with
  | Rules => ["rule"]
  | Cards => ["name"; "text"; "type"; "manacost"; "power"; "toughness"]
  | Rulings => ["name"; "rulings"; "ruling_date"; "source"]
  end.

(** The same result with [value] stored under [k], and with nothing stored
    under [k]. *)
Definition with_property (k value : string) (obj : WObject) : WObject :=
  {| properties := <[k := value]> (properties obj); metadata := metadata obj |}.
Definition without_property (k : string) (obj : WObject) : WObject :=
  {| properties := delete k (properties obj); metadata := metadata obj |}.

(** ** The log and the calls of the generation and of the pipeline *)

(** What [generate_answer] logs on a reply of the collaborator. *)
Definition generate_log (reply : result ChatCompletion)
    : list (log_level * string) :=
  match reply with
  | Ok response =>
      match choices response with
      | _ :: _ => []
      | [] => [(ERROR, "Error generating answer: " +:+ exn_str IndexError)]
      end
  | Raise e => [(ERROR, "Error generating answer: " +:+ exn_str e)]
  end.

(** The record [answer_question] returns. *)
Definition answered (self : MTGRAGPipeline) (question : string)
    (limits : option (gmap string Z)) (min_score temperature : float)
    (include_debug : bool) (sr : SearchResults) (context timestamp : string)
    : AnswerRecord :=
  {| ar_question := question;
     ar_answer :=
       generated (chat_completions_create (openai_client self)
                    (chat_request self question context temperature));
     ar_timestamp := Some timestamp;
     ar_sources_found :=
       Some {| src_rules := length (rules sr);
               src_cards := length (cards sr);
               src_rulings := length (rulings sr) |};
     ar_debug :=
       if include_debug then
         Some {| dbg_search_results := sr;
                 dbg_formatted_context := context;
                 dbg_search_params :=
                   {| sp_limits := limits;
                      sp_min_score := min_score;
                      sp_temperature := temperature |} |}
       else None;
     ar_error := None |}.

Definition source_count (c : Collection) (s : SourcesFound) : nat :=
  match c with
  | Rules => src_rules s
  | Cards => src_cards s
  | Rulings => src_rulings s
  end.

(** ** The batch of the class *)

(** The facts of a record that the batch of the class holds for [question],
    answered at the reading [tick] of the clock. *)
Definition answered_at (self : MTGRAGPipeline) (clock : nat → string)
    (kwargs : Kwargs) (question : string) (tick : nat) (record : AnswerRecord)
    : Prop :=
  ar_question record = question ∧
  ar_error record = None ∧
  is_Some (ar_sources_found record) ∧
  ar_timestamp record = Some (clock (S tick)) ∧
  ∀ st_alone,
    st_self st_alone = self → st_clock st_alone = clock →
    st_tick st_alone = tick →
    fst (call_answer_question question kwargs st_alone) = Ok record.

(** * The setup script (src/mtg_weaviate.py) *)

(** ** The strings of the script *)

(** The separator of [rulebook_text.split("\n\n")]. *)
Definition blank_line : string := String "010"%char (String "010"%char "").

(** Puts a character in front of the first chunk. *)
Definition cons_head (a : ascii) (chunks : list string) : list string :=
  match chunks with
  | chunk :: rest => String a chunk :: rest
  | [] => [String a ""]
  end.

(** [text.split("\n\n")]: the text is cut at each blank line, found from
    left to right; the chunks are what lies between the cuts. *)
Fixpoint split_blank_lines (text : string) : list string :=
  match text with
  | EmptyString => [""]
  | String a text' =>
      match text' with
      | String b text'' =>
          if Ascii.eqb a "010" && Ascii.eqb b "010"
          then "" :: split_blank_lines text''
          else cons_head a (split_blank_lines text')
      | EmptyString => cons_head a (split_blank_lines text')
      end
  end.

(** [s.replace(c, "")] for a single character [c]. *)
Fixpoint remove_char (c : ascii) (s : string) : string :=
  match s with
  | EmptyString => ""
  | String a s' =>
      if Ascii.eqb a c then remove_char c s' else String a (remove_char c s')
  end.

Definition double_quote : ascii := "034"%char.
Definition single_quote : ascii := "039"%char.

(** ** The collections and the imports *)

Inductive data_type := TEXT | TEXT_ARRAY.

(** The three calls of [client.collections.create]: the name and the
    properties of each collection. *)
Definition created_collections : list (string * list (string * data_type)) :=
  [ ("MTGOfficialRules3",
     [("rule", TEXT); ("rule_number", TEXT); ("section", TEXT)]);
    ("MTGRulings3",
     [("name", TEXT); ("rulings", TEXT)]);
    ("MTGCards3",
     [("name", TEXT); ("manaCost", TEXT); ("type", TEXT); ("text", TEXT);
      ("power", TEXT); ("toughness", TEXT); ("colors", TEXT_ARRAY)]) ].

(** A value of the [properties] of an object that is added. *)
Inductive prop_value :=
| PText (s : string)
| PTextArray (l : list string).

(** The JSON object of a ruling and of a card in [AtomicCards.json]; a
    field is [None] when its key is missing. *)
Record Ruling := {
  ruling_text : option string
}.

Record CardInfo := {
  ci_name : option string;
  ci_manaCost : option string;
  ci_type : option string;
  ci_text : option string;
  ci_power : option string;
  ci_toughness : option string;
  ci_colors : option (list string);
  ci_rulings : option (list Ruling)
}.

(** What an import has done: the objects given to [batch.add_object], in
    order, and the lines printed. *)
Record Import := {
  imp_added : list (gmap string prop_value);
  imp_printed : list string
}.

Definition no_import : Import := {| imp_added := []; imp_printed := [] |}.

Definition add_object (props : gmap string prop_value) (batch : Import) : Import :=
  {| imp_added := imp_added batch ++ [props]; imp_printed := imp_printed batch |}.

Definition print (line : string) (batch : Import) : Import :=
  {| imp_added := imp_added batch; imp_printed := imp_printed batch ++ [line] |}.

Definition stop_message : string :=
  "Batch import stopped due to excessive errors.".

(** [batch.number_errors > 10], where [number_errors] is what the batch
    reports after the objects added so far. *)
Definition too_many_errors (number_errors : list (gmap string prop_value) → nat)
    (batch : Import) : bool :=
  (10 <? number_errors (imp_added batch))%nat.

Definition rule_object (src_obj : string) : gmap string prop_value :=
  {[ "rule" := PText src_obj ]}.

(** The loop over [splitText]. *)
Fixpoint import_rules (number_errors : list (gmap string prop_value) → nat)
    (splitText : list string) (batch : Import) : Import :=
  match splitText with
  | [] => batch
  | src_obj :: rest =>
      let batch := add_object (rule_object src_obj) batch in
      if too_many_errors number_errors batch then print stop_message batch
      else import_rules number_errors rest batch
  end.

(** The import of the rulebook, from the text read from the file. *)
Definition import_rulebook (number_errors : list (gmap string prop_value) → nat)
    (rulebook_text : string) : Import :=
  let splitText := split_blank_lines rulebook_text in
  import_rules number_errors splitText no_import.

(** [[ruling['text'] for ruling in card_info['rulings']]]. *)
Fixpoint ruling_texts (rulings : list Ruling) : result (list string) :=
  match rulings with
  | [] => Ok []
  | ruling :: rest =>
      match ruling_text ruling with
      | None => Raise (KeyError "text")
      | Some text => res_bind (ruling_texts rest) (λ texts, Ok (text :: texts))
      end
  end.

(** The loop that builds [rulingsStr]. *)
Fixpoint concat_rulings (rulings : list string) (rulingsStr : string) : string :=
  match rulings with
  | [] => rulingsStr
  | ruling :: rest =>
      concat_rulings rest
        (rulingsStr +:+ remove_char single_quote (remove_char double_quote ruling))
  end.

(** The body of the loop over the cards, in the import of the rulings, up
    to the test of the errors. *)
Definition import_ruling (value : list CardInfo) (batch : Import)
    : result unit * Import :=
  match value with
  | [] => (Raise IndexError, batch)
  | card_info :: _ =>
      match ci_rulings card_info with
      | Some card_rulings =>
          match ruling_texts card_rulings with
          | Raise e => (Raise e, batch)
          | Ok rulings =>
              let rulingsStr := concat_rulings rulings "" in
              let batch := print rulingsStr batch in
              match ci_name card_info with
              | None => (Raise (KeyError "name"), batch)
              | Some name =>
                  (Ok tt,
                   add_object
                     (<["name" := PText name]> {[ "rulings" := PText rulingsStr ]})
                     batch)
              end
          end
      | None => (Ok tt, batch)
      end
  end.

(** The loop over [cards_text['data'].items()] of the rulings. *)
Fixpoint import_rulings (number_errors : list (gmap string prop_value) → nat)
    (data : list (string * list CardInfo)) (batch : Import)
    : result unit * Import :=
  match data with
  | [] => (Ok tt, batch)
  | (_, value) :: rest =>
      match import_ruling value batch with
      | (Raise e, batch) => (Raise e, batch)
      | (Ok _, batch) =>
          if too_many_errors number_errors batch
          then (Ok tt, print stop_message batch)
          else import_rulings number_errors rest batch
      end
  end.

(** The [properties] of a card. *)
Definition card_properties (card_info : CardInfo)
    : result (gmap string prop_value) :=
  match ci_name card_info with
  | None => Raise (KeyError "name")
  | Some name =>
      Ok (<["name" := PText name]>
         (<["manaCost" :=
              PText (remove_char "}" (remove_char "{"
                       (default "" (ci_manaCost card_info))))]>
         (<["type" := PText (default "" (ci_type card_info))]>
         (<["text" := PText (default "" (ci_text card_info))]>
         (<["power" := PText (default "" (ci_power card_info))]>
         (<["toughness" := PText (default "" (ci_toughness card_info))]>
         {[ "colors" :=
              match ci_colors card_info with
              | Some colors => PTextArray colors
              | None => PText ""
              end ]}))))))
  end.

(** The loop over [cards_text['data'].items()] of the cards. *)
Fixpoint import_cards (number_errors : list (gmap string prop_value) → nat)
    (data : list (string * list CardInfo)) (batch : Import)
    : result unit * Import :=
  match data with
  | [] => (Ok tt, batch)
  | (_, value) :: rest =>
      match value with
      | [] => (Raise IndexError, batch)
      | card_info :: _ =>
          match card_properties card_info with
          | Raise e => (Raise e, batch)
          | Ok props =>
              let batch := add_object props batch in
              if too_many_errors number_errors batch
              then (Ok tt, print stop_message batch)
              else import_cards number_errors rest batch
          end
      end
  end.

(** ** The import of the rulings *)

(** A ruling as it is stored: without quotation marks. *)
Definition clean_ruling (ruling : string) : string :=
  remove_char single_quote (remove_char double_quote ruling).

(** An object as the import of the rulings adds it. *)
Definition ruling_object (props : gmap string prop_value) : Prop :=
  ∃ name rulingsStr,
    props = <["name" := PText name]> {[ "rulings" := PText rulingsStr ]} ∧
    char_in double_quote rulingsStr = false ∧
    char_in single_quote rulingsStr = false.

(** A ruling text as it is stored: its characters other than the two
    quotation marks, in their order. *)
Definition without_quotes (text : string) : string :=
  String.string_of_list_ascii
    (filter (λ a, a ≠ single_quote ∧ a ≠ double_quote)
       (String.list_ascii_of_string text)).

(** The text stored for a card: its ruling texts without the quotation
    marks, one after the other with nothing between them. *)
Definition stored_rulings (texts : list string) : string :=
  String.concat "" (without_quotes <$> texts).

(** What the import of the rulings does with a card, read off the first
    face of the card: nothing, when the face has no key [rulings]; the
    name and the text it stores (and prints), when each ruling has a text
    and the face has a name; else the exception it raises, after the
    lines it printed for the card. *)
Inductive rulings_outcome :=
| NoRulings
| Stored (name rulingsStr : string)
| Failed (e : exn) (printed : list string).

Definition rulings_outcome_of (entry : string * list CardInfo) : rulings_outcome :=
  match snd entry with
  | [] => Failed IndexError []
  | card_info :: _ =>
      match ci_rulings card_info with
      | None => NoRulings
      | Some card_rulings =>
          match mapM ruling_text card_rulings with
          | None => Failed (KeyError "text") []
          | Some texts =>
              match ci_name card_info with
              | Some name => Stored name (stored_rulings texts)
              | None => Failed (KeyError "name") [stored_rulings texts]
              end
          end
      end
  end.

Definition added_of (outcome : rulings_outcome) : list (gmap string prop_value) :=
  match outcome with
  | Stored name rulingsStr =>
      [ <["name" := PText name]> {[ "rulings" := PText rulingsStr ]} ]
  | NoRulings | Failed _ _ => []
  end.

Definition printed_of (outcome : rulings_outcome) : list string :=
  match outcome with
  | Stored _ rulingsStr => [rulingsStr]
  | NoRulings => []
  | Failed _ printed => printed
  end.

(** The batch after a card. *)
Definition after_card (outcome : rulings_outcome) (batch : Import) : Import :=
  {| imp_added := imp_added batch ++ added_of outcome;
     imp_printed := imp_printed batch ++ printed_of outcome |}.

(** ** The import of the cards *)

(** The object added for an entry of [cards_text['data']]: the properties
    of its first face. *)
Definition card_object (entry : string * list CardInfo)
    : result (gmap string prop_value) :=
  match snd entry with
  | [] => Raise IndexError
  | card_info :: _ => card_properties card_info
  end.

(** ** The objects added and the schema *)

(** The properties declared for a collection that the script creates. *)
Definition properties_of (name : string) : list (string * data_type) :=
  match list_find (λ c, bool_decide (fst c = name)) created_collections with
  | Some (_, c) => snd c
  | None => []
  end.

Definition has_type (value : prop_value) (type : data_type) : bool :=
  match value, type with
  | PText _, TEXT => true
  | PTextArray _, TEXT_ARRAY => true
  | _, _ => false
  end.

(** Every value of the object has the type declared for its key. *)
Definition conforms (schema : list (string * data_type))
    (props : gmap string prop_value) : Prop :=
  ∀ k value, props !! k = Some value →
    ∃ type, (k, type) ∈ schema ∧ has_type value type = true.

Definition declared_keys (schema : list (string * data_type)) : gset string :=
  list_to_set (fst <$> schema).

(** * Further stub collaborators *)

(** A database that cannot be reached. *)
Definition offline_client : WeaviateClient :=
  {| collections_get := λ name,
       Raise (Exn "WeaviateConnectionError" "connection refused");
     near_text := λ handle query limit, Ok {| objects := [] |} |}.

Definition offline_state : State :=
  {| st_self := MTGRAGPipeline_init offline_client stub_openai None;
     st_clock := λ n, "2024-01-01T00:00:0" +:+ str_of_nat n;
     st_tick := 0;
     st_log := [];
     st_calls := [] |}.

(** Limits without the key [cards]. *)
Definition rules_only_limits : gmap string Z := {[ "rules" := 2 ]}.

(** A card of [AtomicCards.json] without colors. *)
Definition wastes_card : CardInfo :=
  {| ci_name := Some "Wastes"; ci_manaCost := None; ci_type := Some "Basic Land";
     ci_text := Some "{T}: Add {C}."; ci_power := None; ci_toughness := None;
     ci_colors := None; ci_rulings := None |}.

(** Three entries of [AtomicCards.json]: a card with two rulings, a card
    without rulings and a card with a ruling but without name. *)
Definition sample_cards : list (string * list CardInfo) :=
  [ ("Colossal Dreadmaw",
     [ {| ci_name := Some "Colossal Dreadmaw"; ci_manaCost := Some "{4}{G}{G}";
          ci_type := Some "Creature"; ci_text := Some "Trample";
          ci_power := Some "6"; ci_toughness := Some "6";
          ci_colors := Some ["G"];
          ci_rulings :=
            Some [ {| ruling_text := Some "It's big." |};
                   {| ruling_text :=
                        Some ("Its " +:+ String double_quote "excess" +:+
                              String double_quote " damage tramples.") |} ] |} ]);
    ("Wastes", [wastes_card]);
    ("Nameless",
     [ {| ci_name := None; ci_manaCost := None; ci_type := None;
          ci_text := None; ci_power := None; ci_toughness := None;
          ci_colors := None;
          ci_rulings := Some [ {| ruling_text := Some "Don't ask." |} ] |} ]) ].

(** * Properties *)

(** ** Formatting of numbers *)

Example format_3f_0_9 : format_3f 0x1.ccccccccccccdp-1 = "0.900".
Proof. vm_compute. reflexivity. Qed.
Example format_3f_tie_even : format_3f 0.0625 = "0.062".
Proof. vm_compute. reflexivity. Qed.
Example format_3f_tie_odd : format_3f 0.1875 = "0.188".
Proof. vm_compute. reflexivity. Qed.
Example format_3f_neg_zero : format_3f (-0)%float = "-0.000".
Proof. vm_compute. reflexivity. Qed.
Example format_3f_big : format_3f 1234.5 = "1234.500".
Proof. vm_compute. reflexivity. Qed.
Example format_3f_nan : format_3f nan = "nan".
Proof. vm_compute. reflexivity. Qed.

(** ** Strings *)

#[local] Arguments String.append : simpl nomatch.

Lemma append_nil_r (s : string) : s +:+ "" = s.
Proof. induction s as [|c s IH]; simpl; [done | by rewrite IH]. Qed.

Lemma append_assoc (a b c : string) : (a +:+ b) +:+ c = a +:+ b +:+ c.
Proof. induction a as [|x a IH]; simpl; [done | by rewrite IH]. Qed.

Lemma char_in_append (c : ascii) (a b : string) :
  char_in c (a +:+ b) = char_in c a || char_in c b.
Proof.
  induction a as [|x a IH]; simpl; [done |].
  by destruct (Ascii.eqb c x).
Qed.

Lemma prefix_append (h post : string) : String.prefix h (h +:+ post) = true.
Proof.
  induction h as [|c h IH]; simpl.
  - by destruct post.
  - by destruct (ascii_dec c c).
Qed.

Lemma containsb_unfold (h t : string) :
  containsb h t =
  if String.prefix h t then true
  else match t with
       | EmptyString => false
       | String _ t' => containsb h t'
       end.
Proof. by destruct t. Qed.

Lemma occurs_in_containsb (h t : string) : occurs_in h t → containsb h t = true.
Proof.
  intros (pre & post & ->). induction pre as [|c pre IH].
  - rewrite containsb_unfold. simpl. by rewrite prefix_append.
  - rewrite containsb_unfold. simpl. rewrite IH.
    by destruct (match h with "" => _ | String _ _ => _ end).
Qed.

Lemma not_occurs_in (h t : string) : containsb h t = false → ¬ occurs_in h t.
Proof. intros E H. apply occurs_in_containsb in H. congruence. Qed.

Lemma occurs_in_refl (h : string) : occurs_in h h.
Proof. exists "", "". simpl. by rewrite append_nil_r. Qed.

Lemma occurs_in_skip (c : ascii) (h t : string) :
  occurs_in h t → occurs_in h (String c t).
Proof. intros (pre & post & ->). by exists (String c pre), post. Qed.

Lemma occurs_in_append_r (h p t : string) : occurs_in h t → occurs_in h (p +:+ t).
Proof. intros H. induction p; simpl; [done | by apply occurs_in_skip]. Qed.

Lemma occurs_in_append_l (h t p : string) : occurs_in h t → occurs_in h (t +:+ p).
Proof.
  intros (pre & post & ->). exists pre, (post +:+ p).
  by rewrite !append_assoc.
Qed.

(** A needle starting with [c] that occurs in [String x t] with [x ≠ c]
    occurs in [t]. *)
Lemma occurs_in_cons_ne (c x : ascii) (h t : string) :
  x ≠ c → occurs_in (String c h) (String x t) → occurs_in (String c h) t.
Proof.
  intros Hne (pre & post & E). destruct pre as [|y pre]; simpl in E.
  - congruence.
  - injection E as _ ->. by exists pre, post.
Qed.

(** A needle whose first character is not in [p] cannot start inside
    [p]. *)
Lemma occurs_in_past_prefix (c : ascii) (h p t : string) :
  char_in c p = false →
  occurs_in (String c h) (p +:+ t) → occurs_in (String c h) t.
Proof.
  induction p as [|x p IH]; simpl; [done |].
  destruct (Ascii.eqb_spec c x) as [|Hne]; [done |].
  intros Hp H. apply IH; [done |].
  eapply occurs_in_cons_ne; [|exact H]. congruence.
Qed.

(** When [h] is free of the character [c] and sits at the front of
    [a +:+ String c b], it sits inside [a]. *)
Lemma prefix_before_char (c : ascii) (h post a b : string) :
  char_in c h = false →
  h +:+ post = a +:+ String c b → ∃ a', a = h +:+ a'.
Proof.
  revert a. induction h as [|x h IH]; intros a Hc E; simpl in *.
  - by exists a.
  - destruct (Ascii.eqb_spec c x) as [|Hne]; [done |].
    destruct a as [|y a]; simpl in E.
    + congruence.
    + injection E as -> E. destruct (IH a Hc E) as [a' ->]. by exists a'.
Qed.

Lemma occurs_in_split (c : ascii) (h a b : string) :
  h ≠ "" → char_in c h = false →
  occurs_in h (a +:+ String c b) → occurs_in h a ∨ occurs_in h b.
Proof.
  intros Hh Hc. induction a as [|x a IH]; intros (pre & post & E).
  - simpl in E. destruct pre as [|y pre]; simpl in E.
    + destruct h as [|z h]; [done |]. simpl in *.
      destruct (Ascii.eqb_spec c z); [done | congruence].
    + injection E as _ ->. right. by exists pre, post.
  - destruct pre as [|y pre]; simpl in E.
    + left. change (String x (a +:+ String c b)) with (String x a +:+ String c b) in E.
      symmetry in E. destruct (prefix_before_char c h post (String x a) b Hc E) as [a' ->].
      by exists "", a'.
    + injection E as _ E. destruct IH as [H|H]; [by exists pre, post | |by right].
      left. by apply occurs_in_skip.
Qed.

(** A needle without a line break that occurs in [newline.join(parts)]
    occurs in one of the parts. *)
Lemma occurs_in_join (h : string) (parts : list string) :
  h ≠ "" → char_in "010" h = false →
  occurs_in h (str_join newline parts) → ∃ p, p ∈ parts ∧ occurs_in h p.
Proof.
  intros Hh Hc. induction parts as [|p parts IH]; simpl.
  - intros (pre & post & E). destruct pre, h; simpl in E; done.
  - destruct parts as [|q parts].
    + intros H. exists p. split; [left | done].
    + intros H. apply (occurs_in_split "010" h p _ Hh Hc) in H as [H|H].
      * exists p. split; [left | done].
      * destruct (IH H) as (p' & Hin & Hp'). exists p'. split; [by right | done].
Qed.

(** ** Decimal digits *)

Lemma is_digit_pretty_N_char (x : N) : is_digit (pretty_N_char x) = true.
Proof. unfold pretty_N_char. by repeat case_match. Qed.

Lemma digits_only_append (a b : string) :
  digits_only (a +:+ b) = digits_only a && digits_only b.
Proof.
  induction a as [|c a IH]; simpl; [done |].
  rewrite IH. by destruct (is_digit c).
Qed.

(** [pretty_N_go x s] puts the digits of [x] in front of [s]. *)
Lemma pretty_N_go_digits (x : N) (s : string) :
  ∃ d, pretty_N_go x s = d +:+ s ∧ digits_only d = true ∧ ((0 < x)%N → d ≠ "").
Proof.
  revert s. induction (N.lt_wf_0 x) as [x _ IH]; intros s.
  destruct (decide (x = 0%N)) as [->|Hx].
  - exists "". rewrite pretty_N_go_0. split; [done |]. split; [done | lia].
  - assert (0 < x)%N as Hpos by lia.
    rewrite pretty_N_go_step by done.
    destruct (IH (x `div` 10)%N (N.div_lt x 10 Hpos eq_refl)
                (String (pretty_N_char (x `mod` 10)) s)) as (d & -> & Hd & _).
    exists (d +:+ String (pretty_N_char (x `mod` 10)) "").
    split; [by rewrite append_assoc |]. split.
    + rewrite digits_only_append, Hd. simpl.
      by rewrite is_digit_pretty_N_char.
    + intros _. by destruct d.
Qed.

Lemma pretty_N_digits (x : N) :
  digits_only (pretty x) = true ∧ pretty x ≠ "".
Proof.
  unfold pretty, pretty_N. case_decide as Hx; [done |].
  destruct (pretty_N_go_digits x "") as (d & -> & Hd & Hne).
  rewrite append_nil_r. split; [done |]. apply Hne. lia.
Qed.

Lemma str_of_nat_digits (n : nat) :
  digits_only (str_of_nat n) = true ∧ str_of_nat n ≠ "".
Proof. apply pretty_N_digits. Qed.

(** [str(i)] starts with a digit. *)
Lemma str_of_nat_head (n : nat) :
  ∃ c s, str_of_nat n = String c s ∧ is_digit c = true.
Proof.
  destruct (str_of_nat_digits n) as [Hd Hne].
  destruct (str_of_nat n) as [|c s]; [done |].
  exists c, s. split; [done |]. simpl in Hd. by destruct (is_digit c).
Qed.

Lemma three_decimals_fixed3 (negative : bool) (n : N) :
  three_decimals (fixed3 negative n).
Proof.
  unfold three_decimals, fixed3.
  exists (if negative then "-" else ""), (pretty (n / 1000)%N).
  eexists _, _, _. split; [reflexivity |].
  destruct (pretty_N_digits (n / 1000)) as [Hd Hne].
  rewrite !is_digit_pretty_N_char.
  repeat split; try done. destruct negative; auto.
Qed.

(** A finite float is shown with exactly three decimals. *)
Lemma three_decimals_format_3f (x : float) :
  is_finite_float x = true → three_decimals (format_3f x).
Proof.
  unfold is_finite_float, format_3f.
  destruct (Prim2SF x); try done; intros _; apply three_decimals_fixed3.
Qed.

(** The rounding of [format(x, ".3f")] is to the nearest thousandth, ties
    to even. *)
Lemma thousandths_nearest (m : positive) (e : Z) :
  nearest_thousandth m e (thousandths m e).
Proof.
  unfold nearest_thousandth, thousandths. destruct e as [|p|p].
  - change (Z.max 0 0) with 0. change (Z.max 0 (- 0)) with 0.
    change (Z.to_N 0) with 0%N. rewrite N.pow_0_r, Z.pow_0_r.
    split; lia.
  - replace (Z.max 0 (Z.pos p)) with (Z.pos p) by lia.
    replace (Z.max 0 (- Z.pos p)) with 0 by lia. rewrite Z.pow_0_r.
    cbn [Z.to_N]. rewrite !N2Z.inj_mul, N2Z.inj_pow. cbn [Z.of_N].
    generalize (2 ^ Z.pos p). intros scale. split; lia.
  - replace (Z.max 0 (Z.neg p)) with 0 by lia.
    replace (Z.max 0 (- Z.neg p)) with (Z.pos p) by lia. rewrite Z.pow_0_r.
    set (num := (N.pos m * 1000)%N). set (den := (2 ^ N.pos p)%N).
    assert (den ≠ 0)%N as Hden by (apply N.pow_nonzero; lia).
    pose proof (N.div_mod num den Hden) as Hdiv.
    pose proof (N.mod_lt num den Hden) as Hlt.
    assert (2 ^ Z.pos p = Z.of_N den) as -> by (unfold den; by rewrite N2Z.inj_pow).
    replace (1000 * Z.pos m * 1) with (Z.of_N num) by (unfold num; lia).
    set (q := (num `div` den)%N) in *. set (r := (num `mod` den)%N) in *.
    assert (Z.of_N num = Z.of_N den * Z.of_N q + Z.of_N r) as Hz by lia.
    rewrite Hz. clearbody q r den num.
    destruct (N.ltb_spec den (2 * r)) as [Hup|Hdown].
    + rewrite N2Z.inj_add. split; [nia | nia].
    + destruct (N.eqb_spec (2 * r) den) as [Htie|Hne]; cbn [andb].
      * destruct (N.odd q) eqn:Hodd.
        -- rewrite N2Z.inj_add. split; [nia |]. intros _.
           rewrite N.add_1_r, N.even_succ. done.
        -- split; [nia |]. intros _. by rewrite <- N.negb_odd, Hodd.
      * split; [nia | nia].
Qed.

Lemma fixed3_shows (negative : bool) (n : N) :
  shows_thousandths negative n (fixed3 negative n).
Proof.
  exists (n / 1000)%N, (n / 100 mod 10)%N, (n / 10 mod 10)%N, (n mod 10)%N.
  split; [|split; [|done]].
  - repeat split; by apply N.mod_lt.
  - pose proof (N.div_mod n 10 ltac:(done)) as H1.
    pose proof (N.div_mod (n / 10) 10 ltac:(done)) as H2.
    pose proof (N.div_mod (n / 100) 10 ltac:(done)) as H3.
    replace (n / 1000)%N with (n / 100 / 10)%N by (by rewrite N.Div0.div_div).
    replace (n / 100)%N with (n / 10 / 10)%N in * by (by rewrite N.Div0.div_div).
    lia.
Qed.

(** On a result with a finite score the formatter shows that score, to
    three decimal places. *)
Lemma format_score_finite (obj : WObject) :
  finite_score obj →
  ∃ shown, format_score (getattr_score (metadata obj)) = Ok shown ∧
           score_shown obj shown ∧ three_decimals shown.
Proof.
  unfold finite_score, score_shown, getattr_score.
  destruct (metadata obj) as [md|]; cbn [format_score].
  - intros (s & Hs & Hfin). rewrite Hs. cbn [format_score].
    eexists. split; [done |]. split; [|by apply three_decimals_format_3f].
    exists s. split; [done |]. unfold is_finite_float in Hfin. unfold format_3f.
    destruct (Prim2SF s) as [negative| | |negative m e]; try done.
    + apply fixed3_shows.
    + exists (thousandths m e). split; [apply thousandths_nearest | apply fixed3_shows].
  - intros _. eexists. split; [done |].
    split; [apply fixed3_shows | apply three_decimals_fixed3].
Qed.

(** ** Statements that leave the state alone *)

Lemma stateless_ret {A} (a : A) : stateless (ret a) (Ok a).
Proof. done. Qed.

Lemma stateless_lift {A} (r : result A) : stateless (lift r) r.
Proof. done. Qed.

Lemma stateless_bind {A B} (m : Py A) (k : A → Py B) r (f : A → result B) :
  stateless m r → (∀ a, stateless (k a) (f a)) →
  stateless (bind m k) (res_bind r f).
Proof.
  intros Hm Hk st. unfold bind. rewrite Hm.
  destruct r as [a|e]; simpl; [apply Hk | done].
Qed.

(** The loop that appends one line per element is such a listing. *)
Lemma for_enumerate_entries {A} (g : nat → A → result string) (xs : list A) :
  ∀ start parts,
    stateless
      (for_enumerate start xs
         (λ i x parts, line <- lift (g i x) ;; ret (parts ++ [line])) parts)
      (res_bind (entries g start xs) (λ lines, Ok (parts ++ lines))).
Proof.
  induction xs as [|x xs IH]; intros start parts st; simpl.
  - unfold ret. by rewrite app_nil_r.
  - unfold bind at 1. unfold bind at 1. unfold lift at 1.
    destruct (g start x) as [line|e]; simpl; [|done].
    unfold ret at 1. rewrite IH.
    destruct (entries g (S start) xs) as [lines|e]; simpl; [|done].
    by rewrite <- app_assoc.
Qed.

Lemma entries_length {A} (g : nat → A → result string) (xs : list A) :
  ∀ start lines, entries g start xs = Ok lines → length lines = length xs.
Proof.
  induction xs as [|x xs IH]; intros start lines; simpl.
  - by intros [= <-].
  - destruct (g start x); simpl; [|done].
    destruct (entries g (S start) xs) eqn:E; simpl; [|done].
    intros [= <-]. simpl. f_equal. by eapply IH.
Qed.

(** The [k]-th line of a listing is built from the [k]-th element and the
    number [start + k]. *)
Lemma entries_lookup {A} (g : nat → A → result string) (xs : list A) :
  ∀ start lines k x,
    entries g start xs = Ok lines → xs !! k = Some x →
    ∃ line, lines !! k = Some line ∧ g (start + k)%nat x = Ok line.
Proof.
  induction xs as [|y xs IH]; intros start lines k x; simpl; [done |].
  destruct (g start y) as [line|] eqn:Eg; simpl; [|done].
  destruct (entries g (S start) xs) as [lines'|] eqn:E; simpl; [|done].
  intros [= <-] Hk. destruct k as [|k]; simpl in *.
  - injection Hk as ->. exists line. by rewrite Nat.add_0_r.
  - destruct (IH _ _ _ _ E Hk) as (l & Hl & Hg). exists l.
    split; [done |]. by rewrite <- Nat.add_succ_comm.
Qed.

Lemma entries_elem_of {A} (g : nat → A → result string) (xs : list A) :
  ∀ start lines line,
    entries g start xs = Ok lines → line ∈ lines →
    ∃ k x, xs !! k = Some x ∧ g (start + k)%nat x = Ok line.
Proof.
  induction xs as [|y xs IH]; intros start lines line; simpl.
  - intros [= <-] H. by apply elem_of_nil in H.
  - destruct (g start y) as [l|] eqn:Eg; simpl; [|done].
    destruct (entries g (S start) xs) as [lines'|] eqn:E; simpl; [|done].
    intros [= <-] [->|Hin]%elem_of_cons.
    + exists 0%nat, y. by rewrite Nat.add_0_r.
    + destruct (IH _ _ _ E Hin) as (k & x & Hk & Hg).
      exists (S k), x. split; [done |]. by rewrite <- Nat.add_succ_comm.
Qed.

(** Every element gets its line when no line fails. *)
Lemma entries_total {A} (g : nat → A → result string) (xs : list A) :
  ∀ start,
    (∀ k x, xs !! k = Some x → ∃ line, g (start + k)%nat x = Ok line) →
    ∃ lines, entries g start xs = Ok lines.
Proof.
  induction xs as [|y xs IH]; intros start H; simpl; [by eexists |].
  destruct (H 0%nat y eq_refl) as [line Hg]. rewrite Nat.add_0_r in Hg.
  rewrite Hg. simpl. destruct (IH (S start)) as [lines ->].
  - intros k x Hk. destruct (H (S k) x Hk) as [l Hl]. exists l.
    by rewrite Nat.add_succ_comm.
  - by eexists.
Qed.

(** ** The context, part by part *)

Lemma add_section_stateless (c : Collection) (sr : SearchResults)
    (parts : list string) :
  stateless (add_section c sr parts)
    (res_bind (section_of c sr) (λ sec, Ok (parts ++ sec))).
Proof.
  unfold add_section, section_of. intros st.
  destruct (results_of c sr) as [|obj objs] eqn:E.
  - simpl. unfold ret. by rewrite app_nil_r.
  - cbn [list_truthy]. unfold bind at 1. rewrite for_enumerate_entries.
    destruct (entries (entry c) 1 (obj :: objs)) as [lines|] eqn:El;
      cbn [res_bind]; [|done].
    apply entries_length in El. destruct lines as [|line lines]; [done |].
    unfold ret. cbn [section]. by rewrite <- !app_assoc.
Qed.

Lemma build_context_parts_stateless (sr : SearchResults) :
  stateless (build_context_parts sr) (expected_parts sr).
Proof.
  intros st. unfold build_context_parts, expected_parts.
  unfold bind. rewrite add_section_stateless.
  destruct (section_of Rules sr) as [s1|]; simpl; [|done].
  rewrite add_section_stateless.
  destruct (section_of Cards sr) as [s2|]; simpl; [|done].
  rewrite add_section_stateless.
  destruct (section_of Rulings sr) as [s3|]; simpl; [|done].
  unfold ret, heading, query_shown, timestamp_shown.
  by rewrite <- !app_assoc.
Qed.

(** [format_context_for_llm] computes [expected_context] and touches no
    state. *)
Lemma format_context_for_llm_stateless (sr : SearchResults) :
  stateless (format_context_for_llm sr) (expected_context sr).
Proof.
  intros st. unfold format_context_for_llm, expected_context, bind.
  rewrite build_context_parts_stateless.
  by destruct (expected_parts sr).
Qed.

(** ** The entries, field by field *)

Lemma append_nil_l (s : string) : "" +:+ s = s.
Proof. done. Qed.

Ltac normalize_append :=
  rewrite ?append_assoc, ?append_nil_l, ?append_nil_r.

(** The entry of a collection is its head followed by its body. *)
Lemma entry_parts (c : Collection) (i : nat) (obj : WObject) (shown : string) :
  format_score (getattr_score (metadata obj)) = Ok shown →
  entry c i obj = Ok (entry_head i shown +:+ entry_body c (properties obj)).
Proof.
  intros H. destruct c; unfold entry, rule_entry, card_entry, ruling_entry;
    rewrite H; cbn [res_bind]; f_equal;
    unfold entry_body, entry_head, rule_part, name_part, mana_part, type_part,
      power_toughness_part, text_part, date_part, source_part, ruling_part,
      optional_part.
  - by normalize_append.
  - destruct (str_truthy (dict_get (properties obj) "manacost" ""));
      destruct (str_truthy (dict_get (properties obj) "type" ""));
      destruct (str_truthy (dict_get (properties obj) "power" "") &&
                str_truthy (dict_get (properties obj) "toughness" ""));
      destruct (str_truthy (dict_get (properties obj) "text" ""));
      by normalize_append.
  - destruct (str_truthy (dict_get (properties obj) "ruling_date" ""));
      destruct (str_truthy (dict_get (properties obj) "source" ""));
      by normalize_append.
Qed.

(** An entry is built exactly when the score can be shown. *)
Lemma entry_ok_inv (c : Collection) (i : nat) (obj : WObject) (line : string) :
  entry c i obj = Ok line →
  ∃ shown, format_score (getattr_score (metadata obj)) = Ok shown ∧
           line = entry_head i shown +:+ entry_body c (properties obj).
Proof.
  intros H.
  destruct (format_score (getattr_score (metadata obj))) as [shown|e] eqn:E.
  - exists shown. split; [done |].
    rewrite (entry_parts c i obj shown E) in H. by injection H as <-.
  - destruct c; unfold entry, rule_entry, card_entry, ruling_entry in H;
      rewrite E in H; done.
Qed.

(** ** The listing of a collection *)

Lemma entries_listing (c : Collection) (objs : list WObject) :
  (∀ obj, obj ∈ objs → finite_score obj) →
  ∃ lines, entries (entry c) 1 objs = Ok lines ∧ listing c objs lines.
Proof.
  intros Hfin.
  destruct (entries_total (entry c) objs 1) as [lines Hlines].
  { intros k obj Hk.
    destruct (format_score_finite obj) as (shown & Hs & _).
    { apply Hfin. by eapply list_elem_of_lookup_2. }
    eexists. by apply entry_parts. }
  exists lines. split; [done |]. split; [by eapply entries_length |].
  intros k obj Hk.
  destruct (entries_lookup _ _ _ _ _ _ Hlines Hk) as (line & Hl & Hg).
  destruct (format_score_finite obj) as (shown & Hs & Hshown & H3).
  { apply Hfin. by eapply list_elem_of_lookup_2. }
  exists shown. rewrite (entry_parts c _ obj shown Hs) in Hg.
  injection Hg as <-. done.
Qed.

(** C7. [format_context_for_llm] is a deterministic pure function: a run
    leaves the whole state as it found it (pipeline object, clock, log and
    trace of collaborator calls), and two runs on the same [SearchResults],
    from any two states, give the same outcome, hence the same text. *)
Theorem format_context_for_llm_pure (sr : SearchResults) (st1 st2 : State) :
  snd (format_context_for_llm sr st1) = st1 ∧
  fst (format_context_for_llm sr st1) = fst (format_context_for_llm sr st2).
Proof. by rewrite !format_context_for_llm_stateless. Qed.

(** C8, amended. On results whose scores are finite numbers (a result
    without metadata counting as score 0), the context is the join by line
    breaks of: the heading with the query text and the timestamp, then the
    sections of the non-empty collections in the order OFFICIAL RULES,
    RELEVANT CARDS, OFFICIAL RULINGS, each with one entry per retained
    result in the retained order, numbered from 1 and showing the score of
    that result rounded to the nearest thousandth, with exactly three
    decimals. *)
Theorem format_context_for_llm_layout (sr : SearchResults) (st : State) :
  (∀ c obj, obj ∈ results_of c sr → finite_score obj) →
  ∃ rule_lines card_lines ruling_lines,
    format_context_for_llm sr st =
      (Ok (str_join newline
             (heading sr ++ section Rules rule_lines ++
              section Cards card_lines ++ section Rulings ruling_lines)), st) ∧
    listing Rules (rules sr) rule_lines ∧
    listing Cards (cards sr) card_lines ∧
    listing Rulings (rulings sr) ruling_lines.
Proof.
  intros Hfin.
  destruct (entries_listing Rules (rules sr) (Hfin Rules)) as (l1 & E1 & L1).
  destruct (entries_listing Cards (cards sr) (Hfin Cards)) as (l2 & E2 & L2).
  destruct (entries_listing Rulings (rulings sr) (Hfin Rulings)) as (l3 & E3 & L3).
  exists l1, l2, l3. split; [|done].
  rewrite format_context_for_llm_stateless.
  unfold expected_context, expected_parts, section_of. simpl results_of.
  by rewrite E1, E2, E3.
Qed.

(** ** Section headers *)

Lemma section_of_origin (c : Collection) (sr : SearchResults) (sec : list string) :
  section_of c sr = Ok sec → ∀ p, p ∈ sec → part_origin sr p.
Proof.
  unfold section_of.
  destruct (entries (entry c) 1 (results_of c sr)) as [lines|] eqn:E;
    cbn [res_bind]; [|done].
  intros [= <-] p Hp. destruct lines as [|l lines]; cbn [section] in Hp.
  { by apply elem_of_nil in Hp. }
  assert (results_of c sr ≠ []) as Hne.
  { apply entries_length in E. by destruct (results_of c sr). }
  apply elem_of_cons in Hp as [->|Hp]; [by eapply from_header |].
  apply elem_of_app in Hp as [Hp|Hp].
  - destruct (entries_elem_of _ _ _ _ _ E Hp) as (k & obj & Hk & Hg).
    by eapply from_entry.
  - apply list_elem_of_singleton in Hp. by apply from_blank.
Qed.

Lemma expected_parts_origin (sr : SearchResults) (parts : list string) :
  expected_parts sr = Ok parts → ∀ p, p ∈ parts → part_origin sr p.
Proof.
  unfold expected_parts.
  destruct (section_of Rules sr) as [s1|] eqn:E1; cbn [res_bind]; [|done].
  destruct (section_of Cards sr) as [s2|] eqn:E2; cbn [res_bind]; [|done].
  destruct (section_of Rulings sr) as [s3|] eqn:E3; cbn [res_bind]; [|done].
  intros Hparts p Hp. assert (parts = heading sr ++ s1 ++ s2 ++ s3) as ->.
  { congruence. }
  clear Hparts. rewrite !elem_of_app in Hp.
  destruct Hp as [Hp|[Hp|[Hp|Hp]]];
    [| exact (section_of_origin _ _ _ E1 _ Hp)
     | exact (section_of_origin _ _ _ E2 _ Hp)
     | exact (section_of_origin _ _ _ E3 _ Hp)].
  unfold heading in Hp. rewrite !elem_of_cons in Hp.
  destruct Hp as [->|[->|[->|Hp]]];
    [by apply from_query | by apply from_timestamp | by apply from_blank |].
  by apply elem_of_nil in Hp.
Qed.

(** An entry starts with a digit, a header with an equals sign. *)
Lemma entry_not_header (c c' : Collection) (i : nat) (obj : WObject) :
  entry c i obj ≠ Ok (header c').
Proof.
  intros H. apply entry_ok_inv in H as (shown & _ & H).
  unfold entry_head in H. destruct (str_of_nat_head i) as (d & s & Hs & Hd).
  rewrite Hs in H. destruct c'; simpl in H; injection H as <- _; done.
Qed.

Lemma header_inj (c c' : Collection) : header c = header c' → c = c'.
Proof. by destruct c, c'. Qed.

Lemma header_not_in_header (c c' : Collection) :
  c ≠ c' → ¬ occurs_in (header c) (header c').
Proof.
  intros Hne. apply not_occurs_in. by destruct c, c'; vm_compute.
Qed.

Lemma header_not_in_blank (c : Collection) : ¬ occurs_in (header c) "".
Proof. intros (pre & post & E). by destruct pre, c. Qed.

Lemma header_in_labelled (c : Collection) (label s : string) :
  char_in "=" label = false →
  occurs_in (header c) (label +:+ s) → occurs_in (header c) s.
Proof.
  intros Hl H. destruct c; unfold header in *;
    by eapply occurs_in_past_prefix.
Qed.

(** C5, amended. For a collection whose retained list is empty the
    formatter emits no section header: the header is not among the parts
    that are joined into the context. The header string can then reach the
    context through the results' own text only: when it occurs neither in
    the query text, nor in the timestamp, nor in an entry of another
    collection, it does not occur in the context. *)
Theorem no_header_for_empty_collection (c : Collection) (sr : SearchResults)
    (st st' : State) (parts : list string) :
  results_of c sr = [] →
  build_context_parts sr st = (Ok parts, st') →
  format_context_for_llm sr st = (Ok (str_join newline parts), st) ∧
  (header c ∉ parts) ∧
  (¬ occurs_in (header c) (query_shown sr) →
   ¬ occurs_in (header c) (timestamp_shown sr) →
   (∀ c' k obj line,
      results_of c' sr !! k = Some obj → entry c' (S k) obj = Ok line →
      ¬ occurs_in (header c) line) →
   ¬ occurs_in (header c) (str_join newline parts)).
Proof.
  intros Hempty Hrun. rewrite build_context_parts_stateless in Hrun.
  injection Hrun as Hparts _.
  split; [|split].
  - rewrite format_context_for_llm_stateless. unfold expected_context.
    by rewrite Hparts.
  - intros Hin.
    destruct (expected_parts_origin sr parts Hparts _ Hin)
      as [H|H|H|c' Hne H|c' k obj Hk H].
    + by destruct c.
    + by destruct c.
    + by destruct c.
    + apply header_inj in H as ->. done.
    + by apply entry_not_header in H.
  - intros Hq Ht He Hocc.
    apply occurs_in_join in Hocc as (p & Hin & Hp);
      [| by destruct c | by destruct c].
    destruct (expected_parts_origin sr parts Hparts _ Hin)
      as [->| ->| ->|c' Hne ->|c' k obj Hk H].
    + by apply Hq, (header_in_labelled c "SEARCH QUERY: ").
    + by apply Ht, (header_in_labelled c "SEARCH TIMESTAMP: ").
    + by apply header_not_in_blank in Hp.
    + apply (header_not_in_header c c'); [congruence | done].
    + by apply (He c' k obj p).
Qed.

(** ** Missing fields *)

Lemma dict_get_missing {V} (p : gmap string V) (k : string) (d : V) :
  p !! k = None → dict_get p k d = d.
Proof. unfold dict_get. by intros ->. Qed.

(** C6, amended. The line of a result is its head, [i. [Score: s] ],
    followed by the parts of its fields in the order of [entry_body].
    A field that is missing contributes nothing, neither lead nor label:
    the rule text; the mana cost (read under [manacost]), the type, the
    power and toughness (shown only when both are there) and the text of a
    card; the date and the source of a ruling. Two fields are always
    shown: a missing name as [Unknown Card], and the text of a ruling
    under its label [Ruling: ], empty when it is missing. *)
Theorem missing_fields_in_entries (i : nat) (obj : WObject) (shown : string) :
  format_score (getattr_score (metadata obj)) = Ok shown →
  let p := properties obj in
  (∀ c, entry c i obj = Ok (entry_head i shown +:+ entry_body c p)) ∧
  (p !! "rule" = None → rule_part p = "") ∧
  (p !! "manacost" = None → mana_part p = "") ∧
  (p !! "type" = None → type_part p = "") ∧
  (p !! "power" = None ∨ p !! "toughness" = None → power_toughness_part p = "") ∧
  (p !! "text" = None → text_part p = "") ∧
  (p !! "ruling_date" = None → date_part p = "") ∧
  (p !! "source" = None → source_part p = "") ∧
  (p !! "name" = None → name_part p = "Unknown Card") ∧
  (p !! "rulings" = None → ruling_part p = newline +:+ "   Ruling: ").
Proof.
  intros Hs p. split; [intros c; by apply entry_parts |].
  unfold rule_part, mana_part, type_part, power_toughness_part, text_part,
    date_part, source_part, name_part, ruling_part, optional_part.
  repeat split; try (intros H; by rewrite (dict_get_missing _ _ _ H)).
  intros [H|H]; rewrite (dict_get_missing _ _ _ H); simpl; [done |].
  by rewrite andb_false_r.
Qed.

(** ** The key of the mana cost *)

Lemma dict_get_with_manaCost (cost : string) (p : gmap string string)
    (k d : string) :
  k ≠ "manaCost" → dict_get (<["manaCost" := cost]> p) k d = dict_get p k d.
Proof. intros Hk. unfold dict_get. by rewrite lookup_insert_ne. Qed.

Lemma card_entry_with_manaCost (cost : string) (i : nat) (obj : WObject) :
  card_entry i (with_manaCost cost obj) = card_entry i obj.
Proof.
  unfold card_entry, with_manaCost; cbn [properties metadata].
  by rewrite !dict_get_with_manaCost.
Qed.

Lemma entries_recost (f : WObject → string) (objs : list WObject) :
  ∀ start,
    entries card_entry start ((λ obj, with_manaCost (f obj) obj) <$> objs) =
    entries card_entry start objs.
Proof.
  induction objs as [|obj objs IH]; intros start; [done |].
  cbn [fmap list_fmap entries]. by rewrite card_entry_with_manaCost, IH.
Qed.

Lemma expected_context_recost (f : WObject → string) (sr : SearchResults) :
  expected_context (recost_cards f sr) = expected_context sr.
Proof.
  unfold expected_context, expected_parts, section_of, heading, query_shown,
    timestamp_shown, recost_cards; cbn [results_of rules cards rulings
    search_metadata entry].
  by rewrite entries_recost.
Qed.

(** C10. A card whose properties hold the mana cost under [manaCost] and
    have no key [manacost] gets a line without mana cost: the line is the
    head, the name, the type, the power and toughness and the text. What
    is stored under [manaCost] has no influence on the line, nor on the
    context as a whole. *)
Theorem manaCost_not_rendered (i : nat) (obj : WObject) (cost : string) :
  properties obj !! "manaCost" = Some cost →
  properties obj !! "manacost" = None →
  (∀ shown,
     format_score (getattr_score (metadata obj)) = Ok shown →
     card_entry i obj =
       Ok (entry_head i shown +:+ name_part (properties obj) +:+
           type_part (properties obj) +:+
           power_toughness_part (properties obj) +:+
           text_part (properties obj))) ∧
  (∀ cost', card_entry i (with_manaCost cost' obj) = card_entry i obj) ∧
  (∀ f sr st,
     format_context_for_llm (recost_cards f sr) st = format_context_for_llm sr st).
Proof.
  intros _ Hmissing. split; [|split].
  - intros shown Hs.
    change card_entry with (entry Cards). rewrite (entry_parts Cards i obj shown Hs).
    cbn [entry_body]. unfold mana_part, optional_part.
    by rewrite (dict_get_missing _ _ _ Hmissing).
  - intros cost'. apply card_entry_with_manaCost.
  - intros f sr st. rewrite !format_context_for_llm_stateless.
    by rewrite expected_context_recost.
Qed.

(** ** The search, collection by collection *)

(** When the comprehension completes, it is the filter by the score. *)
Lemma filter_by_score_ok (objs kept : list WObject) (min_score : float) :
  filter_by_score objs min_score = Ok kept →
  kept = List.filter (meets_min_score min_score) objs ∧ Forall has_score objs.
Proof.
  revert kept. induction objs as [|obj objs IH]; intros kept; simpl.
  - by intros [= <-].
  - unfold score_ge, meets_min_score.
    destruct (metadata obj) as [md|] eqn:Em; simpl; [|done].
    destruct (score md) as [s|] eqn:Es; simpl; [|done].
    destruct (filter_by_score objs min_score) as [kept'|]; simpl; [|done].
    destruct (IH kept' eq_refl) as [-> Hall].
    intros [= <-]. split; [done |]. constructor; [|done].
    by exists md, s.
Qed.

Lemma filter_by_score_total (objs : list WObject) (min_score : float) :
  Forall has_score objs →
  filter_by_score objs min_score =
    Ok (List.filter (meets_min_score min_score) objs).
Proof.
  induction 1 as [|obj objs (md & s & Hmd & Hs) _ IH]; simpl; [done |].
  unfold score_ge, meets_min_score. rewrite Hmd, Hs, IH. simpl.
  by destruct (PrimFloat.leb min_score s).
Qed.

Lemma filter_meets_sublist (min_score : float) (objs : list WObject) :
  List.filter (meets_min_score min_score) objs `sublist_of` objs.
Proof.
  induction objs as [|obj objs IH]; simpl; [done |].
  destruct (meets_min_score min_score obj); by constructor.
Qed.

Lemma filter_meets_scores (min_score : float) (objs : list WObject) (obj : WObject) :
  obj ∈ List.filter (meets_min_score min_score) objs →
  ∃ md s, metadata obj = Some md ∧ score md = Some s ∧
          PrimFloat.leb min_score s = true.
Proof.
  rewrite list_elem_of_In, filter_In. intros [_ H].
  unfold meets_min_score in H.
  destruct (metadata obj) as [md|]; [|done].
  destruct (score md) as [s|] eqn:Es; [|done]. by exists md, s.
Qed.

(** The retained objects are candidates, in the order of the reply, and
    each has a score that passed the test. *)
Lemma retained_sublist (reply : result QueryReturn) (min_score : float) :
  retained reply min_score `sublist_of` candidates reply.
Proof.
  unfold retained, candidates. destruct reply as [response|]; simpl; [|done].
  destruct (filter_by_score (objects response) min_score) as [kept|] eqn:E.
  - apply filter_by_score_ok in E as [-> _]. apply filter_meets_sublist.
  - apply sublist_nil_l.
Qed.

Lemma retained_scores (reply : result QueryReturn) (min_score : float)
    (obj : WObject) :
  obj ∈ retained reply min_score →
  ∃ md s, metadata obj = Some md ∧ score md = Some s ∧
          PrimFloat.leb min_score s = true.
Proof.
  unfold retained. destruct reply as [response|]; simpl.
  - destruct (filter_by_score (objects response) min_score) as [kept|] eqn:E.
    + apply filter_by_score_ok in E as [-> _]. apply filter_meets_scores.
    + by intros ?%elem_of_nil.
  - by intros ?%elem_of_nil.
Qed.

(** ** Runs of the search *)

Lemma extend_extend st n1 l1 c1 n2 l2 c2 :
  extend (extend st n1 l1 c1) n2 l2 c2 =
  extend st (n2 + n1) (l1 ++ l2) (c1 ++ c2).
Proof.
  unfold extend; cbn [st_self st_clock st_tick st_log st_calls].
  f_equal; [lia | by rewrite app_assoc..].
Qed.

Lemma extend_id st : extend st 0 [] [] = st.
Proof. destruct st. unfold extend; simpl. by rewrite !app_nil_r. Qed.

Lemma logger_run level msg st :
  logger level msg st = (Ok tt, extend st 0 [(level, msg)] []).
Proof. unfold logger, extend. by rewrite app_nil_r. Qed.

Lemma external_run {A} call (answer : result A) st :
  external call answer st = (answer, extend st 0 [] [call]).
Proof. unfold external, extend. by rewrite app_nil_r. Qed.

Lemma datetime_now_isoformat_run st :
  datetime_now_isoformat st = (Ok (st_clock st (st_tick st)), extend st 1 [] []).
Proof. unfold datetime_now_isoformat, extend. by rewrite !app_nil_r. Qed.

(** One block of the search never raises: it stores the retained list of
    its collection, logs one line and makes the calls of [search_calls]. *)
Lemma search_collection_run c query_text limits min_score results st :
  ∃ msg,
    search_collection c query_text limits min_score results st =
      (Ok (set_results c
             (retained (search_reply (st_self st) c query_text limits) min_score)
             results),
       extend st 0 [msg] (search_calls (st_self st) c query_text limits)).
Proof.
  unfold search_collection, try_except, bind, get_self, lift, ret, retained,
    search_reply, search_calls.
  destruct (getitem (collections (st_self st)) (key c)) as [name|e1];
    cbn [res_bind]; [|rewrite logger_run; by eexists].
  rewrite external_run.
  destruct (collections_get (client (st_self st)) name) as [handle|e2];
    cbn [res_bind]; [|rewrite logger_run, extend_extend; by eexists].
  destruct (getitem limits (key c)) as [limit|e3];
    cbn [res_bind]; [|rewrite logger_run, extend_extend; by eexists].
  rewrite external_run, extend_extend. cbn [st_self extend].
  destruct (near_text (client (st_self st)) handle query_text limit)
    as [response|e4]; cbn [res_bind]; [|rewrite logger_run, extend_extend; by eexists].
  destruct (filter_by_score (objects response) min_score) as [kept|e5];
    rewrite logger_run, extend_extend; by eexists.
Qed.

Lemma results_of_searched self query_text timestamp limits min_score c :
  results_of c (searched self query_text timestamp limits min_score) =
  retained (search_reply self c query_text limits) min_score.
Proof. by destruct c. Qed.

(** [search_all_collections] never raises. It reads the clock once, logs
    four lines and makes the calls of the three blocks in turn. *)
Lemma search_all_collections_run query_text limits min_score st :
  ∃ log,
    search_all_collections query_text limits min_score st =
      (Ok (searched (st_self st) query_text (st_clock st (st_tick st))
             (limits_in_force limits) (min_score_in_force min_score)),
       extend st 1 log
         (search_calls (st_self st) Rules query_text (limits_in_force limits) ++
          search_calls (st_self st) Cards query_text (limits_in_force limits) ++
          search_calls (st_self st) Rulings query_text (limits_in_force limits))).
Proof.
  unfold search_all_collections.
  replace (match limits with Some l => l | None => default_limits end)
    with (limits_in_force limits) by by destruct limits.
  fold (min_score_in_force min_score).
  unfold bind at 1. rewrite datetime_now_isoformat_run.
  unfold bind at 1. rewrite logger_run, extend_extend.
  unfold bind at 1.
  edestruct (search_collection_run Rules) as [m1 ->].
  rewrite extend_extend. unfold bind at 1.
  edestruct (search_collection_run Cards) as [m2 ->].
  rewrite extend_extend. unfold bind at 1.
  edestruct (search_collection_run Rulings) as [m3 ->].
  rewrite extend_extend. unfold ret. cbn [st_self extend set_results rules cards rulings search_metadata].
  eexists. unfold searched. f_equal. f_equal; try lia.
  by rewrite <- !app_assoc.
Qed.

(** C1. Whatever the query, the limits and the threshold: when the search
    collaborator returns at most [limits[key]] candidates for a collection
    (a failed search returns none), the list [search_all_collections]
    retains for that collection has at most [limits[key]] entries, they are
    candidates in the order of the reply, and each has a score that is at
    least the threshold. *)
Theorem retained_within_limit_and_threshold (query_text : string)
    (limits : option (gmap string Z)) (min_score : option float)
    (c : Collection) (lim : Z) (st : State) :
  limits_in_force limits !! key c = Some lim →
  Z.of_nat (length (candidates
    (search_reply (st_self st) c query_text (limits_in_force limits)))) ≤ lim →
  ∃ sr st',
    search_all_collections query_text limits min_score st = (Ok sr, st') ∧
    Z.of_nat (length (results_of c sr)) ≤ lim ∧
    results_of c sr `sublist_of`
      candidates (search_reply (st_self st) c query_text (limits_in_force limits)) ∧
    ∀ obj, obj ∈ results_of c sr →
      ∃ md s, metadata obj = Some md ∧ score md = Some s ∧
              PrimFloat.leb (min_score_in_force min_score) s = true.
Proof.
  intros _ Hbound.
  destruct (search_all_collections_run query_text limits min_score st) as [log ->].
  eexists _, _. split; [done |]. rewrite results_of_searched.
  pose proof (retained_sublist
    (search_reply (st_self st) c query_text (limits_in_force limits))
    (min_score_in_force min_score)) as Hsub.
  split; [|split; [done |]].
  - apply sublist_length in Hsub. lia.
  - intros obj. apply retained_scores.
Qed.

(** C2. When the search raises for a collection, [search_all_collections]
    still returns: the list of that collection is empty, and the list of
    each other collection is what its own reply gives, filtered by the
    score, the same as in any run in which that reply is the same. *)
Theorem search_failure_is_local (query_text : string)
    (limits : option (gmap string Z)) (min_score : option float)
    (c : Collection) (e : exn) (st : State) :
  search_reply (st_self st) c query_text (limits_in_force limits) = Raise e →
  ∃ sr st',
    search_all_collections query_text limits min_score st = (Ok sr, st') ∧
    results_of c sr = [] ∧
    (∀ c' response,
       c' ≠ c →
       search_reply (st_self st) c' query_text (limits_in_force limits) = Ok response →
       Forall has_score (objects response) →
       results_of c' sr =
         List.filter (meets_min_score (min_score_in_force min_score))
           (objects response)) ∧
    (∀ c' st2 sr2 st2',
       c' ≠ c →
       search_reply (st_self st2) c' query_text (limits_in_force limits) =
         search_reply (st_self st) c' query_text (limits_in_force limits) →
       search_all_collections query_text limits min_score st2 = (Ok sr2, st2') →
       results_of c' sr2 = results_of c' sr).
Proof.
  intros Hraise.
  destruct (search_all_collections_run query_text limits min_score st) as [log ->].
  eexists _, _. split; [done |]. split; [|split].
  - rewrite results_of_searched. unfold retained. by rewrite Hraise.
  - intros c' response _ Hreply Hscores. rewrite results_of_searched.
    unfold retained. rewrite Hreply. cbn [res_bind].
    by rewrite filter_by_score_total.
  - intros c' st2 sr2 st2' _ Hsame.
    destruct (search_all_collections_run query_text limits min_score st2) as [log2 ->].
    intros [= <- _]. rewrite !results_of_searched. by rewrite Hsame.
Qed.

(** ** Runs of the generation and of the pipeline *)

(** [generate_answer] never raises; it logs at most one line and makes one
    call, with the request of [chat_request]. *)
Lemma generate_answer_run question context temperature st :
  let request :=
    chat_request (st_self st) question context (temperature_in_force temperature) in
  ∃ log,
    generate_answer question context temperature st =
      (Ok (generated (chat_completions_create (openai_client (st_self st)) request)),
       extend st 0 log [CallChatCreate request]).
Proof.
  intros request. unfold generate_answer, try_except, bind, get_self, lift, ret.
  fold (temperature_in_force temperature). fold request.
  rewrite external_run. unfold generated.
  destruct (chat_completions_create (openai_client (st_self st)) request)
    as [response|e].
  - destruct (choices response) as [|content ?].
    + rewrite logger_run, extend_extend. by eexists.
    + exists []. done.
  - rewrite logger_run, extend_extend. by eexists.
Qed.

(** The formatter does not raise on results that all have a score. *)
Lemma expected_context_scored (sr : SearchResults) :
  (∀ c obj, obj ∈ results_of c sr → has_score obj) →
  ∃ text, expected_context sr = Ok text.
Proof.
  intros Hs.
  assert (∀ c, ∃ lines, entries (entry c) 1 (results_of c sr) = Ok lines) as H.
  { intros c. apply entries_total. intros k obj Hk.
    destruct (Hs c obj) as (md & s & Hmd & Hsc); [by eapply list_elem_of_lookup_2 |].
    eexists. apply entry_parts. unfold getattr_score. by rewrite Hmd, Hsc. }
  unfold expected_context, expected_parts, section_of.
  destruct (H Rules) as [l1 ->], (H Cards) as [l2 ->], (H Rulings) as [l3 ->].
  by eexists.
Qed.

Lemma searched_scored self query_text timestamp limits min_score c obj :
  obj ∈ results_of c (searched self query_text timestamp limits min_score) →
  has_score obj.
Proof.
  rewrite results_of_searched. intros (md & s & ? & ? & _)%retained_scores.
  by exists md, s.
Qed.

(** [answer_question] never raises: it returns the record of the answer
    that [generate_answer] gave on the context of the search results. *)
Lemma answer_question_run question limits min_score temperature include_debug st :
  let sr :=
    searched (st_self st) question (st_clock st (st_tick st))
      (limits_in_force limits) (min_score_in_force min_score) in
  ∃ context log calls,
    expected_context sr = Ok context ∧
    answer_question question limits min_score temperature include_debug st =
      (Ok {| ar_question := question;
             ar_answer :=
               generated (chat_completions_create (openai_client (st_self st))
                 (chat_request (st_self st) question context
                    (temperature_in_force temperature)));
             ar_timestamp := Some (st_clock st (S (st_tick st)));
             ar_sources_found :=
               Some {| src_rules := length (rules sr);
                       src_cards := length (cards sr);
                       src_rulings := length (rulings sr) |};
             ar_debug :=
               if default false include_debug then
                 Some {| dbg_search_results := sr;
                         dbg_formatted_context := context;
                         dbg_search_params :=
                           {| sp_limits := limits;
                              sp_min_score := min_score_in_force min_score;
                              sp_temperature := temperature_in_force temperature |} |}
               else None;
             ar_error := None |},
       extend st 2 log calls).
Proof.
  intros sr.
  destruct (expected_context_scored sr) as [context Hctx].
  { intros c obj. apply searched_scored. }
  exists context. unfold answer_question.
  fold (min_score_in_force min_score) (temperature_in_force temperature).
  unfold bind at 1. rewrite logger_run.
  unfold bind at 1.
  edestruct (search_all_collections_run question limits
    (Some (min_score_in_force min_score))) as [log1 ->].
  rewrite extend_extend. cbn [st_self st_clock st_tick extend].
  rewrite Nat.add_0_l. change (min_score_in_force (Some ?x)) with x.
  fold sr. unfold bind at 1. rewrite format_context_for_llm_stateless, Hctx.
  unfold bind at 1.
  edestruct (generate_answer_run question context
    (Some (temperature_in_force temperature))) as [log2 ->].
  rewrite extend_extend. cbn [st_self st_clock st_tick extend].
  change (temperature_in_force (Some ?x)) with x.
  unfold bind at 1. rewrite datetime_now_isoformat_run, extend_extend.
  cbn [st_self st_clock st_tick extend].
  unfold bind at 1. rewrite logger_run, extend_extend. unfold ret.
  eexists _, _. split; [done |]. reflexivity.
Qed.

(** C3. For every question, context and temperature: when the generation
    collaborator raises on the request that [generate_answer] submits,
    [generate_answer] does not raise; it returns the text that ends with
    the message of the exception. [answer_question] does not raise
    either: the request it submits carries the context that the formatter
    made of the results of its search, and when the collaborator raises on
    that request, the answer of the record it returns is that text. *)
Theorem generation_failure_is_reported (question : string)
    (limits : option (gmap string Z)) (min_score temperature : option float)
    (include_debug : option bool) (st : State) :
  (∀ context e,
     chat_completions_create (openai_client (st_self st))
       (chat_request (st_self st) question context
          (temperature_in_force temperature)) = Raise e →
     ∃ st',
       generate_answer question context temperature st =
         (Ok ("I encountered an error while generating the answer: " +:+ exn_str e),
          st')) ∧
  (∃ sr st1 context record st',
     search_all_collections question limits min_score st = (Ok sr, st1) ∧
     format_context_for_llm sr st1 = (Ok context, st1) ∧
     answer_question question limits min_score temperature include_debug st =
       (Ok record, st') ∧
     ar_question record = question ∧
     ∀ e,
       chat_completions_create (openai_client (st_self st))
         (chat_request (st_self st) question context
            (temperature_in_force temperature)) = Raise e →
       ar_answer record =
         "I encountered an error while generating the answer: " +:+ exn_str e).
Proof.
  split.
  - intros context e Hraise.
    destruct (generate_answer_run question context temperature st) as [log ->].
    cbv zeta. rewrite Hraise. by eexists.
  - destruct (search_all_collections_run question limits min_score st)
      as [log1 Hsearch].
    destruct (answer_question_run question limits min_score temperature
      include_debug st) as (context & log & calls & Hcontext & ->).
    eexists _, _, context, _, _. split; [exact Hsearch |].
    split; [by rewrite format_context_for_llm_stateless, Hcontext |].
    split; [done |]. split; [done |].
    intros e Hraise. cbn [ar_answer]. by rewrite Hraise.
Qed.

(** C9. With [limits] and [min_score] omitted, [search_all_collections]
    searches with the limits [{rules: 3, cards: 3, rulings: 3}] and the
    threshold [0.7] and records them in the metadata; each [near_text]
    call it makes has limit 3. With [temperature] omitted,
    [generate_answer] submits one request, with temperature [0.1] and
    [max_tokens = 1000]; the latter whatever the temperature. *)
Theorem defaults_of_omitted_parameters (query_text question context : string)
    (st : State) :
  let limits : gmap string Z := {[ "rules" := 3; "cards" := 3; "rulings" := 3 ]} in
  (∃ log,
     search_all_collections query_text None None st =
       (Ok (searched (st_self st) query_text (st_clock st (st_tick st))
              limits 0x1.6666666666666p-1),
        extend st 1 log
          (search_calls (st_self st) Rules query_text limits ++
           search_calls (st_self st) Cards query_text limits ++
           search_calls (st_self st) Rulings query_text limits))) ∧
  (∀ c handle query limit,
     CallNearText handle query limit ∈ search_calls (st_self st) c query_text limits →
     query = query_text ∧ limit = 3) ∧
  (∀ temperature, ∃ log request,
     generate_answer question context temperature st =
       (Ok (generated (chat_completions_create (openai_client (st_self st)) request)),
        extend st 0 log [CallChatCreate request]) ∧
     req_temperature request = default 0x1.999999999999ap-4%float temperature ∧
     req_max_tokens request = 1000).
Proof.
  intros limits. split; [|split].
  - apply (search_all_collections_run query_text None None st).
  - intros c handle query limit. unfold search_calls.
    assert (getitem limits (key c) = Ok 3) as -> by by destruct c.
    destruct (getitem (collections (st_self st)) (key c)) as [name|];
      [|by intros ?%elem_of_nil].
    destruct (collections_get (client (st_self st)) name) as [h|].
    + rewrite !elem_of_cons. intros [?|[[= -> -> ->]|?%elem_of_nil]]; done.
    + rewrite !elem_of_cons. intros [?|?%elem_of_nil]; done.
  - intros temperature.
    destruct (generate_answer_run question context temperature st) as [log H].
    by eexists _, _.
Qed.

(** The literals [0.7] and [0.1] denote the doubles nearest to 7/10 and
    to 1/10: [m * 2^e] with the distance to the fraction at most half a
    unit in the last place. *)
Example default_min_score_value :
  Prim2SF default_min_score = S754_finite false 6305039478318694 (-53) ∧
  Z.abs (10 * 6305039478318694 - 7 * 2 ^ 53) ≤ 5.
Proof. split; [by vm_compute | by vm_compute]. Qed.

Example default_temperature_value :
  Prim2SF default_temperature = S754_finite false 7205759403792794 (-56) ∧
  Z.abs (10 * 7205759403792794 - 2 ^ 56) ≤ 5.
Proof. split; [by vm_compute | by vm_compute]. Qed.

(** ** The batch *)

(** A turn never raises and appends one record, the one of its question. *)
Lemma batch_turn_run
    (answer_question_method : string → Kwargs → Py AnswerRecord)
    (kwargs : Kwargs) (total i : nat) (question : string)
    (results : list AnswerRecord) (st : State) :
  ∃ record st',
    batch_turn answer_question_method kwargs total i question results st =
      (Ok (results ++ [record]), st') ∧
    batch_record answer_question_method kwargs question record.
Proof.
  unfold batch_turn, try_except, bind. rewrite logger_run.
  destruct (answer_question_method question kwargs
              (extend st 0 [(INFO, _)] [])) as [[result|e] st1] eqn:E.
  - exists result. eexists. split; [done |]. eexists. by rewrite E.
  - rewrite logger_run. exists (error_record question e). eexists.
    split; [done |]. eexists. by rewrite E.
Qed.

(** The loop of the batch from any turn on: it never raises and appends
    one record per remaining question, in order. *)
Lemma batch_loop_run
    (answer_question_method : string → Kwargs → Py AnswerRecord)
    (kwargs : Kwargs) (total : nat) (questions : list string) :
  ∀ start results st,
    ∃ more st',
      for_enumerate start questions
        (batch_turn answer_question_method kwargs total) results st =
        (Ok (results ++ more), st') ∧
      Forall2 (batch_record answer_question_method kwargs) questions more.
Proof.
  induction questions as [|question questions IH]; intros start results st.
  - exists [], st. simpl. unfold ret. by rewrite app_nil_r.
  - cbn [for_enumerate]. unfold bind.
    destruct (batch_turn_run answer_question_method kwargs total start question
                results st) as (record & st1 & -> & Hrec).
    destruct (IH (S start) (results ++ [record]) st1) as (more & st' & -> & Hall).
    exists (record :: more), st'. split; [by rewrite <- app_assoc |].
    by constructor.
Qed.


(** On an instance with the method of the class every question is
    answered: [answer_question] does not raise, so no record is an error
    record. *)
Lemma batch_of_class_answers_all (questions : list string) (kwargs : Kwargs)
    (st : State) :
  ∃ results st',
    MTGRAGPipeline_batch_answer_questions questions kwargs st = (Ok results, st') ∧
    length results = length questions ∧
    ∀ k question, questions !! k = Some question →
      ∃ record, results !! k = Some record ∧
                ar_question record = question ∧ ar_error record = None.
Proof.
  unfold MTGRAGPipeline_batch_answer_questions.
  unfold batch_answer_questions.
  destruct (batch_loop_run call_answer_question kwargs (length questions)
              questions 1 [] st) as (results & st' & -> & Hall).
  exists results, st'. split; [done |].
  split; [symmetry; by eapply Forall2_length |].
  intros k question Hk.
  destruct (Forall2_lookup_l _ _ _ _ _ Hall Hk) as (record & Hr & st_call & H).
  exists record. split; [done |]. unfold call_answer_question in H.
  destruct (answer_question_run question (kw_limits kwargs) (kw_min_score kwargs)
    (kw_temperature kwargs) (kw_include_debug kwargs) st_call)
    as (context & log & calls & _ & Hrun').
  rewrite Hrun' in H. cbn [fst] in H. by subst record.
Qed.

(** ** Runs on stub collaborators *)

(** The example of the specification, end to end: the rules hit at 0.9 is
    retained, the cards hit at 0.5 is not, and the context has the rules
    section with one entry and no cards section. *)
Example trample_search :
  fst (search_all_collections "How does trample work?" (Some stub_limits)
         (Some default_min_score) stub_state) = Ok trample_results.
Proof. vm_compute. reflexivity. Qed.

Example trample_context :
  format_context_for_llm trample_results stub_state =
    (Ok (str_join newline trample_parts), stub_state).
Proof. vm_compute. reflexivity. Qed.

Lemma retained_within_limit_and_threshold_witness :
  limits_in_force (Some stub_limits) !! key Cards = Some 1 ∧
  Z.of_nat (length (candidates
    (search_reply (st_self stub_state) Cards "How does trample work?"
       (limits_in_force (Some stub_limits))))) ≤ 1 ∧
  ∃ sr st',
    search_all_collections "How does trample work?" (Some stub_limits) None
      stub_state = (Ok sr, st') ∧
    Z.of_nat (length (results_of Cards sr)) ≤ 1 ∧
    results_of Cards sr `sublist_of`
      candidates (search_reply (st_self stub_state) Cards "How does trample work?"
                    (limits_in_force (Some stub_limits))) ∧
    ∀ obj, obj ∈ results_of Cards sr →
      ∃ md s, metadata obj = Some md ∧ score md = Some s ∧
              PrimFloat.leb (min_score_in_force None) s = true.
Proof.
  split; [by vm_compute |]. split; [by vm_compute |].
  apply (retained_within_limit_and_threshold "How does trample work?"
           (Some stub_limits) None Cards 1 stub_state); by vm_compute.
Defined.

Lemma search_failure_is_local_witness :
  search_reply (st_self stub_state) Rulings "How does trample work?"
    (limits_in_force (Some stub_limits)) =
    Raise (Exn "WeaviateQueryError" "query timed out") ∧
  ∃ sr st',
    search_all_collections "How does trample work?" (Some stub_limits) None
      stub_state = (Ok sr, st') ∧
    results_of Rulings sr = [] ∧
    results_of Rules sr = [trample_rule].
Proof.
  split; [by vm_compute |].
  destruct (search_failure_is_local "How does trample work?" (Some stub_limits)
              None Rulings (Exn "WeaviateQueryError" "query timed out") stub_state)
    as (sr & st' & Hrun & Hempty & Hothers & _); [by vm_compute |].
  exists sr, st'. split; [done |]. split; [done |].
  rewrite (Hothers Rules {| objects := [trample_rule] |});
    [by vm_compute | done | by vm_compute |].
  repeat constructor. by eexists _, _.
Defined.

Lemma generation_failure_is_reported_witness :
  chat_completions_create
    (openai_client (st_self (stub_state_with selective_openai)))
    (chat_request (st_self (stub_state_with selective_openai))
       "How does flying work?" "" default_temperature) =
    Ok {| choices := ["It can be blocked only by flying or reach."] |} ∧
  ∃ record st',
    answer_question "How does trample work?" (Some stub_limits) None None None
      (stub_state_with selective_openai) = (Ok record, st') ∧
    ar_answer record =
      "I encountered an error while generating the answer: quota exceeded".
Proof.
  split; [by vm_compute |].
  destruct (generation_failure_is_reported "How does trample work?"
              (Some stub_limits) None None None (stub_state_with selective_openai))
    as (_ & sr & st1 & context & record & st' & Hsearch & Hformat & Hrun & _ & Hanswer).
  exists record, st'. split; [done |].
  apply (Hanswer (Exn "RateLimitError" "quota exceeded")).
  vm_compute in Hsearch. injection Hsearch as <- <-.
  vm_compute in Hformat. injection Hformat as <-.
  by vm_compute.
Defined.

(** C5 as stated fails: the rules list is empty, and the context still
    contains the string of the rules header, in the line of the query. *)
Lemma header_string_in_query_counterexample :
  results_of Rules header_query_results = [] ∧
  fst (format_context_for_llm header_query_results stub_state) =
    Ok ("SEARCH QUERY: === OFFICIAL RULES ===" +:+ newline +:+
        "SEARCH TIMESTAMP: 2024-01-01T00:00:00" +:+ newline) ∧
  occurs_in (header Rules)
    ("SEARCH QUERY: === OFFICIAL RULES ===" +:+ newline +:+
     "SEARCH TIMESTAMP: 2024-01-01T00:00:00" +:+ newline).
Proof.
  split; [done |]. split; [by vm_compute |].
  exists "SEARCH QUERY: ", (newline +:+ "SEARCH TIMESTAMP: 2024-01-01T00:00:00" +:+ newline).
  by vm_compute.
Qed.

Lemma no_header_for_empty_collection_witness :
  results_of Cards trample_results = [] ∧
  build_context_parts trample_results stub_state = (Ok trample_parts, stub_state) ∧
  (header Cards ∉ trample_parts) ∧
  ¬ occurs_in (header Cards) (str_join newline trample_parts).
Proof.
  split; [done |]. split; [by vm_compute |].
  destruct (no_header_for_empty_collection Cards trample_results stub_state
              stub_state trample_parts) as (_ & Hparts & Htext);
    [done | by vm_compute |].
  split; [done |]. apply Htext.
  - apply not_occurs_in. by vm_compute.
  - apply not_occurs_in. by vm_compute.
  - intros c' k obj line Hk Hline. apply not_occurs_in.
    destruct c', k as [|[|k]]; try done.
    injection Hk as <-. vm_compute in Hline. injection Hline as <-.
    by vm_compute.
Defined.

(** C6 as stated fails: the ruling has neither name nor ruling text, and
    its entry still shows a placeholder for the name and the label of the
    ruling. *)
Lemma missing_name_and_ruling_counterexample :
  properties bare_ruling !! "name" = None ∧
  properties bare_ruling !! "rulings" = None ∧
  fst (format_context_for_llm bare_ruling_results stub_state) =
    Ok ("SEARCH QUERY: protection" +:+ newline +:+
        "SEARCH TIMESTAMP: 2024-01-01T00:00:00" +:+ newline +:+
        newline +:+
        "=== OFFICIAL RULINGS ===" +:+ newline +:+
        "1. [Score: 0.900] Unknown Card" +:+ newline +:+
        "   Ruling: " +:+ newline) ∧
  ruling_entry 1 bare_ruling =
    Ok ("1. [Score: 0.900] Unknown Card" +:+ newline +:+ "   Ruling: ").
Proof. repeat split; by vm_compute. Qed.

Lemma missing_fields_in_entries_witness :
  format_score (getattr_score (metadata dreadmaw_card)) = Ok "0.500" ∧
  card_entry 3 dreadmaw_card =
    Ok ("3. [Score: 0.500] Colossal Dreadmaw - Creature (6/6)" +:+ newline +:+
        "   Text: Trample") ∧
  mana_part (properties dreadmaw_card) = "".
Proof.
  split; [by vm_compute |].
  destruct (missing_fields_in_entries 3 dreadmaw_card "0.500")
    as (Hentry & _ & Hmana & _); [by vm_compute |].
  split; [|apply Hmana; by vm_compute].
  change (card_entry 3 dreadmaw_card) with (entry Cards 3 dreadmaw_card).
  rewrite (Hentry Cards). by vm_compute.
Defined.

(** C8 as stated fails: the rules are not empty, and the formatter raises
    on a score that is [None], and shows a score that is not a number or
    is infinite by its name, without decimals. *)
Lemma score_without_decimals_counterexample :
  rules (one_rule_results unscored_rule) ≠ [] ∧
  fst (format_context_for_llm (one_rule_results unscored_rule) stub_state) =
    Raise (TypeError "unsupported format string passed to NoneType.__format__") ∧
  fst (format_context_for_llm (one_rule_results nan_rule) stub_state) =
    Ok (str_join newline
          [ "SEARCH QUERY: How does trample work?";
            "SEARCH TIMESTAMP: 2024-01-01T00:00:00";
            "";
            "=== OFFICIAL RULES ===";
            "1. [Score: nan] 702.19. Trample";
            "" ]) ∧
  fst (format_context_for_llm (one_rule_results infinite_rule) stub_state) =
    Ok (str_join newline
          [ "SEARCH QUERY: How does trample work?";
            "SEARCH TIMESTAMP: 2024-01-01T00:00:00";
            "";
            "=== OFFICIAL RULES ===";
            "1. [Score: inf] 702.19. Trample";
            "" ]) ∧
  ¬ three_decimals "nan" ∧ ¬ three_decimals "inf".
Proof.
  assert (∀ s, three_decimals s → char_in "." s = true) as Hpoint.
  { intros s (sign & whole & d1 & d2 & d3 & -> & _).
    rewrite !char_in_append. cbn [char_in Ascii.eqb Bool.eqb].
    by rewrite !orb_true_r. }
  split; [done |]. split; [by vm_compute |]. split; [by vm_compute |].
  split; [by vm_compute |].
  split; intros H%Hpoint; by vm_compute in H.
Qed.

Lemma format_context_for_llm_layout_witness :
  (∀ c obj, obj ∈ results_of c trample_results → finite_score obj) ∧
  ∃ rule_lines,
    format_context_for_llm trample_results stub_state =
      (Ok (str_join newline
             (heading trample_results ++ section Rules rule_lines)), stub_state) ∧
    listing Rules [trample_rule] rule_lines.
Proof.
  assert (∀ c obj, obj ∈ results_of c trample_results → finite_score obj) as Hfin.
  { intros [] obj; cbn [results_of trample_results rules cards rulings];
      [intros ->%list_elem_of_singleton; eexists; split; [done | by vm_compute]
      | by intros ?%elem_of_nil..]. }
  split; [done |].
  destruct (format_context_for_llm_layout trample_results stub_state Hfin)
    as (l1 & l2 & l3 & Hrun & L1 & [Hlen2 _] & [Hlen3 _]).
  destruct l2; [|done]. destruct l3; [|done].
  exists l1. split; [|done]. rewrite Hrun. cbn [section]. by rewrite !app_nil_r.
Defined.

Lemma manaCost_not_rendered_witness :
  properties dreadmaw_card !! "manaCost" = Some "4GG" ∧
  properties dreadmaw_card !! "manacost" = None ∧
  card_entry 1 dreadmaw_card =
    Ok ("1. [Score: 0.500] Colossal Dreadmaw - Creature (6/6)" +:+ newline +:+
        "   Text: Trample") ∧
  card_entry 1 (with_manaCost "1R" dreadmaw_card) = card_entry 1 dreadmaw_card.
Proof.
  split; [by vm_compute |]. split; [by vm_compute |].
  destruct (manaCost_not_rendered 1 dreadmaw_card "4GG")
    as (Hline & Hany & _); [by vm_compute | by vm_compute |].
  split; [|apply Hany].
  rewrite (Hline "0.500"); by vm_compute.
Defined.

(** The batch of the specification: three questions, the second fails. *)
Example batch_of_three :
  ∃ first third st',
    batch_answer_questions flaky_answer_question ["first"; "second"; "third"]
      no_kwargs stub_state =
      (Ok [first; error_record "second" (Exn "RuntimeError" "boom"); third], st') ∧
    ar_error (error_record "second" (Exn "RuntimeError" "boom")) = Some true ∧
    ar_answer (error_record "second" (Exn "RuntimeError" "boom")) =
      "Error processing question: boom" ∧
    ar_question first = "first" ∧ ar_error first = None ∧
    ar_answer first = "Excess damage is dealt to the player." ∧
    ar_question third = "third" ∧ ar_error third = None ∧
    ar_answer third = "Excess damage is dealt to the player.".
Proof.
  destruct (batch_answer_questions flaky_answer_question
              ["first"; "second"; "third"] no_kwargs stub_state)
    as [[[|r1 [|r2 [|r3 [|]]]]|] st'] eqn:E;
    vm_compute in E; try done.
  injection E as <- <- <- _. eexists _, _, _. split; [reflexivity |].
  by vm_compute.
Qed.

(** * Further properties *)

(** ** The log and the calls of a search *)

Lemma search_collection_trace c query_text limits min_score results st :
  search_collection c query_text limits min_score results st =
    (Ok (set_results c
           (retained (search_reply (st_self st) c query_text limits) min_score)
           results),
     extend st 0 [search_log_line (st_self st) c query_text limits min_score]
       (search_calls (st_self st) c query_text limits)).
Proof.
  unfold search_collection, try_except, bind, get_self, lift, ret, retained,
    search_log_line, search_reply, search_calls.
  destruct (getitem (collections (st_self st)) (key c)) as [name|e1];
    cbn [res_bind]; [|by rewrite logger_run].
  rewrite external_run.
  destruct (collections_get (client (st_self st)) name) as [handle|e2];
    cbn [res_bind]; [|by rewrite logger_run, extend_extend].
  destruct (getitem limits (key c)) as [limit|e3];
    cbn [res_bind]; [|by rewrite logger_run, extend_extend].
  rewrite external_run, extend_extend. cbn [st_self extend].
  destruct (near_text (client (st_self st)) handle query_text limit)
    as [response|e4]; cbn [res_bind]; [|by rewrite logger_run, extend_extend].
  destruct (filter_by_score (objects response) min_score) as [kept|e5];
    by rewrite logger_run, extend_extend.
Qed.

Lemma search_all_collections_trace query_text limits min_score st :
  search_all_collections query_text limits min_score st =
    (Ok (searched (st_self st) query_text (st_clock st (st_tick st))
           (limits_in_force limits) (min_score_in_force min_score)),
     extend st 1
       (search_log (st_self st) query_text (limits_in_force limits)
          (min_score_in_force min_score))
       (all_search_calls (st_self st) query_text (limits_in_force limits))).
Proof.
  unfold search_all_collections.
  replace (match limits with Some l => l | None => default_limits end)
    with (limits_in_force limits) by by destruct limits.
  fold (min_score_in_force min_score).
  unfold bind at 1. rewrite datetime_now_isoformat_run.
  unfold bind at 1. rewrite logger_run, extend_extend.
  unfold bind at 1. rewrite search_collection_trace, extend_extend.
  unfold bind at 1. rewrite search_collection_trace, extend_extend.
  unfold bind at 1. rewrite search_collection_trace, extend_extend.
  unfold ret. cbn [st_self extend set_results rules cards rulings search_metadata].
  unfold searched, search_log, all_search_calls. f_equal. f_equal; try lia.
  by rewrite <- !app_assoc.
Qed.

(** X1. [search_all_collections] never raises and leaves the pipeline object
    as it was. It reads the clock once, logs four lines (the announcement,
    then one line per collection: the count found, or the message of the
    exception that ended the block) and calls the collaborator at most six
    times, for the rules, then the cards, then the rulings. *)
Theorem search_all_collections_effects (query_text : string)
    (limits : option (gmap string Z)) (min_score : option float) (st : State) :
  let self := st_self st in
  let L := limits_in_force limits in
  let T := min_score_in_force min_score in
  ∃ sr st',
    search_all_collections query_text limits min_score st = (Ok sr, st') ∧
    st_self st' = self ∧ st_clock st' = st_clock st ∧
    st_tick st' = S (st_tick st) ∧
    st_log st' =
      st_log st ++
      [ (INFO, "Searching all collections for: '" +:+ query_text +:+ "'");
        search_log_line self Rules query_text L T;
        search_log_line self Cards query_text L T;
        search_log_line self Rulings query_text L T ] ∧
    (∀ c,
       match res_bind (search_reply self c query_text L)
               (λ response, filter_by_score (objects response) T) with
       | Ok kept =>
           results_of c sr = kept ∧
           ∃ total,
             search_log_line self c query_text L T =
               (INFO, "Found " +:+ str_of_nat (length kept) +:+ " relevant " +:+
                      key c +:+ " (from " +:+ str_of_nat total +:+ " total)")
       | Raise e =>
           results_of c sr = [] ∧
           search_log_line self c query_text L T =
             (ERROR, "Error searching " +:+ key c +:+ ": " +:+ exn_str e)
       end) ∧
    st_calls st' =
      st_calls st ++ search_calls self Rules query_text L ++
      search_calls self Cards query_text L ++ search_calls self Rulings query_text L ∧
    (∀ c, length (search_calls self c query_text L) ≤ 2)%nat.
Proof.
  intros self L T. rewrite search_all_collections_trace.
  eexists _, _. split; [done |]. cbn [extend st_self st_clock st_tick st_log st_calls].
  split; [done |]. split; [done |]. split; [done |]. split; [done |].
  split; [|split; [done |]].
  - intros c. rewrite results_of_searched. unfold retained, search_log_line.
    fold self L T.
    destruct (search_reply self c query_text L) as [response|e]; cbn [res_bind];
      [|done].
    destruct (filter_by_score (objects response) T) as [kept|e]; [|done].
    split; [done |]. by eexists.
  - intros c. unfold search_calls.
    destruct (getitem (collections self) (key c)); [|simpl; lia].
    destruct (collections_get (client self) _); [|simpl; lia].
    destruct (getitem L (key c)); simpl; lia.
Qed.

Lemma filter_by_score_raises (objs : list WObject) (min_score : float) :
  ¬ Forall has_score objs → is_raise (filter_by_score objs min_score).
Proof.
  intros H. destruct (filter_by_score objs min_score) as [kept|e] eqn:E; [|done].
  by apply filter_by_score_ok in E as [_ ?].
Qed.

(** X2. When the reply for a collection is a response, the list retained
    for it is exactly the candidates whose score is at least the threshold,
    in the order of the response, provided every candidate has a score; a
    single candidate without metadata or without a score empties the list,
    whatever the scores of the others. *)
Theorem search_retains_exactly (query_text : string)
    (limits : option (gmap string Z)) (min_score : option float)
    (c : Collection) (response : QueryReturn) (st : State) :
  search_reply (st_self st) c query_text (limits_in_force limits) = Ok response →
  ∃ sr st',
    search_all_collections query_text limits min_score st = (Ok sr, st') ∧
    (Forall has_score (objects response) →
     results_of c sr =
       List.filter (meets_min_score (min_score_in_force min_score))
         (objects response)) ∧
    (∀ obj, obj ∈ objects response →
       metadata obj = None ∨ (∃ md, metadata obj = Some md ∧ score md = None) →
       results_of c sr = []).
Proof.
  intros Hreply. rewrite search_all_collections_trace.
  eexists _, _. split; [done |]. rewrite results_of_searched.
  unfold retained. rewrite Hreply. cbn [res_bind]. split.
  - intros Hall. by rewrite filter_by_score_total.
  - intros obj Hin Hbad.
    destruct (filter_by_score (objects response) _) as [kept|e] eqn:E; [|done].
    apply filter_by_score_ok in E as [_ Hall].
    rewrite Forall_forall in Hall. destruct (Hall obj Hin) as (md & s & Hmd & Hs).
    destruct Hbad as [Hbad|(md' & Hmd' & Hs')]; congruence.
Qed.

(** X3. A missing key in [limits] is a failure of that collection only:
    its list is empty, and the calls of the run are those of the three
    blocks in order, where the block of that collection is the request
    for the handle alone, so that no [near_text] call is made for it.
    The other collections keep what their own replies give. The log of
    the run has the line of that collection in its place, and when the
    handle of the collection was obtained that line carries the key as
    [KeyError] shows it. *)
Theorem search_with_missing_limit (query_text : string)
    (limits : option (gmap string Z)) (min_score : option float)
    (c : Collection) (st : State) :
  limits_in_force limits !! key c = None →
  let self := st_self st in
  let L := limits_in_force limits in
  let T := min_score_in_force min_score in
  ∃ sr st',
    search_all_collections query_text limits min_score st = (Ok sr, st') ∧
    results_of c sr = [] ∧
    (∀ c', c' ≠ c →
       results_of c' sr = retained (search_reply self c' query_text L) T) ∧
    st_calls st' =
      st_calls st ++ search_calls self Rules query_text L ++
      search_calls self Cards query_text L ++ search_calls self Rulings query_text L ∧
    search_calls self c query_text L =
      match collections self !! key c with
      | Some name => [CallCollectionsGet name]
      | None => []
      end ∧
    st_log st' =
      st_log st ++
      [ (INFO, "Searching all collections for: '" +:+ query_text +:+ "'");
        search_log_line self Rules query_text L T;
        search_log_line self Cards query_text L T;
        search_log_line self Rulings query_text L T ] ∧
    (∀ name handle,
       collections self !! key c = Some name →
       collections_get (client self) name = Ok handle →
       search_log_line self c query_text L T =
         (ERROR, "Error searching " +:+ key c +:+ ": '" +:+ key c +:+ "'")).
Proof.
  intros Hmissing self L T. rewrite search_all_collections_trace.
  eexists _, _. split; [done |].
  assert (getitem L (key c) = Raise (KeyError (key c))) as Hget.
  { unfold getitem, L. by rewrite Hmissing. }
  split; [|split; [|split; [|split; [|split]]]].
  - rewrite results_of_searched. unfold retained, search_reply. fold L. rewrite Hget.
    destruct (getitem (collections (st_self st)) (key c)); cbn [res_bind]; [|done].
    by destruct (collections_get (client (st_self st)) _).
  - intros c' _. by rewrite results_of_searched.
  - done.
  - unfold search_calls. rewrite Hget. unfold getitem.
    destruct (collections self !! key c) as [name|]; [|done].
    by destruct (collections_get (client self) name).
  - done.
  - intros name handle Hname Hhandle. unfold search_log_line, search_reply, getitem.
    rewrite Hname. cbn [res_bind]. rewrite Hhandle. cbn [res_bind].
    unfold L. by rewrite Hmissing.
Qed.

(** ** Scores that are not numbers *)

(** The comparison [min_score <= s] holds of no [nan]. *)
Lemma leb_true_not_nan (min_score s : float) :
  PrimFloat.leb min_score s = true →
  Prim2SF min_score ≠ S754_nan ∧ Prim2SF s ≠ S754_nan.
Proof.
  rewrite leb_spec. unfold SFleb, SFcompare.
  by destruct (Prim2SF min_score), (Prim2SF s).
Qed.

Lemma filter_by_score_nan (objs kept : list WObject) (min_score : float) :
  Prim2SF min_score = S754_nan →
  filter_by_score objs min_score = Ok kept → kept = [].
Proof.
  intros Hnan E. apply filter_by_score_ok in E as [-> _].
  induction objs as [|obj objs IH]; simpl; [done |].
  unfold meets_min_score at 1.
  destruct (metadata obj) as [md|]; [|done].
  destruct (score md) as [s|]; [|done].
  destruct (PrimFloat.leb min_score s) eqn:E; [|done].
  by apply leb_true_not_nan in E as [? _].
Qed.

(** X4. A candidate whose score is [nan] is never retained, and with a
    threshold that is [nan] nothing is retained at all. *)
Theorem search_drops_nan (query_text : string)
    (limits : option (gmap string Z)) (min_score : option float) (st : State) :
  ∃ sr st',
    search_all_collections query_text limits min_score st = (Ok sr, st') ∧
    (∀ c obj md s,
       obj ∈ results_of c sr → metadata obj = Some md → score md = Some s →
       Prim2SF s ≠ S754_nan) ∧
    (Prim2SF (min_score_in_force min_score) = S754_nan →
     ∀ c, results_of c sr = []).
Proof.
  rewrite search_all_collections_trace. eexists _, _. split; [done |]. split.
  - intros c obj md s Hin Hmd Hs. rewrite results_of_searched in Hin.
    apply retained_scores in Hin as (md' & s' & Hmd' & Hs' & Hle).
    assert (s' = s) as -> by congruence.
    by apply leb_true_not_nan in Hle as [_ ?].
  - intros Hnan c. rewrite results_of_searched. unfold retained.
    destruct (search_reply _ _ _ _) as [response|]; cbn [res_bind]; [|done].
    destruct (filter_by_score _ _) as [kept|] eqn:E; [|done].
    by eapply filter_by_score_nan.
Qed.

(** X5. The formatter never raises on what a search returned: every
    retained result has a score. When no candidate has an infinite score,
    the context of the search results lists them under the headers of the
    non-empty collections, each entry showing the score of its own result
    rounded to the nearest thousandth, with three decimals. *)
Theorem search_results_format (query_text : string)
    (limits : option (gmap string Z)) (min_score : option float) (st : State) :
  ∃ sr st',
    search_all_collections query_text limits min_score st = (Ok sr, st') ∧
    (∀ st2, ∃ text, format_context_for_llm sr st2 = (Ok text, st2)) ∧
    ((∀ c response obj md s sign,
        search_reply (st_self st) c query_text (limits_in_force limits) = Ok response →
        obj ∈ objects response → metadata obj = Some md → score md = Some s →
        Prim2SF s ≠ S754_infinity sign) →
     ∀ st2, ∃ rule_lines card_lines ruling_lines,
       format_context_for_llm sr st2 =
         (Ok (str_join newline
                (heading sr ++ section Rules rule_lines ++
                 section Cards card_lines ++ section Rulings ruling_lines)), st2) ∧
       listing Rules (rules sr) rule_lines ∧
       listing Cards (cards sr) card_lines ∧
       listing Rulings (rulings sr) ruling_lines).
Proof.
  rewrite search_all_collections_trace. eexists _, _. split; [done |].
  set (sr := searched _ _ _ _ _). split.
  - intros st2. destruct (expected_context_scored sr) as [text Htext].
    { intros c obj. apply searched_scored. }
    exists text. by rewrite format_context_for_llm_stateless, Htext.
  - intros Hfinite st2.
    assert (∀ c obj, obj ∈ results_of c sr → finite_score obj) as Hfin.
    { intros c obj Hin. unfold sr in Hin. rewrite results_of_searched in Hin.
      pose proof (retained_scores _ _ _ Hin) as (md & s & Hmd & Hs & Hle).
      pose proof (retained_sublist
        (search_reply (st_self st) c query_text (limits_in_force limits))
        (min_score_in_force min_score)) as Hsub.
      apply leb_true_not_nan in Hle as [_ Hnan].
      unfold finite_score. rewrite Hmd. exists s. split; [done |].
      unfold is_finite_float.
      destruct (Prim2SF s) as [| sign | |] eqn:Es; try done.
      destruct (search_reply (st_self st) c query_text (limits_in_force limits))
        as [response|] eqn:Er; [|by apply elem_of_nil in Hin].
      exfalso. apply (Hfinite c response obj md s sign); try done.
      eapply sublist_submseteq, elem_of_submseteq in Hsub; done. }
    destruct (entries_listing Rules (rules sr) (Hfin Rules)) as (l1 & E1 & L1).
    destruct (entries_listing Cards (cards sr) (Hfin Cards)) as (l2 & E2 & L2).
    destruct (entries_listing Rulings (rulings sr) (Hfin Rulings)) as (l3 & E3 & L3).
    exists l1, l2, l3. split; [|done].
    rewrite format_context_for_llm_stateless.
    unfold expected_context, expected_parts, section_of. cbn [results_of].
    by rewrite E1, E2, E3.
Qed.

(** ** Edges of the formatter *)

(** X6. Without any retained result the context is the heading alone: the
    line of the query, the line of the timestamp and a final line break. *)
Theorem context_of_no_results (sr : SearchResults) (st : State) :
  rules sr = [] → cards sr = [] → rulings sr = [] →
  format_context_for_llm sr st =
    (Ok ("SEARCH QUERY: " +:+ query_shown sr +:+ newline +:+
         "SEARCH TIMESTAMP: " +:+ timestamp_shown sr +:+ newline), st).
Proof.
  intros Hr Hc Hg. rewrite format_context_for_llm_stateless.
  unfold expected_context, expected_parts, section_of. cbn [results_of].
  rewrite Hr, Hc, Hg. cbn [entries res_bind section heading app str_join String.concat].
  by rewrite !append_assoc.
Qed.

Lemma entry_outcome (c : Collection) (i : nat) (obj : WObject) :
  (score_is_none obj ∧ entry c i obj = Raise score_format_error) ∨
  (¬ score_is_none obj ∧ ∃ line, entry c i obj = Ok line).
Proof.
  destruct (format_score (getattr_score (metadata obj))) as [shown|e] eqn:E.
  - right. split; [|eexists; by apply entry_parts].
    intros (md & Hmd & Hs). unfold getattr_score in E. by rewrite Hmd, Hs in E.
  - left. unfold getattr_score in E.
    destruct (metadata obj) as [md|] eqn:Hmd; [|done].
    destruct (score md) eqn:Hs; [done |]. injection E as <-.
    split; [by exists md |].
    destruct c; unfold entry, rule_entry, card_entry, ruling_entry, getattr_score;
      by rewrite Hmd, Hs.
Qed.

Lemma entries_outcome (c : Collection) (objs : list WObject) :
  ∀ start,
    ((∃ obj, obj ∈ objs ∧ score_is_none obj) ∧
     entries (entry c) start objs = Raise score_format_error) ∨
    ((∀ obj, obj ∈ objs → ¬ score_is_none obj) ∧
     ∃ lines, entries (entry c) start objs = Ok lines).
Proof.
  induction objs as [|obj objs IH]; intros start.
  - right. split; [by intros ? ?%elem_of_nil | by eexists].
  - cbn [entries].
    destruct (entry_outcome c start obj) as [[Hbad ->]|[Hgood [line ->]]];
      cbn [res_bind].
    { left. split; [|done]. exists obj. split; [left | done]. }
    destruct (IH (S start)) as [[(o & Hin & Hbad) ->]|[Hall [lines ->]]];
      cbn [res_bind].
    + left. split; [|done]. exists o. split; [by right | done].
    + right. split; [|by eexists].
      intros o [->|Hin]%elem_of_cons; [done | by apply Hall].
Qed.

(** X7. The formatter returns a context exactly when no result has a score
    that is [None]; when one has, it raises the [TypeError] of the format
    specification, whatever the other results are. In both cases it leaves
    the state as it was. *)
Theorem format_context_for_llm_outcome (sr : SearchResults) (st : State) :
  ((∀ c obj, obj ∈ results_of c sr → ¬ score_is_none obj) ∧
   ∃ text, format_context_for_llm sr st = (Ok text, st)) ∨
  ((∃ c obj, obj ∈ results_of c sr ∧ score_is_none obj) ∧
   format_context_for_llm sr st = (Raise score_format_error, st)).
Proof.
  pose proof (format_context_for_llm_stateless sr st) as Hrun.
  unfold expected_context, expected_parts, section_of in Hrun.
  destruct (entries_outcome Rules (results_of Rules sr) 1)
    as [[(o & Hin & Hbad) E]|[H1 [l1 E1]]].
  { right. split; [by exists Rules, o |]. by rewrite Hrun, E. }
  destruct (entries_outcome Cards (results_of Cards sr) 1)
    as [[(o & Hin & Hbad) E]|[H2 [l2 E2]]].
  { right. split; [by exists Cards, o |]. by rewrite Hrun, E1, E. }
  destruct (entries_outcome Rulings (results_of Rulings sr) 1)
    as [[(o & Hin & Hbad) E]|[H3 [l3 E3]]].
  { right. split; [by exists Rulings, o |]. by rewrite Hrun, E1, E2, E. }
  left. split; [intros [] obj; auto |].
  rewrite Hrun, E1, E2, E3. by eexists.
Qed.

(** ** The properties the formatter reads *)

Lemma dict_get_insert_ne {V} (p : gmap string V) (k k' : string) (v d : V) :
  k ≠ k' → dict_get (<[k := v]> p) k' d = dict_get p k' d.
Proof. intros H. unfold dict_get. by rewrite lookup_insert_ne. Qed.

Lemma dict_get_delete_ne {V} (p : gmap string V) (k k' : string) (d : V) :
  k ≠ k' → dict_get (delete k p) k' d = dict_get p k' d.
Proof. intros H. unfold dict_get. by rewrite lookup_delete_ne. Qed.

Lemma dict_get_insert_eq {V} (p : gmap string V) (k : string) (v d : V) :
  dict_get (<[k := v]> p) k d = v.
Proof. unfold dict_get. by rewrite lookup_insert_eq. Qed.

Lemma dict_get_delete_eq {V} (p : gmap string V) (k : string) (d : V) :
  dict_get (delete k p) k d = d.
Proof. unfold dict_get. by rewrite lookup_delete_eq. Qed.

Lemma entry_with_unread_property (c : Collection) (k value : string) (i : nat)
    (obj : WObject) :
  k ∉ read_keys c → entry c i (with_property k value obj) = entry c i obj.
Proof.
  intros Hk.
  destruct c; unfold read_keys in Hk; rewrite !not_elem_of_cons in Hk;
    unfold entry, rule_entry, card_entry, ruling_entry, with_property;
    cbn [properties metadata];
    rewrite !dict_get_insert_ne by tauto; done.
Qed.

Lemma entries_with_unread_property (c : Collection) (k : string)
    (f : WObject → string) (objs : list WObject) :
  k ∉ read_keys c →
  ∀ start,
    entries (entry c) start ((λ obj, with_property k (f obj) obj) <$> objs) =
    entries (entry c) start objs.
Proof.
  intros Hk. induction objs as [|obj objs IH]; intros start; [done |].
  cbn [fmap list_fmap entries]. by rewrite entry_with_unread_property, IH.
Qed.

(** X8. A property the entry of a collection does not look up never reaches
    the context: storing any value under such a key, in any results of that
    collection, changes neither their lines nor the context. The number and
    the section of a rule and the colours of a card are such properties. *)
Theorem unread_properties_are_ignored (c : Collection) (k : string) :
  k ∉ read_keys c →
  (∀ i obj value, entry c i (with_property k value obj) = entry c i obj) ∧
  (∀ f sr st,
     format_context_for_llm
       (set_results c ((λ obj, with_property k (f obj) obj) <$> results_of c sr) sr)
       st =
     format_context_for_llm sr st).
Proof.
  intros Hk. split; [intros; by apply entry_with_unread_property |].
  intros f sr st. rewrite !format_context_for_llm_stateless. f_equal.
  unfold expected_context, expected_parts, section_of, heading, query_shown,
    timestamp_shown.
  destruct c; cbn [set_results results_of rules cards rulings search_metadata];
    by rewrite entries_with_unread_property.
Qed.

Lemma string_length_append (a b : string) :
  String.length (a +:+ b) = (String.length a + String.length b)%nat.
Proof. induction a as [|x a IH]; simpl; [done | by rewrite IH]. Qed.

(** X9. A property that is present with the empty string is rendered as
    a property that is missing, for every key but [name]: the fallback
    [Unknown Card] stands in for a name that is missing, not for a name
    that is empty, so the two lines differ for cards and for rulings. *)
Theorem empty_property_is_missing_except_name (i : nat) (obj : WObject) :
  (∀ c k,
     k ≠ "name" →
     entry c i (with_property k "" obj) = entry c i (without_property k obj)) ∧
  (∀ c shown,
     c ≠ Rules →
     format_score (getattr_score (metadata obj)) = Ok shown →
     entry c i (with_property "name" "" obj) ≠
     entry c i (without_property "name" obj)).
Proof.
  split.
  - intros c k Hk.
    destruct (decide (k ∈ read_keys c)) as [Hin|Hout].
    + destruct c; unfold read_keys in Hin; rewrite !elem_of_cons in Hin;
        unfold entry, rule_entry, card_entry, ruling_entry, with_property,
          without_property; cbn [properties metadata];
        destruct Hin as [->|Hin];
        repeat (try done; destruct Hin as [->|Hin]);
        try (by apply elem_of_nil in Hin);
        rewrite ?dict_get_insert_eq, ?dict_get_delete_eq;
        rewrite ?dict_get_insert_ne, ?dict_get_delete_ne by done; done.
    + assert (entry c i (without_property k obj) = entry c i obj) as ->.
      { destruct c; unfold read_keys in Hout; rewrite !not_elem_of_cons in Hout;
          unfold entry, rule_entry, card_entry, ruling_entry, without_property;
          cbn [properties metadata];
          rewrite !dict_get_delete_ne by tauto; done. }
      by apply entry_with_unread_property.
  - intros c shown Hc Hs.
    rewrite (entry_parts c i _ shown), (entry_parts c i _ shown) by done.
    intros [= H]. apply (inj (String.app _)) in H. revert H.
    destruct c; [done | |]; cbn [entry_body with_property without_property properties];
      unfold name_part, mana_part, type_part, power_toughness_part, text_part,
        date_part, source_part, ruling_part;
      rewrite dict_get_insert_eq, dict_get_delete_eq;
      rewrite ?dict_get_insert_ne, ?dict_get_delete_ne by done;
      intros H; apply (f_equal String.length) in H;
      rewrite !string_length_append in H; simpl in H; lia.
Qed.

(** ** The log and the calls of the generation and of the pipeline *)

Lemma generate_answer_trace question context temperature st :
  let request :=
    chat_request (st_self st) question context (temperature_in_force temperature) in
  let reply := chat_completions_create (openai_client (st_self st)) request in
  generate_answer question context temperature st =
    (Ok (generated reply), extend st 0 (generate_log reply) [CallChatCreate request]).
Proof.
  intros request reply. unfold generate_answer, try_except, bind, get_self, lift, ret.
  fold (temperature_in_force temperature). fold request. fold reply.
  rewrite external_run. unfold generated, generate_log.
  destruct reply as [response|e].
  - destruct (choices response) as [|content ?]; [|done].
    by rewrite logger_run, extend_extend.
  - by rewrite logger_run, extend_extend.
Qed.

(** X10. [generate_answer] never raises and submits exactly one request:
    the model of the pipeline, the fixed system prompt, the user prompt
    built from the question and the context, the temperature and
    [max_tokens = 1000]. It returns the content of the first choice and
    logs nothing; when the response has no choice, or the call raised, it
    returns the error text with the message and logs that message as an
    error. It does not read the clock or change the pipeline. *)
Theorem generate_answer_effects (question context : string)
    (temperature : option float) (st : State) :
  let request :=
    {| req_model := model (st_self st);
       req_system := system_prompt;
       req_user := user_prompt question context;
       req_temperature := temperature_in_force temperature;
       req_max_tokens := 1000 |} in
  ∃ text st',
    generate_answer question context temperature st = (Ok text, st') ∧
    st_self st' = st_self st ∧ st_clock st' = st_clock st ∧
    st_tick st' = st_tick st ∧
    st_calls st' = st_calls st ++ [CallChatCreate request] ∧
    match chat_completions_create (openai_client (st_self st)) request with
    | Ok response =>
        match choices response with
        | content :: _ => text = content ∧ st_log st' = st_log st
        | [] =>
            text = "I encountered an error while generating the answer: " +:+
                   "list index out of range" ∧
            st_log st' =
              st_log st ++
              [(ERROR, "Error generating answer: list index out of range")]
        end
    | Raise e =>
        text = "I encountered an error while generating the answer: " +:+ exn_str e ∧
        st_log st' = st_log st ++ [(ERROR, "Error generating answer: " +:+ exn_str e)]
    end.
Proof.
  intros request. rewrite generate_answer_trace. cbv zeta.
  change (chat_request (st_self st) question context
            (temperature_in_force temperature)) with request.
  eexists _, _. split; [done |].
  cbn [extend st_self st_clock st_tick st_log st_calls].
  split; [done |]. split; [done |]. split; [done |]. split; [done |].
  unfold generated, generate_log.
  destruct (chat_completions_create (openai_client (st_self st)) request)
    as [response|e]; [|done].
  destruct (choices response); [done |]. by rewrite app_nil_r.
Qed.

Lemma answer_question_trace question limits min_score temperature include_debug st :
  let self := st_self st in
  let L := limits_in_force limits in
  let T := min_score_in_force min_score in
  let sr := searched self question (st_clock st (st_tick st)) L T in
  ∃ context,
    expected_context sr = Ok context ∧
    answer_question question limits min_score temperature include_debug st =
      (Ok (answered self question limits T (temperature_in_force temperature)
             (default false include_debug) sr context
             (st_clock st (S (st_tick st)))),
       extend st 2
         ([(INFO, "Processing question: '" +:+ question +:+ "'")] ++
          search_log self question L T ++
          generate_log (chat_completions_create (openai_client self)
            (chat_request self question context (temperature_in_force temperature))) ++
          [(INFO, "Answer generated successfully. Sources: " +:+
                  str_of_sources {| src_rules := length (rules sr);
                                    src_cards := length (cards sr);
                                    src_rulings := length (rulings sr) |})])
         (all_search_calls self question L ++
          [CallChatCreate (chat_request self question context
                             (temperature_in_force temperature))])).
Proof.
  intros self L T sr.
  destruct (expected_context_scored sr) as [context Hctx].
  { intros c obj. apply searched_scored. }
  exists context. split; [done |]. unfold answer_question.
  fold (min_score_in_force min_score) (temperature_in_force temperature). fold T.
  unfold bind at 1. rewrite logger_run.
  unfold bind at 1. rewrite search_all_collections_trace, extend_extend.
  cbn [st_self st_clock st_tick extend]. rewrite Nat.add_0_l.
  change (min_score_in_force (Some T)) with T. fold self L sr.
  unfold bind at 1. rewrite format_context_for_llm_stateless, Hctx.
  unfold bind at 1. rewrite generate_answer_trace, extend_extend. cbv zeta.
  cbn [st_self st_clock st_tick extend].
  change (temperature_in_force (Some ?x)) with x. fold self.
  unfold bind at 1. rewrite datetime_now_isoformat_run, extend_extend.
  cbn [st_self st_clock st_tick extend].
  unfold bind at 1. rewrite logger_run, extend_extend. unfold ret, answered.
  f_equal. f_equal; try lia.
  - by rewrite <- !app_assoc.
  - by rewrite !app_nil_r.
Qed.

(** X11. [answer_question] never raises and is the composition of the
    three steps: the record it returns carries the question, the counts of
    the lists the search retained, no error flag, and as answer what
    [generate_answer] returns for the context the formatter made of the
    search results. The clock is read twice, first for the search and then
    for the record; the calls are those of the search followed by the one
    request to the generation collaborator; the pipeline is unchanged. *)
Theorem answer_question_effects (question : string)
    (limits : option (gmap string Z)) (min_score temperature : option float)
    (include_debug : option bool) (st : State) :
  let self := st_self st in
  let L := limits_in_force limits in
  let sr :=
    searched self question (st_clock st (st_tick st)) L
      (min_score_in_force min_score) in
  ∃ context record st',
    format_context_for_llm sr st = (Ok context, st) ∧
    answer_question question limits min_score temperature include_debug st =
      (Ok record, st') ∧
    ar_question record = question ∧
    ar_answer record =
      generated (chat_completions_create (openai_client self)
                   (chat_request self question context
                      (temperature_in_force temperature))) ∧
    ar_timestamp record = Some (st_clock st (S (st_tick st))) ∧
    ar_sources_found record =
      Some {| src_rules := length (results_of Rules sr);
              src_cards := length (results_of Cards sr);
              src_rulings := length (results_of Rulings sr) |} ∧
    ar_error record = None ∧
    st_self st' = self ∧ st_clock st' = st_clock st ∧
    st_tick st' = S (S (st_tick st)) ∧
    st_calls st' =
      st_calls st ++ all_search_calls self question L ++
      [CallChatCreate (chat_request self question context
                         (temperature_in_force temperature))].
Proof.
  cbv zeta.
  destruct (answer_question_trace question limits min_score temperature
              include_debug st) as (context & Hctx & ->).
  exists context. eexists _, _.
  split; [by rewrite format_context_for_llm_stateless, Hctx |].
  split; [done |]. by repeat split.
Qed.

(** X12. The debug payload is attached exactly when [include_debug] is
    true. It holds the search results whose counts the record reports and
    the context that was submitted to the generation collaborator. Its
    search parameters hold [limits] as the caller passed it: when [limits]
    was omitted they hold [None], while the metadata of the search results
    hold the limits that were in force. *)
Theorem answer_question_debug (question : string)
    (limits : option (gmap string Z)) (min_score temperature : option float)
    (include_debug : option bool) (st : State) :
  ∃ record st',
    answer_question question limits min_score temperature include_debug st =
      (Ok record, st') ∧
    (include_debug ≠ Some true → ar_debug record = None) ∧
    (include_debug = Some true →
     ∃ debug metadata,
       ar_debug record = Some debug ∧
       ar_sources_found record =
         Some {| src_rules := length (rules (dbg_search_results debug));
                 src_cards := length (cards (dbg_search_results debug));
                 src_rulings := length (rulings (dbg_search_results debug)) |} ∧
       CallChatCreate
         (chat_request (st_self st) question (dbg_formatted_context debug)
            (temperature_in_force temperature)) ∈ st_calls st' ∧
       format_context_for_llm (dbg_search_results debug) st =
         (Ok (dbg_formatted_context debug), st) ∧
       sp_limits (dbg_search_params debug) = limits ∧
       search_metadata (dbg_search_results debug) = Some metadata ∧
       md_limits metadata = Some (limits_in_force limits) ∧
       md_min_score metadata = Some (sp_min_score (dbg_search_params debug))).
Proof.
  destruct (answer_question_trace question limits min_score temperature
              include_debug st) as (context & Hctx & ->).
  eexists _, _. split; [done |]. cbn [answered ar_debug ar_sources_found]. split.
  - intros Hno. by destruct include_debug as [[]|].
  - intros ->. cbn [default]. eexists _, _. split; [done |].
    cbn [dbg_search_results dbg_formatted_context dbg_search_params sp_limits
         sp_min_score searched search_metadata md_limits md_min_score rules cards
         rulings extend st_calls].
    split; [done |]. split.
    { rewrite !elem_of_app. right. right. by left. }
    split; [|done].
    by rewrite format_context_for_llm_stateless, Hctx.
Qed.

Lemma retained_of_raise (reply : result QueryReturn) (min_score : float) :
  is_raise reply → retained reply min_score = [].
Proof. by destruct reply. Qed.

(** X13. When the search fails for all three collections the question is
    still answered: the record reports no source, and the one request to
    the generation collaborator carries a context that is the heading
    alone. *)
Theorem answer_question_without_sources (question : string)
    (limits : option (gmap string Z)) (min_score temperature : option float)
    (include_debug : option bool) (st : State) :
  (∀ c, is_raise (search_reply (st_self st) c question (limits_in_force limits))) →
  let context :=
    "SEARCH QUERY: " +:+ question +:+ newline +:+
    "SEARCH TIMESTAMP: " +:+ st_clock st (st_tick st) +:+ newline in
  let request :=
    chat_request (st_self st) question context (temperature_in_force temperature) in
  ∃ record st',
    answer_question question limits min_score temperature include_debug st =
      (Ok record, st') ∧
    ar_sources_found record =
      Some {| src_rules := 0; src_cards := 0; src_rulings := 0 |} ∧
    ar_answer record =
      generated (chat_completions_create (openai_client (st_self st)) request) ∧
    ∃ calls, st_calls st' = st_calls st ++ calls ++ [CallChatCreate request].
Proof.
  intros Hfail context request.
  destruct (answer_question_trace question limits min_score temperature
              include_debug st) as (ctx & Hctx & ->).
  assert (ctx = context) as ->.
  { assert (Ok ctx = Ok context) as Heq; [|congruence].
    rewrite <- Hctx. unfold expected_context, expected_parts, section_of, searched.
    cbn [results_of rules cards rulings].
    rewrite !retained_of_raise by apply Hfail.
    cbn [entries res_bind section heading app str_join String.concat
         query_shown timestamp_shown search_metadata md_query md_timestamp default].
    unfold context. by rewrite !append_assoc. }
  eexists _, _. split; [done |]. cbn [answered ar_sources_found ar_answer searched
    rules cards rulings]. rewrite !retained_of_raise by apply Hfail.
  split; [done |]. split; [done |]. by eexists.
Qed.

(** X14. The count [answer_question] reports for a collection is at most
    the limit of that collection, when the search collaborator returns at
    most that many candidates for it. *)
Theorem sources_found_within_limit (question : string)
    (limits : option (gmap string Z)) (min_score temperature : option float)
    (include_debug : option bool) (c : Collection) (lim : Z) (st : State) :
  limits_in_force limits !! key c = Some lim →
  Z.of_nat (length (candidates
    (search_reply (st_self st) c question (limits_in_force limits)))) ≤ lim →
  ∃ record st' sources,
    answer_question question limits min_score temperature include_debug st =
      (Ok record, st') ∧
    ar_sources_found record = Some sources ∧
    Z.of_nat (source_count c sources) ≤ lim.
Proof.
  intros _ Hbound.
  destruct (answer_question_trace question limits min_score temperature
              include_debug st) as (ctx & Hctx & ->).
  eexists _, _, _. split; [done |]. split; [done |].
  pose proof (retained_sublist
    (search_reply (st_self st) c question (limits_in_force limits))
    (min_score_in_force min_score)) as Hsub.
  apply sublist_length in Hsub.
  destruct c; cbn [source_count src_rules src_cards src_rulings searched rules
                   cards rulings]; lia.
Qed.

(** ** The batch of the class *)

(** The record of [answer_question] depends on the state through the
    pipeline object and the clock only. *)
Lemma answer_question_result_local question limits min_score temperature
    include_debug st1 st2 :
  st_self st1 = st_self st2 → st_clock st1 = st_clock st2 →
  st_tick st1 = st_tick st2 →
  fst (answer_question question limits min_score temperature include_debug st1) =
  fst (answer_question question limits min_score temperature include_debug st2).
Proof.
  intros Hs Hc Ht.
  destruct (answer_question_trace question limits min_score temperature
              include_debug st1) as (c1 & H1 & ->).
  destruct (answer_question_trace question limits min_score temperature
              include_debug st2) as (c2 & H2 & ->).
  cbn [fst]. rewrite Hs, Hc, Ht in *. by assert (c1 = c2) as -> by congruence.
Qed.

Lemma batch_turn_of_class kwargs total i question results st :
  ∃ record st',
    batch_turn call_answer_question kwargs total i question results st =
      (Ok (results ++ [record]), st') ∧
    st_self st' = st_self st ∧ st_clock st' = st_clock st ∧
    st_tick st' = S (S (st_tick st)) ∧
    answered_at (st_self st) (st_clock st) kwargs question (st_tick st) record.
Proof.
  unfold batch_turn, try_except, bind. rewrite logger_run.
  set (st0 := extend st 0 _ []).
  unfold call_answer_question at 1.
  destruct (answer_question_trace question (kw_limits kwargs) (kw_min_score kwargs)
              (kw_temperature kwargs) (kw_include_debug kwargs) st0)
    as (context & Hctx & Hrun).
  rewrite Hrun. unfold ret. eexists _, _. split; [done |].
  split; [done |]. split; [done |]. split; [done |].
  split; [done |]. split; [done |]. split; [by eexists |]. split; [done |].
  intros st_alone Hs Hc Ht. unfold call_answer_question.
  rewrite (answer_question_result_local _ _ _ _ _ st_alone st0) by done.
  by rewrite Hrun.
Qed.

Lemma batch_loop_of_class kwargs total (questions : list string) :
  ∀ start results st,
    ∃ more st',
      for_enumerate start questions (batch_turn call_answer_question kwargs total)
        results st = (Ok (results ++ more), st') ∧
      length more = length questions ∧
      st_self st' = st_self st ∧ st_clock st' = st_clock st ∧
      st_tick st' = (2 * length questions + st_tick st)%nat ∧
      ∀ k question, questions !! k = Some question →
        ∃ record,
          more !! k = Some record ∧
          answered_at (st_self st) (st_clock st) kwargs question
            (st_tick st + 2 * k) record.
Proof.
  induction questions as [|q questions IH]; intros start results st.
  - exists [], st. simpl. unfold ret. rewrite app_nil_r. by repeat split.
  - cbn [for_enumerate]. unfold bind.
    destruct (batch_turn_of_class kwargs total start q results st)
      as (record & st1 & -> & Hs1 & Hc1 & Ht1 & Hrec).
    destruct (IH (S start) (results ++ [record]) st1)
      as (more & st' & -> & Hlen & Hs & Hc & Ht & Hall).
    exists (record :: more), st'. split; [by rewrite <- app_assoc |].
    split; [simpl; by rewrite Hlen |].
    split; [congruence |]. split; [congruence |].
    split; [simpl; lia |].
    intros [|k] question Hk; simpl in Hk.
    + injection Hk as <-. exists record. split; [done |].
      by rewrite Nat.mul_0_r, Nat.add_0_r.
    + destruct (Hall k question Hk) as (r & Hr & Hat). exists r. split; [done |].
      rewrite Hs1, Hc1, Ht1 in Hat.
      by replace (st_tick st + 2 * S k)%nat with (S (S (st_tick st)) + 2 * k)%nat by lia.
Qed.

(** X15. On an instance with the method of the class the batch never
    raises and holds no error record: each question has its record, with
    a timestamp and source counts. The questions are answered one after
    the other, two readings of the clock each, and the record of the
    [k]-th question is the one [answer_question] returns for it alone from
    the [2k]-th next reading of the clock: the records of the other
    questions, the log and the calls made so far have no influence on it.
    The pipeline is unchanged. *)
Theorem batch_of_class_is_sequential (questions : list string) (kwargs : Kwargs)
    (st : State) :
  ∃ results st',
    MTGRAGPipeline_batch_answer_questions questions kwargs st = (Ok results, st') ∧
    length results = length questions ∧
    st_self st' = st_self st ∧
    st_tick st' = (2 * length questions + st_tick st)%nat ∧
    ∀ k question, questions !! k = Some question →
      ∃ record,
        results !! k = Some record ∧
        ar_question record = question ∧
        ar_error record = None ∧
        is_Some (ar_sources_found record) ∧
        ar_timestamp record = Some (st_clock st (S (st_tick st + 2 * k))) ∧
        ∀ st_alone,
          st_self st_alone = st_self st → st_clock st_alone = st_clock st →
          st_tick st_alone = (st_tick st + 2 * k)%nat →
          fst (answer_question question (kw_limits kwargs) (kw_min_score kwargs)
                 (kw_temperature kwargs) (kw_include_debug kwargs) st_alone) =
            Ok record.
Proof.
  unfold MTGRAGPipeline_batch_answer_questions, batch_answer_questions.
  destruct (batch_loop_of_class kwargs (length questions) questions 1 [] st)
    as (results & st' & -> & Hlen & Hs & _ & Ht & Hall).
  exists results, st'. split; [done |]. split; [done |]. split; [done |].
  split; [done |]. intros k question Hk.
  destruct (Hall k question Hk) as (record & Hr & Hq & He & Hsrc & Hts & Halone).
  exists record. by repeat split.
Qed.

(** * Properties of the setup script *)

(** ** The strings of the script *)

Example split_blank_lines_runs :
  split_blank_lines
    ("100.1. First" +:+ blank_line +:+ "100.2. Second" +:+ newline +:+
     "continued" +:+ blank_line +:+ newline +:+ "tail") =
  ["100.1. First"; "100.2. Second" +:+ newline +:+ "continued"; newline +:+ "tail"] ∧
  split_blank_lines "" = [""] ∧
  split_blank_lines blank_line = [""; ""].
Proof. by vm_compute. Qed.

Lemma split_blank_lines_cons (a : ascii) (text : string) :
  split_blank_lines (String a text) =
  match text with
  | String b text'' =>
      if Ascii.eqb a "010" && Ascii.eqb b "010"
      then "" :: split_blank_lines text''
      else cons_head a (split_blank_lines text)
  | EmptyString => [String a ""]
  end.
Proof. by destruct text. Qed.

Lemma split_blank_lines_not_nil (text : string) : split_blank_lines text ≠ [].
Proof.
  destruct text as [|a text]; [done |]. rewrite split_blank_lines_cons.
  destruct text as [|b text]; [done |].
  destruct (Ascii.eqb a "010" && Ascii.eqb b "010"); [done |].
  by destruct (split_blank_lines (String b text)).
Qed.

Lemma join_cons_head (sep : string) (a : ascii) (chunks : list string) :
  chunks ≠ [] →
  str_join sep (cons_head a chunks) = String a (str_join sep chunks).
Proof. by destruct chunks as [|chunk [|? ?]]. Qed.

Lemma join_cons_nonempty (sep chunk : string) (chunks : list string) :
  chunks ≠ [] →
  str_join sep (chunk :: chunks) = chunk +:+ sep +:+ str_join sep chunks.
Proof. by destruct chunks. Qed.

(** A property of all strings follows from its two-character step. *)
Lemma string_pair_ind (P : string → Prop) :
  P "" → (∀ a, P (String a "")) →
  (∀ a b s, P s → P (String b s) → P (String a (String b s))) →
  ∀ s, P s.
Proof.
  intros H0 H1 H2 s.
  assert (P s ∧ ∀ a, P (String a s)) as [? _]; [|done].
  induction s as [|b s [IH1 IH2]]; [by split |].
  split; [apply IH2 |]. intros a. by apply H2.
Qed.

Lemma split_blank_lines_join (text : string) :
  str_join blank_line (split_blank_lines text) = text.
Proof.
  induction text as [|a|a b text IH1 IH2] using string_pair_ind; [done..|].
  rewrite split_blank_lines_cons.
  destruct (Ascii.eqb_spec a "010") as [->|Ha];
    [destruct (Ascii.eqb_spec b "010") as [->|Hb] |]; cbn [andb].
  - rewrite join_cons_nonempty by apply split_blank_lines_not_nil.
    by rewrite IH1.
  - rewrite join_cons_head by apply split_blank_lines_not_nil. by rewrite IH2.
  - rewrite join_cons_head by apply split_blank_lines_not_nil. by rewrite IH2.
Qed.

Lemma split_blank_lines_head (text : string) (c : ascii) (rest : string)
    (more : list string) :
  split_blank_lines text = String c rest :: more → ∃ t, text = String c t.
Proof.
  destruct text as [|a text]; [done |]. rewrite split_blank_lines_cons.
  destruct text as [|b text]; [intros [= <- _ _]; by eexists |].
  destruct (Ascii.eqb a "010" && Ascii.eqb b "010"); [done |].
  destruct (split_blank_lines (String b text)); intros [= <- _ _]; by eexists.
Qed.

Lemma prefix_blank_line (a : ascii) (s : string) :
  String.prefix blank_line (String a s) = true →
  a = "010"%char ∧ ∃ r, s = String "010" r.
Proof.
  unfold blank_line. cbn [String.prefix].
  destruct (ascii_dec "010" a) as [<-|]; [|done].
  destruct s as [|b r]; [done |]. cbn [String.prefix].
  destruct (ascii_dec "010" b) as [<-|]; [|done]. intros _. split; [done | by eexists].
Qed.

Lemma containsb_blank_line_cons (a : ascii) (s : string) :
  containsb blank_line s = false →
  (a = "010"%char → ∀ r, s ≠ String "010" r) →
  containsb blank_line (String a s) = false.
Proof.
  intros Hs Ha. rewrite containsb_unfold, Hs.
  destruct (String.prefix blank_line (String a s)) eqn:E; [|done].
  apply prefix_blank_line in E as [-> [r ->]]. by destruct (Ha eq_refl r).
Qed.

Lemma split_blank_lines_chunks (text chunk : string) :
  chunk ∈ split_blank_lines text → containsb blank_line chunk = false.
Proof.
  revert chunk.
  induction text as [|a|a b text IH1 IH2] using string_pair_ind; intros chunk.
  - by intros ->%list_elem_of_singleton.
  - intros ->%list_elem_of_singleton. by apply containsb_blank_line_cons.
  - rewrite split_blank_lines_cons.
    destruct (Ascii.eqb a "010" && Ascii.eqb b "010") eqn:Hab.
    + intros [->|Hin]%elem_of_cons; [done | by apply IH1].
    + destruct (split_blank_lines (String b text)) as [|chunk0 rest] eqn:E.
      { by apply split_blank_lines_not_nil in E. }
      cbn [cons_head]. intros [->|Hin]%elem_of_cons.
      * apply containsb_blank_line_cons; [apply IH2; by left |].
        intros Ha r Hr. subst a chunk0.
        apply split_blank_lines_head in E as [t [= -> _]]. done.
      * apply IH2. by right.
Qed.

(** X16. Splitting the rulebook at blank lines loses nothing: joining the
    chunks with blank lines gives the text back. There is always at least
    one chunk, so that an empty rulebook yields one empty rule, and no
    chunk contains a blank line. *)
Theorem split_blank_lines_round_trip (text : string) :
  str_join blank_line (split_blank_lines text) = text ∧
  split_blank_lines text ≠ [] ∧
  split_blank_lines "" = [""] ∧
  ∀ chunk, chunk ∈ split_blank_lines text → ¬ occurs_in blank_line chunk.
Proof.
  split; [apply split_blank_lines_join |].
  split; [apply split_blank_lines_not_nil |]. split; [done |].
  intros chunk Hin. apply not_occurs_in. by eapply split_blank_lines_chunks.
Qed.

(** ** The import of the rules *)

Lemma import_rules_run number_errors (splitText : list string) :
  ∀ batch,
    ∃ n,
      (splitText ≠ [] → 0 < n)%nat ∧ (n ≤ length splitText)%nat ∧
      imp_added (import_rules number_errors splitText batch) =
        imp_added batch ++ (rule_object <$> take n splitText) ∧
      (∀ k, (0 < k < n)%nat →
         (number_errors (imp_added batch ++ (rule_object <$> take k splitText)) ≤ 10)%nat) ∧
      ((n = length splitText ∧
        (splitText ≠ [] →
         (number_errors (imp_added (import_rules number_errors splitText batch)) ≤ 10)%nat) ∧
        imp_printed (import_rules number_errors splitText batch) = imp_printed batch) ∨
       ((10 < number_errors (imp_added (import_rules number_errors splitText batch)))%nat ∧
        imp_printed (import_rules number_errors splitText batch) =
          imp_printed batch ++ [stop_message])).
Proof.
  induction splitText as [|src_obj rest IH]; intros batch.
  - exists 0%nat. simpl. rewrite app_nil_r.
    split; [done |]. split; [done |]. split; [done |]. split; [lia |].
    left. by split.
  - cbn [import_rules]. unfold too_many_errors.
    destruct (Nat.ltb_spec 10
      (number_errors (imp_added (add_object (rule_object src_obj) batch)))) as [Hgt|Hle].
    + exists 1%nat. cbn [take fmap list_fmap length print add_object imp_added imp_printed] in *.
      split; [lia |]. split; [lia |]. split; [done |]. split; [lia |]. by right.
    + destruct (IH (add_object (rule_object src_obj) batch))
        as (n & Hpos & Hn & Hadded & Hbefore & Hend).
      exists (S n). cbn [take fmap list_fmap length add_object imp_added imp_printed] in *.
      split; [lia |]. split; [lia |].
      split; [by rewrite Hadded, <- app_assoc |]. split.
      * intros [|[|k]] Hk; [lia | by destruct rest | ].
        specialize (Hbefore (S k)). rewrite <- app_assoc in Hbefore.
        apply Hbefore. lia.
      * destruct Hend as [(-> & Herr & Hpr)|[Herr Hpr]]; [left | by right].
        split; [done |]. split; [|done]. intros _.
        destruct rest as [|? ?]; [by simpl | by apply Herr].
Qed.

(** X17. The import of the rulebook adds the chunks of the text as rules,
    in order, each under the single key [rule]: the objects added are those
    of a non-empty prefix of the chunks. The error count is tested after
    each addition, so at least one rule is added even when the batch
    already reports errors. The import goes through the whole rulebook,
    printing nothing, when the count never exceeds 10; the joined rules are
    then the text of the rulebook. Otherwise it stops at the first addition
    after which the count exceeds 10 and prints the message once. *)
Theorem import_rulebook_adds_prefix
    (number_errors : list (gmap string prop_value) → nat) (rulebook_text : string) :
  let chunks := split_blank_lines rulebook_text in
  let batch := import_rulebook number_errors rulebook_text in
  ∃ n,
    (0 < n ≤ length chunks)%nat ∧
    imp_added batch = rule_object <$> take n chunks ∧
    (∀ k, (0 < k < n)%nat →
       (number_errors (rule_object <$> take k chunks) ≤ 10)%nat) ∧
    ((n = length chunks ∧ (number_errors (imp_added batch) ≤ 10)%nat ∧
      imp_printed batch = [] ∧
      str_join blank_line (take n chunks) = rulebook_text) ∨
     ((10 < number_errors (imp_added batch))%nat ∧
      imp_printed batch = [stop_message])).
Proof.
  intros chunks batch. unfold batch, import_rulebook. fold chunks.
  pose proof (split_blank_lines_not_nil rulebook_text) as Hne. fold chunks in Hne.
  destruct (import_rules_run number_errors chunks no_import)
    as (n & Hpos & Hn & Hadded & Hbefore & Hend).
  exists n. split; [split; [by apply Hpos | done] |].
  split; [done |]. split; [done |].
  destruct Hend as [(-> & Herr & Hpr)|[Herr Hpr]]; [left | by right].
  split; [done |]. split; [by apply Herr |]. split; [done |].
  rewrite firstn_all. apply split_blank_lines_join.
Qed.

(** ** The import of the rulings *)

Lemma char_in_remove_char (c : ascii) (s : string) :
  char_in c (remove_char c s) = false.
Proof.
  induction s as [|a s IH]; simpl; [done |].
  destruct (Ascii.eqb_spec a c) as [->|Hne]; [done |]. simpl.
  destruct (Ascii.eqb_spec c a); [congruence | done].
Qed.

Lemma char_in_remove_other (c d : ascii) (s : string) :
  char_in c s = false → char_in c (remove_char d s) = false.
Proof.
  induction s as [|a s IH]; simpl; [done |].
  destruct (Ascii.eqb c a) eqn:E; [done |]. intros H.
  destruct (Ascii.eqb a d); simpl; [by apply IH |]. rewrite E. by apply IH.
Qed.

Lemma clean_ruling_no_quote (ruling : string) :
  char_in double_quote (clean_ruling ruling) = false ∧
  char_in single_quote (clean_ruling ruling) = false.
Proof.
  unfold clean_ruling. split; [|apply char_in_remove_char].
  apply char_in_remove_other, char_in_remove_char.
Qed.

Lemma concat_rulings_spec (rulings : list string) :
  ∀ rulingsStr,
    concat_rulings rulings rulingsStr =
    rulingsStr +:+ String.concat "" (clean_ruling <$> rulings).
Proof.
  induction rulings as [|ruling rest IH]; intros rulingsStr.
  - by rewrite append_nil_r.
  - cbn [concat_rulings]. rewrite IH. fold (clean_ruling ruling).
    rewrite append_assoc. f_equal. cbn [fmap list_fmap String.concat].
    destruct (clean_ruling <$> rest) eqn:E; [|done].
    by rewrite append_nil_r.
Qed.

Lemma concat_rulings_no_quote (rulings : list string) :
  ∀ rulingsStr c,
    (c = double_quote ∨ c = single_quote) →
    char_in c rulingsStr = false →
    char_in c (concat_rulings rulings rulingsStr) = false.
Proof.
  induction rulings as [|ruling rest IH]; intros rulingsStr c Hc H; [done |].
  cbn [concat_rulings]. apply IH; [done |]. rewrite char_in_append, H.
  fold (clean_ruling ruling).
  destruct (clean_ruling_no_quote ruling) as [Hd Hs]. by destruct Hc as [->| ->].
Qed.

Lemma import_ruling_run (value : list CardInfo) (batch : Import) :
  let '(outcome, batch') := import_ruling value batch in
  ∃ more printed,
    imp_added batch' = imp_added batch ++ more ∧
    imp_printed batch' = imp_printed batch ++ printed ∧
    Forall ruling_object more ∧ (length more ≤ 1)%nat ∧
    (outcome ≠ Ok tt → more = []).
Proof.
  assert (∀ outcome : result unit,
    ∃ more printed : list _,
      imp_added batch = imp_added batch ++ more ∧
      imp_printed batch = imp_printed batch ++ printed ∧
      Forall ruling_object more ∧ (length more ≤ 1)%nat ∧
      (outcome ≠ Ok tt → more = [])) as Hsame.
  { intros outcome. exists [], []. rewrite !app_nil_r.
    repeat split; [constructor | simpl; lia]. }
  unfold import_ruling. destruct value as [|card_info ?]; [apply Hsame |].
  destruct (ci_rulings card_info) as [card_rulings|]; [|apply Hsame].
  destruct (ruling_texts card_rulings) as [rulings|e]; [|apply Hsame].
  destruct (ci_name card_info) as [name|].
  - eexists [_], [_]. cbn [add_object print imp_added imp_printed].
    split; [done |]. split; [done |]. split; [|split; [simpl; lia | done]].
    constructor; [|constructor]. eexists _, _. split; [done |].
    split; apply concat_rulings_no_quote; auto.
  - exists [], [concat_rulings rulings ""]. cbn [print imp_added imp_printed].
    rewrite app_nil_r. repeat split; [constructor | simpl; lia].
Qed.

Lemma import_rulings_run number_errors (data : list (string * list CardInfo)) :
  ∀ batch,
    ∃ more,
      imp_added (snd (import_rulings number_errors data batch)) =
        imp_added batch ++ more ∧
      Forall ruling_object more ∧ (length more ≤ length data)%nat.
Proof.
  induction data as [|[key value] rest IH]; intros batch.
  - exists []. simpl. by rewrite app_nil_r.
  - cbn [import_rulings]. pose proof (import_ruling_run value batch) as Hstep.
    destruct (import_ruling value batch) as [[[]|e] batch1].
    + destruct Hstep as (more1 & printed & Hadd & _ & Hall & Hlen & _).
      destruct (too_many_errors number_errors batch1).
      * exists more1. cbn [snd print imp_added]. split; [done |].
        split; [done |]. simpl. lia.
      * destruct (IH batch1) as (more & Hadd' & Hall' & Hlen').
        exists (more1 ++ more). rewrite Hadd', Hadd, <- app_assoc.
        split; [done |]. split; [by apply Forall_app |].
        rewrite length_app. simpl. lia.
    + destruct Hstep as (more1 & printed & Hadd & _ & Hall & Hlen & Hnone).
      exists more1. cbn [snd]. split; [done |]. split; [done |]. simpl. lia.
Qed.

Lemma remove_char_filter (c : ascii) (s : string) :
  String.list_ascii_of_string (remove_char c s) =
  filter (λ a, a ≠ c) (String.list_ascii_of_string s).
Proof.
  induction s as [|a s IH]; [done |]. cbn [remove_char String.list_ascii_of_string].
  destruct (Ascii.eqb_spec a c) as [->|Hne].
  - rewrite filter_cons_False; [done | by intros ?].
  - rewrite filter_cons_True by done. cbn [String.list_ascii_of_string]. by rewrite IH.
Qed.

Lemma clean_ruling_without_quotes (ruling : string) :
  clean_ruling ruling = without_quotes ruling.
Proof.
  unfold clean_ruling, without_quotes.
  rewrite <- list_filter_filter, <- !remove_char_filter.
  by rewrite String.string_of_list_ascii_of_string.
Qed.

Lemma concat_rulings_stored (rulings : list string) :
  concat_rulings rulings "" = stored_rulings rulings.
Proof.
  rewrite concat_rulings_spec. unfold stored_rulings. cbn [String.append].
  f_equal. apply list_fmap_ext. intros _ ruling _. apply clean_ruling_without_quotes.
Qed.

Lemma ruling_texts_mapM (card_rulings : list Ruling) :
  ruling_texts card_rulings =
  match mapM ruling_text card_rulings with
  | Some texts => Ok texts
  | None => Raise (KeyError "text")
  end.
Proof.
  induction card_rulings as [|ruling rest IH]; [done |].
  cbn [ruling_texts mapM]. destruct (ruling_text ruling) as [text|]; [|done].
  rewrite IH. cbn. by destruct (mapM ruling_text rest).
Qed.

Lemma import_ruling_outcome (key : string) (value : list CardInfo) (batch : Import) :
  import_ruling value batch =
  (match rulings_outcome_of (key, value) with
   | Failed e _ => Raise e
   | _ => Ok tt
   end, after_card (rulings_outcome_of (key, value)) batch).
Proof.
  assert (∀ o, added_of o = [] → printed_of o = [] → after_card o batch = batch) as Hsame.
  { intros o Ha Hp. unfold after_card. rewrite Ha, Hp, !app_nil_r. by destruct batch. }
  unfold import_ruling, rulings_outcome_of. cbn [snd].
  destruct value as [|card_info faces]; [by rewrite Hsame |].
  destruct (ci_rulings card_info) as [card_rulings|]; [|by rewrite Hsame].
  rewrite ruling_texts_mapM.
  destruct (mapM ruling_text card_rulings) as [texts|]; [|by rewrite Hsame].
  rewrite concat_rulings_stored. destruct (ci_name card_info) as [name|]; [done |].
  unfold after_card, print. cbn [added_of printed_of]. by rewrite app_nil_r.
Qed.

Lemma import_rulings_outcomes number_errors (data : list (string * list CardInfo)) :
  ∀ batch,
    let run := import_rulings number_errors data batch in
    let outcomes := rulings_outcome_of <$> data in
    ∃ n,
      (n ≤ length data)%nat ∧
      (∀ k e printed, (k < n)%nat → outcomes !! k ≠ Some (Failed e printed)) ∧
      imp_added (snd run) =
        imp_added batch ++ concat (added_of <$> take n outcomes) ∧
      (∀ k, (0 < k < n)%nat →
         (number_errors (imp_added batch ++ concat (added_of <$> take k outcomes))
          ≤ 10)%nat) ∧
      ((fst run = Ok tt ∧ n = length data ∧
        imp_printed (snd run) =
          imp_printed batch ++ concat (printed_of <$> outcomes)) ∨
       (fst run = Ok tt ∧ (0 < n)%nat ∧
        (10 < number_errors (imp_added (snd run)))%nat ∧
        imp_printed (snd run) =
          imp_printed batch ++ concat (printed_of <$> take n outcomes) ++
          [stop_message]) ∨
       (∃ e printed,
          outcomes !! n = Some (Failed e printed) ∧ fst run = Raise e ∧
          imp_printed (snd run) =
            imp_printed batch ++ concat (printed_of <$> take n outcomes) ++
            printed)).
Proof.
  induction data as [|[key value] rest IH]; intros batch; cbv zeta.
  - exists 0%nat. cbn. rewrite !app_nil_r.
    split; [done |]. split; [intros; lia |]. split; [done |]. split; [lia |].
    left. by repeat split.
  - cbn [import_rulings]. rewrite (import_ruling_outcome key).
    cbn [fmap list_fmap]. fold (fmap (M:=list) rulings_outcome_of rest).
    set (outcome := rulings_outcome_of (key, value)).
    set (outcomes := rulings_outcome_of <$> rest) in *.
    assert ((∃ e printed, outcome = Failed e printed) ∨
            ((∀ e printed, outcome ≠ Failed e printed) ∧
             match outcome with Failed e _ => Raise e | _ => Ok tt end = Ok tt))
      as [(e & printed & Hfailed)|[Hok Hstatus]].
    { destruct outcome; [right | right | left]; by eauto. }
    + rewrite Hfailed. exists 0%nat. cbn. rewrite !app_nil_r.
      split; [lia |]. split; [intros; lia |]. split; [done |]. split; [lia |].
      right. right. by exists e, printed.
    + rewrite Hstatus. unfold too_many_errors.
      destruct (Nat.ltb_spec 10 (number_errors (imp_added (after_card outcome batch))))
        as [Hgt|Hle].
      * exists 1%nat. cbn [fst snd take fmap list_fmap concat length print
          after_card imp_added imp_printed] in *. rewrite !app_nil_r.
        split; [lia |]. split.
        { intros [|k] e printed Hk; [|lia]. cbn. intros [= H]. by eapply Hok. }
        split; [done |]. split; [lia |].
        right. left. rewrite <- app_assoc. repeat split; [lia | done].
      * destruct (IH (after_card outcome batch))
          as (n & Hn & Hnone & Hadded & Hbefore & Hend).
        fold outcomes in Hnone, Hadded, Hbefore, Hend.
        exists (S n). cbn [fst snd length after_card imp_added imp_printed] in *.
        rewrite !firstn_cons. cbn [fmap list_fmap concat].
        split; [lia |]. split.
        { intros [|k] e printed Hk; cbn.
          - intros [= H]. by eapply Hok.
          - apply Hnone. lia. }
        split; [by rewrite Hadded, <- app_assoc |]. split.
        { intros [|[|k]] Hk; [lia | |].
          - cbn. by rewrite app_nil_r.
          - specialize (Hbefore (S k)). rewrite <- app_assoc in Hbefore.
            rewrite !firstn_cons. cbn [fmap list_fmap concat].
            apply Hbefore. lia. }
        destruct Hend as [(Hrun & -> & Hpr)|[(Hrun & Hpos & Herr & Hpr)|Hraise]].
        -- left. split; [done |]. split; [done |]. by rewrite Hpr, <- app_assoc.
        -- right. left. split; [done |]. split; [lia |]. split; [done |].
           by rewrite Hpr, <- !app_assoc.
        -- right. right. destruct Hraise as (e & printed & Hat & Hrun & Hpr).
           exists e, printed. split; [done |]. split; [done |].
           by rewrite Hpr, <- !app_assoc.
Qed.

(** X18. The import of the rulings goes through the cards in order and
    stores, for each card whose first face has rulings, one object: the
    name of that face under [name] and, under [rulings], the texts of its
    rulings one after the other with nothing between them and without
    their quotation marks, double and single; it prints that text. A card
    without the key [rulings] adds and prints nothing. The objects added
    are those of a prefix of the cards, and the import ends in one of
    three ways: it went through all the cards; or it stopped at the first
    card after which more than 10 errors are reported and printed the
    message last; or it raised at the first card that has no face
    ([IndexError]), a ruling without text ([KeyError]), or rulings but no
    name ([KeyError], after the text of its rulings was printed), nothing
    being added for that card. *)
Theorem import_rulings_objects
    (number_errors : list (gmap string prop_value) → nat)
    (data : list (string * list CardInfo)) :
  let run := import_rulings number_errors data no_import in
  let outcomes := rulings_outcome_of <$> data in
  ∃ n,
    (n ≤ length data)%nat ∧
    (∀ k e printed, (k < n)%nat → outcomes !! k ≠ Some (Failed e printed)) ∧
    imp_added (snd run) = concat (added_of <$> take n outcomes) ∧
    (∀ k, (0 < k < n)%nat →
       (number_errors (concat (added_of <$> take k outcomes)) ≤ 10)%nat) ∧
    ((fst run = Ok tt ∧ n = length data ∧
      imp_printed (snd run) = concat (printed_of <$> outcomes)) ∨
     (fst run = Ok tt ∧ (0 < n)%nat ∧
      (10 < number_errors (imp_added (snd run)))%nat ∧
      imp_printed (snd run) =
        concat (printed_of <$> take n outcomes) ++ [stop_message]) ∨
     (∃ e printed,
        outcomes !! n = Some (Failed e printed) ∧ fst run = Raise e ∧
        imp_printed (snd run) =
          concat (printed_of <$> take n outcomes) ++ printed)).
Proof.
  intros run outcomes.
  destruct (import_rulings_outcomes number_errors data no_import)
    as (n & Hn & Hnone & Hadded & Hbefore & Hend).
  exists n. by cbn [no_import imp_added imp_printed app] in *.
Qed.

(** The import of three cards: the rulings of the first are stored without
    the apostrophe and the quotation marks, the second has no rulings, and
    the third, which has no name, ends the import after its rulings were
    printed. *)
Example import_rulings_runs :
  import_rulings (λ _, 0%nat) sample_cards no_import =
    (Raise (KeyError "name"),
     {| imp_added :=
          [ <["name" := PText "Colossal Dreadmaw"]>
              {[ "rulings" := PText "Its big.Its excess damage tramples." ]} ];
        imp_printed := [ "Its big.Its excess damage tramples."; "Dont ask." ] |}).
Proof. by vm_compute. Qed.

(** ** The import of the cards *)

Lemma import_cards_run number_errors (data : list (string * list CardInfo)) :
  ∀ batch,
    let run := import_cards number_errors data batch in
    ∃ n more,
      (n ≤ length data)%nat ∧
      imp_added (snd run) = imp_added batch ++ more ∧
      Forall2 (λ entry props, card_object entry = Ok props) (take n data) more ∧
      (∀ k, (0 < k < n)%nat →
         (number_errors (imp_added batch ++ take k more) ≤ 10)%nat) ∧
      ((fst run = Ok tt ∧ n = length data ∧ imp_printed (snd run) = imp_printed batch ∧
        (data ≠ [] → (number_errors (imp_added (snd run)) ≤ 10)%nat)) ∨
       (fst run = Ok tt ∧ (0 < n)%nat ∧
        (10 < number_errors (imp_added (snd run)))%nat ∧
        imp_printed (snd run) = imp_printed batch ++ [stop_message]) ∨
       (∃ entry e,
          data !! n = Some entry ∧ card_object entry = Raise e ∧
          fst run = Raise e ∧ imp_printed (snd run) = imp_printed batch)).
Proof.
  induction data as [|[key value] rest IH]; intros batch; cbv zeta.
  - exists 0%nat, []. simpl. rewrite app_nil_r.
    split; [done |]. split; [done |]. split; [constructor |]. split; [lia |].
    left. by repeat split.
  - cbn [import_cards].
    destruct (card_object (key, value)) as [props|e] eqn:Hobj.
    2:{ exists 0%nat, []. rewrite app_nil_r.
        assert (import_cards number_errors ((key, value) :: rest) batch = (Raise e, batch))
          as Hrun.
        { unfold card_object in Hobj. cbn [snd] in Hobj. cbn [import_cards].
          destruct value as [|card_info ?]; [congruence |]. by rewrite Hobj. }
        cbn [import_cards] in Hrun. rewrite Hrun. cbn [fst snd take length].
        split; [lia |]. split; [done |]. split; [constructor |]. split; [lia |].
        right. right. by exists (key, value), e. }
    unfold card_object in Hobj. cbn [snd] in Hobj.
    destruct value as [|card_info faces]; [done |]. rewrite Hobj.
    unfold too_many_errors.
    destruct (Nat.ltb_spec 10 (number_errors (imp_added (add_object props batch))))
      as [Hgt|Hle].
    + exists 1%nat, [props].
      cbn [fst snd take length print add_object imp_added imp_printed] in *.
      split; [lia |]. split; [done |].
      split; [by repeat constructor |]. split; [lia |].
      right. left. repeat split; [lia | done].
    + destruct (IH (add_object props batch))
        as (n & more & Hn & Hadded & Hall & Hbefore & Hend).
      exists (S n), (props :: more).
      cbn [fst snd take length add_object imp_added imp_printed] in *.
      split; [lia |]. split; [by rewrite Hadded, <- app_assoc |].
      split; [by constructor |]. split.
      * intros [|[|k]] Hk; [lia | by destruct more | ].
        specialize (Hbefore (S k)). rewrite <- app_assoc in Hbefore.
        apply Hbefore. lia.
      * destruct Hend as [(Hok & -> & Hpr & Herr)|[(Hok & Hpos & Herr & Hpr)|Hraise]].
        -- left. split; [done |]. split; [done |]. split; [done |]. intros _.
           destruct rest as [|? ?]; [by simpl | by apply Herr].
        -- right. left. repeat split; [done | lia | done | done].
        -- right. right. destruct Hraise as (entry & e & Hat & Hobj' & Hr & Hpr).
           by exists entry, e.
Qed.

(** X19. The import of the cards adds the properties of the first face of
    each card, in the order of the data, for a prefix of the data; what it
    prints is at most the stop message. It ends in one of three ways: it
    went through all the cards and printed nothing; or it stopped at the
    first addition after which more than 10 errors are reported (at least
    one card was added) and printed the message once; or it raised at the
    first card that has no face ([IndexError]) or whose first face has no
    name ([KeyError]), the cards before it being added and nothing being
    printed. *)
Theorem import_cards_adds_prefix
    (number_errors : list (gmap string prop_value) → nat)
    (data : list (string * list CardInfo)) :
  let run := import_cards number_errors data no_import in
  ∃ n,
    (n ≤ length data)%nat ∧
    Forall2 (λ entry props, card_object entry = Ok props)
      (take n data) (imp_added (snd run)) ∧
    (∀ k, (0 < k < n)%nat →
       (number_errors (take k (imp_added (snd run))) ≤ 10)%nat) ∧
    ((fst run = Ok tt ∧ n = length data ∧ imp_printed (snd run) = []) ∨
     (fst run = Ok tt ∧ (0 < n)%nat ∧
      (10 < number_errors (imp_added (snd run)))%nat ∧
      imp_printed (snd run) = [stop_message]) ∨
     (∃ entry e,
        data !! n = Some entry ∧ fst run = Raise e ∧
        imp_printed (snd run) = [] ∧
        ((snd entry = [] ∧ e = IndexError) ∨
         (∃ card_info faces,
            snd entry = card_info :: faces ∧ ci_name card_info = None ∧
            e = KeyError "name")))).
Proof.
  intros run. unfold run.
  destruct (import_cards_run number_errors data no_import)
    as (n & more & Hn & Hadded & Hall & Hbefore & Hend).
  cbn [no_import imp_added imp_printed app] in *. rewrite Hadded.
  exists n. split; [done |]. split; [done |]. split; [done |].
  destruct Hend as [(Hok & -> & Hpr & _)|[(Hok & Hpos & Herr & Hpr)|Hraise]].
  - by left.
  - right. left. by rewrite <- Hadded.
  - right. right. destruct Hraise as (entry & e & Hat & Hobj & Hr & Hpr).
    exists entry, e. split; [done |]. split; [done |]. split; [done |].
    unfold card_object in Hobj. destruct (snd entry) as [|card_info faces].
    + left. split; [done | congruence].
    + right. exists card_info, faces. split; [done |].
      unfold card_properties in Hobj. destruct (ci_name card_info); [done |].
      split; [done | congruence].
Qed.

(** ** The objects added and the schema *)

Lemma rule_object_conforms (src_obj : string) :
  conforms (properties_of "MTGOfficialRules3") (rule_object src_obj).
Proof.
  intros k value Hk. unfold rule_object in Hk.
  apply lookup_singleton_Some in Hk as [<- <-].
  exists TEXT. split; [|done]. vm_compute properties_of. apply list_elem_of_here.
Qed.

Lemma ruling_object_conforms (props : gmap string prop_value) :
  ruling_object props →
  conforms (properties_of "MTGRulings3") props ∧
  dom props = declared_keys (properties_of "MTGRulings3").
Proof.
  intros (name & rulingsStr & -> & _). split.
  - intros k value Hk. exists TEXT. vm_compute properties_of.
    apply lookup_insert_Some in Hk as [[<- <-]|[_ Hk]].
    { split; [apply list_elem_of_here | done]. }
    apply lookup_singleton_Some in Hk as [<- <-].
    split; [|done]. apply list_elem_of_further, list_elem_of_here.
  - vm_compute properties_of. unfold declared_keys.
    cbn [fmap list_fmap fst list_to_set].
    rewrite dom_insert_L, dom_singleton_L. set_solver.
Qed.

(** X20. The properties stored for a card whose first face has a name: the
    seven keys declared for the collection [MTGCards3] are all set, a text
    property that the card lacks being stored as the empty text; the mana
    cost is stored with its braces removed and its other characters kept;
    and the object has the declared types exactly when the card has the
    key [colors], since a card without it is stored with the empty text
    for [colors], which is declared as a text array. *)
Theorem card_properties_and_schema (card_info : CardInfo) (name : string) :
  ci_name card_info = Some name →
  ∃ props manaCost,
    card_properties card_info = Ok props ∧
    dom props = declared_keys (properties_of "MTGCards3") ∧
    props !! "name" = Some (PText name) ∧
    props !! "manaCost" = Some (PText manaCost) ∧
    String.list_ascii_of_string manaCost =
      filter (λ a, a ≠ "}"%char ∧ a ≠ "{"%char)
        (String.list_ascii_of_string (default "" (ci_manaCost card_info))) ∧
    char_in "{" manaCost = false ∧ char_in "}" manaCost = false ∧
    (∀ k field,
       (k, field) ∈ [ ("type", ci_type card_info); ("text", ci_text card_info);
                      ("power", ci_power card_info);
                      ("toughness", ci_toughness card_info) ] →
       props !! k = Some (PText (default "" field))) ∧
    (conforms (properties_of "MTGCards3") props ↔ is_Some (ci_colors card_info)) ∧
    (ci_colors card_info = None → props !! "colors" = Some (PText "")).
Proof.
  intros Hname. unfold card_properties. rewrite Hname.
  eexists _, _. split; [done |]. split.
  { vm_compute properties_of. unfold declared_keys.
    cbn [fmap list_fmap fst list_to_set].
    rewrite !dom_insert_L, dom_singleton_L. set_solver. }
  split; [done |]. split; [done |].
  split; [by rewrite !remove_char_filter, list_filter_filter |].
  split; [apply char_in_remove_other, char_in_remove_char |].
  split; [apply char_in_remove_char |].
  split.
  { intros k field Hin. apply list_elem_of_In in Hin. cbn [In] in Hin.
    repeat (destruct Hin as [[= <- <-]|Hin]; [done |]). done. }
  split.
  - vm_compute properties_of. split.
    + intros Hconf. destruct (ci_colors card_info); [done |].
      destruct (Hconf "colors" (PText "")) as (type & Hin & Hty); [done |].
      destruct type; [|done].
      apply list_elem_of_In in Hin. cbn [In] in Hin.
      repeat (destruct Hin as [[= ]|Hin]). done.
    + intros [colors Hcolors] k value Hk. rewrite Hcolors in Hk.
      repeat (apply lookup_insert_Some in Hk as [[<- <-]|[_ Hk]];
        [exists TEXT; split; [set_solver | done] |]).
      apply lookup_singleton_Some in Hk as [<- <-].
      exists TEXT_ARRAY. split; [set_solver | done].
  - by intros ->.
Qed.

(** X21. The rules and the rulings that the script adds have the declared
    types, but the rules are incomplete: every rule that the import of the
    rulebook adds has the single key [rule], so that the declared
    properties [rule_number] and [section] are never set; every object
    that the import of the rulings adds has exactly the two keys declared
    for [MTGRulings3]. *)
Theorem rules_and_rulings_and_schema
    (number_errors : list (gmap string prop_value) → nat)
    (rulebook_text : string) (data : list (string * list CardInfo)) :
  (∀ props, props ∈ imp_added (import_rulebook number_errors rulebook_text) →
     conforms (properties_of "MTGOfficialRules3") props ∧
     dom props = {[ "rule" ]} ∧
     "rule_number" ∈ declared_keys (properties_of "MTGOfficialRules3") ∖ dom props ∧
     "section" ∈ declared_keys (properties_of "MTGOfficialRules3") ∖ dom props) ∧
  (∀ props, props ∈ imp_added (snd (import_rulings number_errors data no_import)) →
     conforms (properties_of "MTGRulings3") props ∧
     dom props = declared_keys (properties_of "MTGRulings3")).
Proof.
  split.
  - intros props Hin. unfold import_rulebook in Hin.
    destruct (import_rules_run number_errors (split_blank_lines rulebook_text) no_import)
      as (n & _ & _ & Hadded & _).
    rewrite Hadded in Hin. cbn [no_import imp_added app] in Hin.
    apply list_elem_of_fmap in Hin as (src_obj & -> & _).
    split; [apply rule_object_conforms |].
    unfold rule_object. rewrite dom_singleton_L. split; [done |].
    vm_compute properties_of. unfold declared_keys.
    cbn [fmap list_fmap fst list_to_set]. set_solver.
  - intros props Hin.
    destruct (import_rulings_run number_errors data no_import)
      as (more & Hadded & Hall & _).
    rewrite Hadded in Hin. cbn [no_import imp_added app] in Hin.
    apply ruling_object_conforms. rewrite Forall_forall in Hall. by apply Hall.
Qed.

(** ** Further runs on stub collaborators *)

Lemma search_retains_exactly_witness :
  search_reply (st_self stub_state) Rules "How does trample work?"
    (limits_in_force (Some stub_limits)) = Ok {| objects := [trample_rule] |} ∧
  ∃ sr st',
    search_all_collections "How does trample work?" (Some stub_limits) None
      stub_state = (Ok sr, st') ∧
    results_of Rules sr = [trample_rule].
Proof.
  split; [by vm_compute |].
  destruct (search_retains_exactly "How does trample work?" (Some stub_limits)
              None Rules {| objects := [trample_rule] |} stub_state)
    as (sr & st' & Hrun & Hkept & _); [by vm_compute |].
  exists sr, st'. split; [done |].
  rewrite Hkept; [by vm_compute |]. repeat constructor. by eexists _, _.
Defined.

Lemma search_with_missing_limit_witness :
  limits_in_force (Some rules_only_limits) !! key Cards = None ∧
  ∃ sr st',
    search_all_collections "How does trample work?" (Some rules_only_limits) None
      stub_state = (Ok sr, st') ∧
    results_of Cards sr = [] ∧
    results_of Rules sr = [trample_rule] ∧
    st_calls st' =
      [ CallCollectionsGet "MTGOfficialRules";
        CallNearText "MTGOfficialRules" "How does trample work?" 2;
        CallCollectionsGet "MTGCards";
        CallCollectionsGet "MTGRulings" ] ∧
    search_log_line (st_self stub_state) Cards "How does trample work?"
      (limits_in_force (Some rules_only_limits)) (min_score_in_force None) =
      (ERROR, "Error searching cards: 'cards'").
Proof.
  split; [by vm_compute |].
  destruct (search_with_missing_limit "How does trample work?"
              (Some rules_only_limits) None Cards stub_state)
    as (sr & st' & Hrun & Hempty & Hothers & Hcalls & _ & _ & Hline);
    [by vm_compute |].
  exists sr, st'. split; [done |]. split; [done |].
  split; [rewrite (Hothers Rules); by vm_compute |].
  split; [rewrite Hcalls; by vm_compute |].
  rewrite (Hline "MTGCards" "MTGCards"); by vm_compute.
Defined.

Lemma context_of_no_results_witness :
  rules header_query_results = [] ∧ cards header_query_results = [] ∧
  rulings header_query_results = [] ∧
  format_context_for_llm header_query_results stub_state =
    (Ok ("SEARCH QUERY: === OFFICIAL RULES ===" +:+ newline +:+
         "SEARCH TIMESTAMP: 2024-01-01T00:00:00" +:+ newline), stub_state).
Proof.
  split; [done |]. split; [done |]. split; [done |].
  exact (context_of_no_results header_query_results stub_state
           eq_refl eq_refl eq_refl).
Defined.

Lemma unread_properties_are_ignored_witness :
  ("manaCost" ∉ read_keys Cards) ∧
  entry Cards 1 (with_property "manaCost" "1R" dreadmaw_card) =
    entry Cards 1 dreadmaw_card.
Proof.
  assert ("manaCost" ∉ read_keys Cards) as Hunread.
  { apply (bool_decide_unpack _). by vm_compute. }
  split; [done |].
  apply (unread_properties_are_ignored Cards "manaCost" Hunread).
Defined.

Lemma answer_question_without_sources_witness :
  (∀ c, is_raise (search_reply (st_self offline_state) c "How does trample work?"
                    (limits_in_force None))) ∧
  ∃ record st',
    answer_question "How does trample work?" None None None None offline_state =
      (Ok record, st') ∧
    ar_sources_found record =
      Some {| src_rules := 0; src_cards := 0; src_rulings := 0 |} ∧
    ar_answer record = "Excess damage is dealt to the player.".
Proof.
  assert (∀ c, is_raise (search_reply (st_self offline_state) c
                           "How does trample work?" (limits_in_force None)))
    as Hfail.
  { intros []; by vm_compute. }
  split; [done |].
  destruct (answer_question_without_sources "How does trample work?" None None
              None None offline_state Hfail)
    as (record & st' & Hrun & Hsources & Hanswer & _).
  exists record, st'. split; [done |]. split; [done |].
  rewrite Hanswer. by vm_compute.
Defined.

Lemma sources_found_within_limit_witness :
  limits_in_force (Some stub_limits) !! key Rules = Some 2 ∧
  Z.of_nat (length (candidates
    (search_reply (st_self stub_state) Rules "How does trample work?"
       (limits_in_force (Some stub_limits))))) ≤ 2 ∧
  ∃ record st' sources,
    answer_question "How does trample work?" (Some stub_limits) None None None
      stub_state = (Ok record, st') ∧
    ar_sources_found record = Some sources ∧
    Z.of_nat (source_count Rules sources) ≤ 2.
Proof.
  split; [by vm_compute |]. split; [by vm_compute |].
  apply (sources_found_within_limit "How does trample work?" (Some stub_limits)
           None None None Rules 2 stub_state); by vm_compute.
Defined.

Lemma card_properties_and_schema_witness :
  ci_name wastes_card = Some "Wastes" ∧
  ∃ props,
    card_properties wastes_card = Ok props ∧
    props !! "manaCost" = Some (PText "") ∧
    props !! "colors" = Some (PText "") ∧
    ¬ conforms (properties_of "MTGCards3") props.
Proof.
  split; [done |].
  destruct (card_properties_and_schema wastes_card "Wastes" eq_refl)
    as (props & manaCost & Hprops & _ & _ & Hmana & Hkept & _ & _ & _ & Hconf & Hcolors).
  exists props. split; [done |]. split.
  { rewrite Hmana. by destruct manaCost. }
  split; [by apply Hcolors |].
  intros [colors Hsome]%Hconf. discriminate Hsome.
Defined.
